(** * AMASS downloader and extractor: a shallow embedding and its properties

    The repository holds two command-line scripts, [download_amass.py] (class
    [AMassDownloader]) and [extract_amass.py] (class [AMassExtractor]).  Both
    are I/O orchestration: the embedding below threads an explicit world (file
    system, remote server) through every method and records the observable
    effects (HTTP requests, file writes, sleeps, log lines) in a trace.

    Text ([str]) is modelled by its UTF-8 encoding, a [string] of bytes.
    Python dictionaries are [gmap]s, the result of [Path.glob] is a list. *)

From Stdlib Require Import ZArith Ascii.
From stdpp Require Import base tactics option list sorting gmap strings.

Local Open Scope Z_scope.

(** ** Python string methods used by the scripts *)

Module pystr.

(** The characters for which [str.isspace] holds, the ones [strip]
    removes, in UTF-8.  One byte: TAB, LF, VT, FF, CR, the four separators
    FS/GS/RS/US and the blank. *)
Definition is_space (c : ascii) : bool :=
  match c with
  | "009" | "010" | "011" | "012" | "013"
  | "028" | "029" | "030" | "031" | " " => true
  | _ => false
  end%char.

(** Two bytes: U+0085 (C2 85) and U+00A0 (C2 A0). *)
Definition is_space2 (c d : ascii) : bool :=
  let c := N_of_ascii c in
  let d := N_of_ascii d in
  ((c =? 194) && ((d =? 133) || (d =? 160)))%N.

(** Three bytes: U+1680 (E1 9A 80), U+2000 to U+200A (E2 80 80 to
    E2 80 8A), U+2028 and U+2029 (E2 80 A8, E2 80 A9), U+202F (E2 80 AF),
    U+205F (E2 81 9F) and U+3000 (E3 80 80). *)
Definition is_space3 (c d e : ascii) : bool :=
  let c := N_of_ascii c in
  let d := N_of_ascii d in
  let e := N_of_ascii e in
  (((c =? 225) && (d =? 154) && (e =? 128))
   || ((c =? 226) && (d =? 128)
       && (((128 <=? e) && (e <=? 138)) || (e =? 168) || (e =? 169) || (e =? 175)))
   || ((c =? 226) && (d =? 129) && (e =? 159))
   || ((c =? 227) && (d =? 128) && (e =? 128)))%N.

(** [s.lstrip()]: the leading whitespace characters are removed. *)
Fixpoint lstrip (s : string) : string :=
  match s with
  | EmptyString => EmptyString
  | String c s1 =>
      if is_space c then lstrip s1
      else
        match s1 with
        | EmptyString => s
        | String d s2 =>
            if is_space2 c d then lstrip s2
            else
              match s2 with
              | EmptyString => s
              | String e s3 => if is_space3 c d e then lstrip s3 else s
              end
        end
  end.

(** The same from the end, on the reversed text: the bytes of a character
    come last byte first.  In well-formed UTF-8 the bytes C2, E1, E2 and E3
    only ever start a character, so the bytes matched are a character. *)
Fixpoint rstrip_rev (s : string) : string :=
  match s with
  | EmptyString => EmptyString
  | String e s1 =>
      if is_space e then rstrip_rev s1
      else
        match s1 with
        | EmptyString => s
        | String d s2 =>
            if is_space2 d e then rstrip_rev s2
            else
              match s2 with
              | EmptyString => s
              | String c s3 => if is_space3 c d e then rstrip_rev s3 else s
              end
        end
  end.

(** [s.rstrip()] *)
Definition rstrip (s : string) : string :=
  String.rev (rstrip_rev (String.rev s)).

(** [s.strip()] *)
Definition strip (s : string) : string := rstrip (lstrip s).

(** The byte [c] is between [lo] and [hi]. *)
Definition between (lo hi : N) (c : ascii) : bool :=
  ((lo <=? N_of_ascii c) && (N_of_ascii c <=? hi))%N.

(** The bytes of a file decode as UTF-8 (the [strict] error handler of
    [open(..., encoding="utf-8")]): they are well-formed sequences of one
    to four bytes, without overlong forms, surrogates and code points above
    U+10FFFF. *)
Fixpoint utf8_valid (s : string) : bool :=
  match s with
  | EmptyString => true
  | String a s1 =>
      if between 0 127 a then utf8_valid s1
      else
        match s1 with
        | EmptyString => false
        | String b s2 =>
            if between 194 223 a then between 128 191 b && utf8_valid s2
            else
              match s2 with
              | EmptyString => false
              | String c s3 =>
                  if between 224 239 a then
                    between (if between 224 224 a then 160 else 128)
                            (if between 237 237 a then 159 else 191) b
                    && between 128 191 c && utf8_valid s3
                  else
                    match s3 with
                    | EmptyString => false
                    | String d s4 =>
                        between 240 244 a
                        && between (if between 240 240 a then 144 else 128)
                                   (if between 244 244 a then 143 else 191) b
                        && between 128 191 c && between 128 191 d
                        && utf8_valid s4
                    end
              end
        end
  end.

(** [s.startswith(p)] *)
Fixpoint startswith (p s : string) : bool :=
  match p, s with
  | EmptyString, _ => true
  | String a p', String b s' => if Ascii.eqb a b then startswith p' s' else false
  | String _ _, EmptyString => false
  end.

(** [s.endswith(p)] *)
Definition endswith (p s : string) : bool :=
  startswith (String.rev p) (String.rev s).

(** [c in s] for a one-character [c] *)
Fixpoint contains (c : ascii) (s : string) : bool :=
  match s with
  | EmptyString => false
  | String b s' => if Ascii.eqb b c then true else contains c s'
  end.

(** [s.split(c)] for a one-character separator: empty fields are kept, so
    the result has one more element than [s] has separators. *)
Fixpoint split_go (c : ascii) (cur : string) (s : string) : list string :=
  match s with
  | EmptyString => [String.rev cur]
  | String b s' =>
      if Ascii.eqb b c then String.rev cur :: split_go c EmptyString s'
      else split_go c (String b cur) s'
  end.
Definition split (c : ascii) (s : string) : list string :=
  split_go c EmptyString s.

(** [s.split(c, 1)] when [c] occurs in [s]: the text before the first [c]
    and the text after it. *)
Fixpoint split_once (c : ascii) (s : string) : option (string * string) :=
  match s with
  | EmptyString => None
  | String b s' =>
      if Ascii.eqb b c then Some (EmptyString, s')
      else match split_once c s' with
           | Some (l, r) => Some (String b l, r)
           | None => None
           end
  end.

(** Iterating a text file opened with universal newlines: the lines of the
    content, each with its terminator; LF, CR and CR LF all end a line and
    are read as LF. *)
Fixpoint lines_go (cur : string) (s : string) : list string :=
  match s with
  | EmptyString =>
      match cur with EmptyString => [] | _ => [String.rev cur] end
  | String "010" s' =>
      String.rev (String "010" cur) :: lines_go EmptyString s'
  | String "013" (String "010" s') =>
      String.rev (String "010" cur) :: lines_go EmptyString s'
  | String "013" s' =>
      String.rev (String "010" cur) :: lines_go EmptyString s'
  | String b s' => lines_go (String b cur) s'
  end.
Definition lines (s : string) : list string := lines_go EmptyString s.

(** [sep.join(l)] *)
Fixpoint join (sep : string) (l : list string) : string :=
  match l with
  | [] => ""
  | [s] => s
  | s :: l' => s +:+ sep +:+ join sep l'
  end.

Definition TAB : string := String "009" "".
Definition LF : string := String "010" "".
(** U+00A0 (no-break space) and U+3000 (ideographic space). *)
Definition NBSP : string := String "194" (String "160" "").
Definition IDEOGRAPHIC_SPACE : string :=
  String "227" (String "128" (String "128" "")).

End pystr.


(** ** Paths *)

(** [os.path.join(a, b)] on POSIX: an absolute [b] replaces [a]; otherwise the
    two are joined with exactly one separator. *)
Definition os_path_join (a b : string) : string :=
  if pystr.startswith "/" b then b
  else if String.eqb a "" || pystr.endswith "/" a then a +:+ b
  else a +:+ "/" +:+ b.

(** [os.path.basename(p)]: what follows the last slash. *)
Definition os_path_basename (p : string) : string :=
  default p (last (pystr.split "/" p)).

Fixpoint drop_until_slash (s : string) : string :=
  match s with
  | EmptyString => EmptyString
  | String c s' => if Ascii.eqb c "/" then s else drop_until_slash s'
  end.

Fixpoint lstrip_slashes (s : string) : string :=
  match s with
  | String c s' => if Ascii.eqb c "/" then lstrip_slashes s' else s
  | EmptyString => EmptyString
  end.

(** [os.path.dirname(p)]: what precedes the last slash, without its
    trailing slashes unless it consists of slashes only; empty when [p] has
    no slash. *)
Definition os_path_dirname (p : string) : string :=
  let head := drop_until_slash (String.rev p) in
  let stripped := lstrip_slashes head in
  String.rev (if String.eqb stripped "" then head else stripped).

(** ** What both scripts share: configuration, files, exceptions, effects *)

(** The JSON configuration, sections [download_settings] and
    [download_options].  [max_workers] is optional: it is read with
    [.get("max_workers", 4)]. *)
Record config : Type := Config {
  output_dir : string;
  cookie_file : string;
  timeout : Z;
  max_retries : Z;
  max_workers : option Z;
  body_model : string;
  gender : string;
  datasets : list string
}.

(** A member of a tar archive, with whether [tar.extract] succeeds on it. *)
Record member : Type := Member { m_name : string; m_extracts : bool }.

(** What a path of the file system holds.  A text file carries what
    [json.load] makes of it ([None]: [JSONDecodeError]). *)
Inductive node : Type :=
  | TextFile (content : string) (json : option config)
  | Directory (entries : gset string)
  | Archive (members : list member)
  | Blob.

Abbreviation filesystem := (gmap string node).

Inductive exn : Type :=
  | SystemExit (code : Z)
  | ValueError
  | OSError.

(** A call returns or raises. *)
Inductive outcome (A : Type) : Type :=
  | Returned (a : A)
  | Raised (e : exn).
Arguments Returned {A} a.
Arguments Raised {A} e.

(** The exit status of the interpreter: [sys.exit(n)] gives [n], any other
    uncaught exception gives 1. *)
Definition exit_status (e : exn) : Z :=
  match e with
  | SystemExit code => code
  | ValueError | OSError => 1
  end.

(** A computation over a world [W] that emits events [E]: the final value,
    the world it leaves and the events in the order they happened. *)
Definition io (W E A : Type) : Type := W → A * W * list E.

Definition io_ret {W E A} (a : A) : io W E A := λ w, (a, w, []).
Definition io_bind {W E A B} (m : io W E A) (k : A → io W E B) : io W E B :=
  λ w, let '(a, w1, t1) := m w in
       let '(b, w2, t2) := k a w1 in
       (b, w2, t1 ++ t2).
Definition emit {W E} (e : E) : io W E unit := λ w, (tt, w, [e]).
Definition get_world {W E} : io W E W := λ w, (w, w, []).
Definition put_world {W E} (w' : W) : io W E unit := λ _, (tt, w', []).

Notation "x ←← m ;; k" := (io_bind m (λ x, k))
  (at level 100, m at next level, right associativity).
Notation "m ;;; k" := (io_bind m (λ _, k))
  (at level 100, right associativity).

(** [ThreadPoolExecutor]: the pool is known by the order in which the
    submitted futures complete (futures are numbered in submission order).
    [as_completed] yields every submitted future exactly once. *)
Definition completion_order (n : nat) (order : list nat) : Prop :=
  order ≡ₚ seq 0 n.

Inductive level : Type := Info | Warning | Error | Debug.

(** ** The downloader (download_amass.py) *)

Module Downloader.

Definition BASE_URL : string := "https://amass.is.tue.mpg.de/".
Definition DOWNLOAD_URL : string := "https://download.is.tue.mpg.de/download.php".
Definition USER_AGENT : string :=
  "Mozilla/5.0 (Windows NT 10.0; Win64; x64) AppleWebKit/537.36 (KHTML, like Gecko) Chrome/91.0.4472.124 Safari/537.36".

(** The keys of [DATASET_MAPPING] (every key is mapped to itself). *)
Definition DATASET_MAPPING : list string :=
  ["ACCAD"; "BMLhandball"; "BMLmovi"; "BMLrub"; "CMU"; "CNRS"; "DanceDB";
   "DFaust"; "EKUT"; "EyesJapanDataset"; "GRAB"; "HDM05"; "HUMAN4D";
   "HumanEva"; "KIT"; "MoSh"; "PosePrior"; "SFU"; "SOMA"; "SSM"; "TCDHands";
   "TotalCapture"; "Transitions"; "WEIZMANN"].

(** *** The remote endpoint *)

(** What happens to the body of a 200 response: it is streamed to the output
    file to the end, or an exception is raised on the way (bad
    content-length header, [os.makedirs] or [open] failing, the stream
    breaking), with the output file already created or not. *)
Inductive save_result : Type :=
  | Saved
  | SaveRaised (file_left : bool).

(** What one [session.get] gives: an exception (timeout, connection error),
    or a response with its status code. *)
Inductive http_outcome : Type :=
  | HttpRaised
  | HttpResponse (status : Z) (save : save_result).

(** The world of the downloader: the file system, and what the endpoint
    answers to the successive requests of the run (no answer left: the
    connection fails). *)
Record world : Type := World {
  w_fs : filesystem;
  w_server : list http_outcome
}.

(** *** Effects *)

Inductive msg : Type :=
  | MsgConfigLoaded (path : string)
  | MsgConfigMissing (path : string)
  | MsgConfigMalformed
  | MsgCookieFileMissing (path : string)
  | MsgCookie (name : string)
  | MsgCookiesLoaded (path : string) (count : nat)
  | MsgCookieError
  | MsgAttempt (attempt total : Z) (path : string)
  | MsgDownloaded (path : string)
  | MsgAuthFailed
  | MsgStatus (code : Z)
  | MsgDownloadError
  | MsgWait (secs : Z)
  | MsgRetriesExhausted (url : string)
  | MsgPrepare (dataset : string)
  | MsgBodyModel (body_model : string)
  | MsgGender (gender : string)
  | MsgSkip (path : string)
  | MsgUrl (url : string)
  | MsgCount (n : nat)
  | MsgWorkers (n : Z)
  | MsgProgress (i : Z) (n : nat) (dataset : string)
  | MsgTaskDone (completed : Z) (n : nat) (dataset : string) (success : bool)
  | MsgSummary (total success failed : nat)
  | MsgFailedItem (dataset : string)
  | MsgSuccess
  | MsgFailure.

Inductive event : Type :=
  | EvLog (lvl : level) (m : msg)
  | EvPrint (line : string)
  | EvGet (url : string) (cookies : gmap string string) (time_out : Z)
  | EvWrite (path : string)
  | EvSleep (secs : Z)
  | EvPool (workers : Z)
  | EvSubmit (dataset : string).

Abbreviation IO := (io world event).

Definition log (lvl : level) (m : msg) : IO unit := emit (EvLog lvl m).
Definition sleep (secs : Z) : IO unit := emit (EvSleep secs).

(** [os.path.exists] *)
Definition path_exists (path : string) : IO bool :=
  w ←← get_world ;; io_ret (bool_decide (is_Some (w_fs w !! path))).

(** *** The downloader object *)

Record session : Type := Session {
  s_cookies : gmap string string;
  s_headers : gmap string string
}.

Record downloader : Type := Self {
  d_config : config;
  d_session : session;
  d_cookies : gmap string string
}.

(** [AMassDownloader.load_config] *)
Definition load_config (config_path : string) : IO (outcome config) :=
  w ←← get_world ;;
  match w_fs w !! config_path with
  | Some (TextFile _ (Some cfg)) =>
      log Info (MsgConfigLoaded config_path) ;;; io_ret (Returned cfg)
  | None =>
      log Error (MsgConfigMissing config_path) ;;; io_ret (Raised (SystemExit 1))
  | Some (TextFile _ None) =>
      log Error MsgConfigMalformed ;;; io_ret (Raised (SystemExit 1))
  | Some _ => io_ret (Raised OSError)
  end.

(** [AMassDownloader.__init__] *)
Definition init (config_path : string) : IO (outcome downloader) :=
  r ←← load_config config_path ;;
  match r with
  | Returned cfg => io_ret (Returned (Self cfg (Session ∅ ∅) ∅))
  | Raised e => io_ret (Raised e)
  end.

(** The body of the loop of [load_cookies_from_file], on one line of the
    file. *)
Definition load_cookie_line (cookies : gmap string string) (raw : string)
    : IO (gmap string string) :=
  let line := pystr.strip raw in
  if String.eqb line "" || pystr.startswith "#" line then io_ret cookies
  else
    let parts := pystr.split "009" line in
    if 7 <=? Z.of_nat (length parts) then
      let name := default "" (parts !! 5%nat) in
      let value := default "" (parts !! 6%nat) in
      log Debug (MsgCookie name) ;;; io_ret (<[name := value]> cookies)
    else if pystr.contains "=" line then
      match pystr.split_once "=" line with
      | Some (name, value) =>
          io_ret (<[pystr.strip name := pystr.strip value]> cookies)
      | None => io_ret cookies
      end
    else io_ret cookies.

Fixpoint load_cookie_lines (cookies : gmap string string) (ls : list string)
    : IO (gmap string string) :=
  match ls with
  | [] => io_ret cookies
  | raw :: ls' =>
      cookies' ←← load_cookie_line cookies raw ;;
      load_cookie_lines cookies' ls'
  end.

(** [AMassDownloader.load_cookies_from_file].  The file is opened with
    [encoding="utf-8"]: when its bytes do not decode, reading it raises
    [UnicodeDecodeError], which the [except] clause catches as it does the
    errors of [open] on something that is not a file: the error is logged
    and [{}] returned, whatever was read before. *)
Definition load_cookies_from_file (cookie_file : string) : IO (gmap string string) :=
  w ←← get_world ;;
  match w_fs w !! cookie_file with
  | None =>
      log Warning (MsgCookieFileMissing cookie_file) ;;; io_ret ∅
  | Some (TextFile content _) =>
      if pystr.utf8_valid content then
        cookies ←← load_cookie_lines ∅ (pystr.lines content) ;;
        log Info (MsgCookiesLoaded cookie_file (size cookies)) ;;;
        io_ret cookies
      else
        log Error MsgCookieError ;;; io_ret ∅
  | Some _ =>
      log Error MsgCookieError ;;; io_ret ∅
  end.

(** [AMassDownloader.setup_session] *)
Definition setup_session (self : downloader) : IO downloader :=
  let cookie_file := cookie_file (d_config self) in
  cookies ←← load_cookies_from_file cookie_file ;;
  let jar :=
    map_fold (λ name value jar, <[name := value]> jar)
             (s_cookies (d_session self)) cookies in
  let headers := <["User-Agent" := USER_AGENT]> (s_headers (d_session self)) in
  io_ret (Self (d_config self) (Session jar headers) cookies).

(** [AMassDownloader.get_download_url]: the pair [(url, filename)]. *)
Definition get_download_url (dataset body_model gender : string) : string * string :=
  let model_dir :=
    if String.eqb body_model "SMPL-H" then "smplh"
    else if String.eqb body_model "SMPL-X" then "smplx"
    else "smplh" in
  let gender_dir :=
    if bool_decide (gender ∈ ["male"; "female"]) then "gender_specific"
    else "neutral" in
  let sfile :=
    "amass_per_dataset/" +:+ model_dir +:+ "/" +:+ gender_dir
      +:+ "/mosh_results/" +:+ dataset +:+ ".tar.bz2" in
  let url := DOWNLOAD_URL +:+ "?domain=amass&resume=1&sfile=" +:+ sfile in
  let filename := dataset +:+ "_" +:+ model_dir +:+ "_" +:+ gender +:+ ".tar.bz2" in
  (url, filename).

(** [range(n)] *)
Definition range (n : Z) : list Z := Z.of_nat <$> seq 0 (Z.to_nat n).

(** [self.session.get(url, stream=True, timeout=...)]: the next answer of
    the endpoint. *)
Definition session_get (sess : session) (url : string) (time_out : Z)
    : IO http_outcome :=
  λ w, (hd HttpRaised (w_server w),
        World (w_fs w) (tl (w_server w)),
        [EvGet url (s_cookies sess) time_out]).

(** The 200 branch of [download_file]: the body is written to
    [output_path]; [true] when the block ran to its end, [false] when it
    raised (the exception is caught by the [except] of the attempt).
    [os.makedirs(os.path.dirname(output_path), exist_ok=True)] raises when
    the path has no directory part: [os.makedirs("")] is an error. *)
Definition save_body (output_path : string) (sv : save_result) : IO bool :=
  if String.eqb (os_path_dirname output_path) "" then io_ret false
  else
    match sv with
    | Saved =>
        λ w, (true, World (<[output_path := Blob]> (w_fs w)) (w_server w),
              [EvWrite output_path])
    | SaveRaised true =>
        λ w, (false, World (<[output_path := Blob]> (w_fs w)) (w_server w),
              [EvWrite output_path])
    | SaveRaised false => io_ret false
    end.

(** The [try] block of one attempt of [download_file]: [Some b] when the
    method returns [b] from inside the loop, [None] when control reaches
    the wait that follows the block.  The display of the progress (a [tqdm]
    bar, or a percentage line) is left out. *)
Definition attempt_once (self : downloader) (url output_path : string)
    (max_retries attempt : Z) : IO (option bool) :=
  log Info (MsgAttempt (attempt + 1) max_retries output_path) ;;;
  response ←← session_get (d_session self) url (timeout (d_config self)) ;;
  match response with
  | HttpResponse status_code sv =>
      if status_code =? 200 then
        finished ←← save_body output_path sv ;;
        if finished : bool then
          log Info (MsgDownloaded output_path) ;;; io_ret (Some true)
        else
          log Error MsgDownloadError ;;; io_ret None
      else if (status_code =? 401) || (status_code =? 403) then
        log Error MsgAuthFailed ;;; io_ret (Some false)
      else
        log Warning (MsgStatus status_code) ;;; io_ret None
  | HttpRaised =>
      log Error MsgDownloadError ;;; io_ret None
  end.

(** The [for attempt in ...] loop of [download_file] over the attempts
    that remain. *)
Fixpoint download_attempts (self : downloader) (url output_path : string)
    (max_retries : Z) (attempts : list Z) : IO bool :=
  match attempts with
  | [] => log Error (MsgRetriesExhausted url) ;;; io_ret false
  | attempt :: rest =>
      r ←← attempt_once self url output_path max_retries attempt ;;
      match r with
      | Some b => io_ret b
      | None =>
          (if attempt <? max_retries - 1 then
             let wait_time := 5 * (attempt + 1) in
             log Info (MsgWait wait_time) ;;; sleep wait_time
           else io_ret tt) ;;;
          download_attempts self url output_path max_retries rest
      end
  end.

(** [AMassDownloader.download_file] *)
Definition download_file (self : downloader) (url output_path : string)
    (max_retries : Z) : IO bool :=
  download_attempts self url output_path max_retries (range max_retries).

(** [AMassDownloader.download_dataset] *)
Definition download_dataset (self : downloader) (dataset : string) : IO bool :=
  let body_model := body_model (d_config self) in
  let gender := gender (d_config self) in
  let output_dir := output_dir (d_config self) in
  log Info (MsgPrepare dataset) ;;;
  log Info (MsgBodyModel body_model) ;;;
  log Info (MsgGender gender) ;;;
  let '(download_url, filename) := get_download_url dataset body_model gender in
  let output_path := os_path_join output_dir filename in
  present ←← path_exists output_path ;;
  if present : bool then
    log Info (MsgSkip output_path) ;;; io_ret true
  else
    log Info (MsgUrl download_url) ;;;
    download_file self download_url output_path (max_retries (d_config self)).

(** The sequential branch of [download_all]:
    [for i, dataset in enumerate(datasets, 1)], with [n = len(datasets)]. *)
Fixpoint download_sequential (self : downloader) (n : nat) (i : Z)
    (rest : list string) (results : gmap string bool) : IO (gmap string bool) :=
  match rest with
  | [] => io_ret results
  | dataset :: rest' =>
      log Info (MsgProgress i n dataset) ;;;
      success ←← download_dataset self dataset ;;
      let results := <[dataset := success]> results in
      (if i <? Z.of_nat n then sleep 2 else io_ret tt) ;;;
      download_sequential self n (i + 1) rest' results
  end.

(** [executor.submit(self.download_dataset, dataset) for dataset in datasets] *)
Fixpoint submit_all (ds : list string) : IO unit :=
  match ds with
  | [] => io_ret tt
  | dataset :: ds' => emit (EvSubmit dataset) ;;; submit_all ds'
  end.

(** [for future in as_completed(future_to_dataset)]: the futures in the
    order they complete.  The task of a future is run to its end at the
    point where it completes; [download_dataset] catches every exception
    of its attempts, so [future.result()] returns.  The tasks of a real
    pool overlap: a pooled run is described here by one of its
    serialisations, and what is proved of pooled runs is what no
    interleaving of the tasks changes (which calls are made and with what
    arguments, the entries recorded, counts), not the order of the events
    of different tasks nor the worlds in between. *)
Fixpoint collect (self : downloader) (ds : list string) (order : list nat)
    (completed : Z) (results : gmap string bool) : IO (gmap string bool) :=
  match order with
  | [] => io_ret results
  | future :: order' =>
      match ds !! future with
      | Some dataset =>
          let completed := completed + 1 in
          success ←← download_dataset self dataset ;;
          log Info (MsgTaskDone completed (length ds) dataset success) ;;;
          collect self ds order' completed (<[dataset := success]> results)
      | None => collect self ds order' completed results
      end
  end.

(** [AMassDownloader.download_all].  [order] is the order in which the
    futures of the pool complete.  [ThreadPoolExecutor] raises [ValueError]
    for a size that is not positive. *)
Definition download_all (self : downloader) (order : list nat)
    : IO (outcome (gmap string bool)) :=
  let ds := datasets (d_config self) in
  let max_workers := default 4 (max_workers (d_config self)) in
  log Info (MsgCount (length ds)) ;;;
  log Info (MsgWorkers max_workers) ;;;
  if (max_workers =? 1) || (Z.of_nat (length ds) =? 1) then
    results ←← download_sequential self (length ds) 1 ds ∅ ;;
    io_ret (Returned results)
  else if max_workers <=? 0 then
    io_ret (Raised ValueError)
  else
    emit (EvPool max_workers) ;;;
    submit_all ds ;;;
    results ←← collect self ds order 0 ∅ ;;
    io_ret (Returned results).

(** [all(results.values())] *)
Definition all_values (results : gmap string bool) : bool :=
  bool_decide (map_Forall (λ _ v, v = true) results).

Fixpoint log_failed (items : list (string * bool)) : IO unit :=
  match items with
  | [] => io_ret tt
  | (dataset, success) :: items' =>
      (if success then io_ret tt else log Info (MsgFailedItem dataset)) ;;;
      log_failed items'
  end.

(** [AMassDownloader.print_summary] *)
Definition print_summary (results : gmap string bool) : IO unit :=
  let total := size results in
  let success := size (filter (λ kv, kv.2 = true) results) in
  let failed := (total - success)%nat in
  log Info (MsgSummary total success failed) ;;;
  if (0 <? failed)%nat then log_failed (map_to_list results) else io_ret tt.

(** The command line: [--config], [--dataset], [--list]. *)
Record args : Type := Args {
  a_config : string;
  a_dataset : option string;
  a_list : bool
}.

Fixpoint print_lines (ls : list string) : IO unit :=
  match ls with
  | [] => io_ret tt
  | l :: ls' => emit (EvPrint l) ;;; print_lines ls'
  end.

(** The download part of [main], once the downloader is set up. *)
Definition main_download (downloader : downloader) (a : args) (order : list nat)
    : IO Z :=
  match a_dataset a with
  | Some (String c s) =>
      success ←← download_dataset downloader (String c s) ;;
      if success : bool then log Info MsgSuccess ;;; io_ret 0
      else log Error MsgFailure ;;; io_ret 1
  | Some EmptyString | None =>
      r ←← download_all downloader order ;;
      match r with
      | Raised e => io_ret (exit_status e)
      | Returned results =>
          print_summary results ;;;
          if all_values results then io_ret 0 else io_ret 1
      end
  end.

(** [main]: the exit status of the process.  (The heading printed by
    [--list] is given in English.) *)
Definition main (a : args) (order : list nat) : IO Z :=
  if a_list a then
    emit (EvPrint "Available AMASS datasets:") ;;;
    print_lines ((λ dataset, "  - " +:+ dataset) <$> DATASET_MAPPING) ;;;
    io_ret 0
  else
    r ←← init (a_config a) ;;
    match r with
    | Raised e => io_ret (exit_status e)
    | Returned downloader =>
        downloader ←← setup_session downloader ;;
        main_download downloader a order
    end.

End Downloader.

(** ** The extractor (extract_amass.py) *)

(** [pathlib.PurePosixPath]: the root and the components of a path; empty
    components and [.] are dropped, exactly two leading slashes are kept. *)
Module pathlib.

Definition root (s : string) : string :=
  if pystr.startswith "//" s && negb (pystr.startswith "///" s) then "//"
  else if pystr.startswith "/" s then "/"
  else "".

Definition parts (s : string) : list string :=
  List.filter (λ p, negb (String.eqb p "" || String.eqb p "."))
              (pystr.split "/" s).

Fixpoint prefix_of_parts (ps : list string) : string :=
  match ps with
  | [] => ""
  | p :: ps' => p +:+ "/" +:+ prefix_of_parts ps'
  end.

(** [str(Path(dir) / name)] for an entry [name] of the directory (one
    component, never empty, [.] or [..]): the root, the components of
    [dir], then [name], joined by single slashes. *)
Definition child (dir name : string) : string :=
  root dir +:+ prefix_of_parts (parts dir) +:+ name.

End pathlib.

Module Extractor.

(** The world of the extractor: the file system; the paths the process is
    not allowed to create or remove; whether [tqdm] could be imported. *)
Record world : Type := World {
  w_fs : filesystem;
  w_protected : gset string;
  TQDM_AVAILABLE : bool
}.

Inductive msg : Type :=
  | MsgConfigLoaded (path : string)
  | MsgConfigMissing (path : string)
  | MsgConfigMalformed
  | MsgNoDirectory (input_dir : string)
  | MsgFound (n : nat)
  | MsgExtractStart (archive_name : string)
  | MsgExtractDone (archive_name : string)
  | MsgTarError (archive_path : string)
  | MsgExtractError (archive_path : string)
  | MsgNothingToDo
  | MsgProgress (i : Z) (n : nat)
  | MsgWorkers (n : Z)
  | MsgTaskDone (completed : Z) (n : nat) (archive_name : string) (success : bool)
  | MsgDeleted (path : string)
  | MsgDeleteFailed (path : string)
  | MsgSummary (total success failed : nat)
  | MsgFailedItem (archive_name : string)
  | MsgInputDir (path : string)
  | MsgOutputDir (path : string)
  | MsgFileMissing (path : string)
  | MsgSuccess
  | MsgFailure.

Inductive event : Type :=
  | EvLog (lvl : level) (m : msg)
  | EvProgress (archive_name : string) (i total : Z)
  | EvMakedirs (path : string)
  | EvExtract (output_dir member_name : string)
  | EvRemove (path : string) (removed : bool)
  | EvPool (workers : Z)
  | EvSubmit (archive : string).

Abbreviation IO := (io world event).

Definition log (lvl : level) (m : msg) : IO unit := emit (EvLog lvl m).

Definition set_fs (fs : filesystem) : IO unit :=
  λ w, (tt, World fs (w_protected w) (TQDM_AVAILABLE w), []).

(** [os.path.exists], [Path.exists] *)
Definition path_exists (path : string) : IO bool :=
  w ←← get_world ;; io_ret (bool_decide (is_Some (w_fs w !! path))).

(** [os.makedirs(path, exist_ok=True)]: [false] when it raises (the path is
    empty, is not a directory, or may not be created). *)
Definition makedirs (path : string) : IO bool :=
  w ←← get_world ;;
  if String.eqb path "" then io_ret false
  else
    match w_fs w !! path with
    | Some (Directory _) => io_ret true
    | Some _ => io_ret false
    | None =>
        if bool_decide (path ∈ w_protected w) then io_ret false
        else
          emit (EvMakedirs path) ;;;
          set_fs (<[path := Directory ∅]> (w_fs w)) ;;;
          io_ret true
    end.

(** [os.remove(path)]: [false] when it raises. *)
Definition os_remove (path : string) : IO bool :=
  w ←← get_world ;;
  match w_fs w !! path with
  | None | Some (Directory _) => emit (EvRemove path false) ;;; io_ret false
  | Some _ =>
      if bool_decide (path ∈ w_protected w) then
        emit (EvRemove path false) ;;; io_ret false
      else
        emit (EvRemove path true) ;;;
        set_fs (delete path (w_fs w)) ;;;
        io_ret true
  end.

(** [tar.extract(member, path=output_dir)]: [false] when it raises. *)
Definition tar_extract (m : member) (output_dir : string) : IO bool :=
  if m_extracts m then
    w ←← get_world ;;
    emit (EvExtract output_dir (m_name m)) ;;;
    set_fs (<[os_path_join output_dir (m_name m) := Blob]> (w_fs w)) ;;;
    io_ret true
  else io_ret false.

(** [AMassExtractor.load_config] *)
Definition load_config (config_path : string) : IO (outcome config) :=
  w ←← get_world ;;
  match w_fs w !! config_path with
  | Some (TextFile _ (Some cfg)) =>
      log Info (MsgConfigLoaded config_path) ;;; io_ret (Returned cfg)
  | None =>
      log Error (MsgConfigMissing config_path) ;;; io_ret (Raised (SystemExit 1))
  | Some (TextFile _ None) =>
      log Error MsgConfigMalformed ;;; io_ret (Raised (SystemExit 1))
  | Some _ => io_ret (Raised OSError)
  end.

(** [input_path.glob("*.tar.bz2")]: the entries of the directory whose name
    ends in [.tar.bz2]; nothing when the path is not a directory. *)
Definition glob_tar_bz2 (fs : filesystem) (input_dir : string) : list string :=
  match fs !! input_dir with
  | Some (Directory entries) =>
      List.filter (pystr.endswith ".tar.bz2") (elements entries)
  | _ => []
  end.

(** [AMassExtractor.find_archives] *)
Definition find_archives (input_dir : string) : IO (list string) :=
  present ←← path_exists input_dir ;;
  if negb present then
    log Error (MsgNoDirectory input_dir) ;;; io_ret []
  else
    w ←← get_world ;;
    let archives := glob_tar_bz2 (w_fs w) input_dir in
    log Info (MsgFound (length archives)) ;;;
    io_ret (pathlib.child input_dir <$> archives).

(** The two member loops of [extract_archive] (with and without [tqdm]),
    from member number [i] on: [false] when an extraction raises. *)
Fixpoint extract_members (tqdm : bool) (archive_name output_dir : string)
    (total_members : Z) (i : Z) (members : list member) : IO bool :=
  match members with
  | [] => io_ret true
  | m :: members' =>
      extracted ←← tar_extract m output_dir ;;
      if extracted : bool then
        (if tqdm then io_ret tt
         else if (i mod 100 =? 0) || (i =? total_members)
              then emit (EvProgress archive_name i total_members)
              else io_ret tt) ;;;
        extract_members tqdm archive_name output_dir total_members (i + 1) members'
      else io_ret false
  end.

(** [AMassExtractor.extract_archive]: every exception of the [try] block
    ends in one of the two [except] clauses, which log and return
    [False]. *)
Definition extract_archive (archive_path output_dir : string) : IO bool :=
  let archive_name := os_path_basename archive_path in
  log Info (MsgExtractStart archive_name) ;;;
  made ←← makedirs output_dir ;;
  if made : bool then
    w ←← get_world ;;
    match w_fs w !! archive_path with
    | Some (Archive members) =>
        let total_members := Z.of_nat (length members) in
        finished ←← extract_members (TQDM_AVAILABLE w) archive_name output_dir
                                    total_members 1 members ;;
        if finished : bool then
          log Info (MsgExtractDone archive_name) ;;; io_ret true
        else
          log Error (MsgExtractError archive_path) ;;; io_ret false
    | Some _ => log Error (MsgTarError archive_path) ;;; io_ret false
    | None => log Error (MsgExtractError archive_path) ;;; io_ret false
    end
  else
    log Error (MsgExtractError archive_path) ;;; io_ret false.

(** The deletion of the source archive in [extract_all]:
    [try: os.remove(archive) ... except Exception: logger.error(...)]. *)
Definition remove_source (archive : string) : IO unit :=
  removed ←← os_remove archive ;;
  if removed : bool then log Info (MsgDeleted archive)
  else log Error (MsgDeleteFailed archive).

(** The sequential branch of [extract_all]:
    [for i, archive in enumerate(archives, 1)], with [n = len(archives)]. *)
Fixpoint extract_sequential (output_dir : string) (delete_after_extract : bool)
    (n : nat) (i : Z) (rest : list string) (results : gmap string bool)
    : IO (gmap string bool) :=
  match rest with
  | [] => io_ret results
  | archive :: rest' =>
      log Info (MsgProgress i n) ;;;
      success ←← extract_archive archive output_dir ;;
      let results := <[archive := success]> results in
      (if success && delete_after_extract then remove_source archive
       else io_ret tt) ;;;
      extract_sequential output_dir delete_after_extract n (i + 1) rest' results
  end.

Fixpoint submit_all (archives : list string) : IO unit :=
  match archives with
  | [] => io_ret tt
  | archive :: archives' => emit (EvSubmit archive) ;;; submit_all archives'
  end.

(** [for future in as_completed(future_to_archive)]: the futures in the
    order they complete, the task of a future being run to its end at the
    point where it completes.  [extract_archive] catches every exception,
    so [future.result()] returns.  The tasks of a real pool overlap, and
    the removals run in the main thread while other tasks extract: a pooled
    run is described here by one of its serialisations, and what is proved
    of pooled runs is what no interleaving of the tasks changes (the
    entries recorded, which archives fail and which are removed), not the
    order of the events of different tasks nor the worlds in between. *)
Fixpoint collect (output_dir : string) (delete_after_extract : bool)
    (archives : list string) (order : list nat) (completed : Z)
    (results : gmap string bool) : IO (gmap string bool) :=
  match order with
  | [] => io_ret results
  | future :: order' =>
      match archives !! future with
      | Some archive =>
          let completed := completed + 1 in
          success ←← extract_archive archive output_dir ;;
          let results := <[archive := success]> results in
          log Info (MsgTaskDone completed (length archives)
                                (os_path_basename archive) success) ;;;
          (if success && delete_after_extract then remove_source archive
           else io_ret tt) ;;;
          collect output_dir delete_after_extract archives order' completed results
      | None =>
          collect output_dir delete_after_extract archives order' completed results
      end
  end.

(** [AMassExtractor.extract_all].  [order] is the order in which the
    futures of the pool complete; [ThreadPoolExecutor] raises [ValueError]
    for a size that is not positive. *)
Definition extract_all (input_dir output_dir : string) (max_workers : Z)
    (delete_after_extract : bool) (order : list nat)
    : IO (outcome (gmap string bool)) :=
  archives ←← find_archives input_dir ;;
  match archives with
  | [] => log Warning MsgNothingToDo ;;; io_ret (Returned ∅)
  | _ :: _ =>
      if max_workers =? 1 then
        results ←← extract_sequential output_dir delete_after_extract
                                      (length archives) 1 archives ∅ ;;
        io_ret (Returned results)
      else
        log Info (MsgWorkers max_workers) ;;;
        if max_workers <=? 0 then io_ret (Raised ValueError)
        else
          emit (EvPool max_workers) ;;;
          submit_all archives ;;;
          results ←← collect output_dir delete_after_extract archives order 0 ∅ ;;
          io_ret (Returned results)
  end.

(** [all(results.values())] *)
Definition all_values (results : gmap string bool) : bool :=
  bool_decide (map_Forall (λ _ v, v = true) results).

Fixpoint log_failed (items : list (string * bool)) : IO unit :=
  match items with
  | [] => io_ret tt
  | (archive, success) :: items' =>
      (if success then io_ret tt
       else log Info (MsgFailedItem (os_path_basename archive))) ;;;
      log_failed items'
  end.

(** [AMassExtractor.print_summary] *)
Definition print_summary (results : gmap string bool) : IO unit :=
  let total := size results in
  let success := size (filter (λ kv, kv.2 = true) results) in
  let failed := (total - success)%nat in
  log Info (MsgSummary total success failed) ;;;
  if (0 <? failed)%nat then log_failed (map_to_list results) else io_ret tt.

(** The command line: [--config], [--input], [--output], [--workers],
    [--delete], [--file]. *)
Record args : Type := Args {
  a_config : string;
  a_input : option string;
  a_output : option string;
  a_workers : Z;
  a_delete : bool;
  a_file : option string
}.

(** The truth value of an optional string option: absent and empty are
    both false. *)
Definition given (o : option string) : option string :=
  match o with
  | Some (String c s) => Some (String c s)
  | Some EmptyString | None => None
  end.

(** [main]: the exit status of the process. *)
Definition main (a : args) (order : list nat) : IO Z :=
  r ←← load_config (a_config a) ;;
  match r with
  | Raised e => io_ret (exit_status e)
  | Returned cfg =>
      let input_dir := default (output_dir cfg) (given (a_input a)) in
      let output_dir :=
        default (os_path_join (output_dir cfg) "extracted") (given (a_output a)) in
      log Info (MsgInputDir input_dir) ;;;
      log Info (MsgOutputDir output_dir) ;;;
      match given (a_file a) with
      | Some file =>
          present ←← path_exists file ;;
          if negb present then
            log Error (MsgFileMissing file) ;;; io_ret 1
          else
            success ←← extract_archive file output_dir ;;
            if success : bool then
              log Info MsgSuccess ;;;
              (if a_delete a then remove_source file else io_ret tt) ;;;
              io_ret 0
            else
              log Error MsgFailure ;;; io_ret 1
      | None =>
          r ←← extract_all input_dir output_dir (a_workers a) (a_delete a) order ;;
          match r with
          | Raised e => io_ret (exit_status e)
          | Returned results =>
              print_summary results ;;;
              if all_values results then io_ret 0 else io_ret 1
          end
      end
  end.

End Extractor.

(** ** What is observed of a run of the downloader *)

Module DownloadTrace.
Import Downloader.

(** The delays of the run, in order: the arguments of [time.sleep]. *)
Definition sleeps (tr : list event) : list Z :=
  omap (λ e, match e with EvSleep secs => Some secs | _ => None end) tr.

(** The requests of the run, in order: the urls given to [session.get]. *)
Definition requests (tr : list event) : list string :=
  omap (λ e, match e with EvGet url _ _ => Some url | _ => None end) tr.

(** The files opened for writing, in order. *)
Definition writes (tr : list event) : list string :=
  omap (λ e, match e with EvWrite path => Some path | _ => None end) tr.

(** The delays of a linear back-off after [n] failed attempts numbered from
    [first]: [5 * first], [5 * (first + 1)], ... *)
Definition backoff (first n : nat) : list Z :=
  (λ i : nat, 5 * Z.of_nat i) <$> seq first n.

(** An attempt for [path] after which [download_file] goes on to the next
    one: the request raised, the status is none of 200, 401 and 403, or the
    status is 200 and saving the body raised (always so when [path] has no
    directory part). *)
Inductive failed_attempt (path : string) : http_outcome → Prop :=
  | failed_exception :
      failed_attempt path HttpRaised
  | failed_status status sv :
      status ≠ 200 → status ≠ 401 → status ≠ 403 →
      failed_attempt path (HttpResponse status sv)
  | failed_save file_left :
      failed_attempt path (HttpResponse 200 (SaveRaised file_left))
  | failed_makedirs sv :
      os_path_dirname path = "" →
      failed_attempt path (HttpResponse 200 sv).

(** What [download_file] does with the answer to one request for [path]:
    [Some true] (return success), [Some false] (return failure at once),
    [None] (go on to the wait and the next attempt). *)
Definition verdict (path : string) (ans : http_outcome) : option bool :=
  match ans with
  | HttpRaised => None
  | HttpResponse status sv =>
      if status =? 200 then
        if String.eqb (os_path_dirname path) "" then None
        else match sv with Saved => Some true | SaveRaised _ => None end
      else if (status =? 401) || (status =? 403) then Some false
      else None
  end.

(** The requests and the delays of a run, in the order they happened. *)
Inductive step : Type :=
  | Request (url : string)
  | Delay (secs : Z).

Definition timeline (tr : list event) : list step :=
  omap (λ e, match e with
             | EvGet url _ _ => Some (Request url)
             | EvSleep secs => Some (Delay secs)
             | _ => None
             end) tr.

(** [n] requests for [url] with a delay of [5 * i], [5 * (i + 1)], ...
    seconds between two consecutive ones, and none after the last. *)
Fixpoint retry_timeline (url : string) (i n : nat) : list step :=
  match n with
  | O => []
  | S n' =>
      Request url ::
      match n' with
      | O => []
      | S _ => Delay (5 * Z.of_nat i) :: retry_timeline url (S i) n'
      end
  end.

(** A downloader to run the examples with. *)
Definition example_config : config :=
  Config "out" "cookies.txt" 30 3 None "SMPL-X" "male" ["CMU"; "KIT"].
Definition example_self : downloader :=
  Self example_config (Session ∅ ∅) ∅.

(** The file [download_dataset] writes to: [os.path.join(output_dir, filename)]. *)
Definition destination (cfg : config) (dataset : string) : string :=
  os_path_join (output_dir cfg)
    (get_download_url dataset (body_model cfg) (gender cfg)).2.

(** A world in which the archive of CMU has been downloaded already. *)
Definition example_world : world :=
  World {[ "out/CMU_smplx_male.tar.bz2" := Blob ]} [HttpResponse 200 Saved].

(** Lines of a cookie file: a cookie-jar line, the same with an empty value,
    and a small file. *)
Definition netscape_example : string :=
  pystr.join pystr.TAB ["x"; "TRUE"; "/"; "FALSE"; "0"; "SESSION"; "abc123"].
Definition empty_value_example : string :=
  pystr.join pystr.TAB ["x"; "TRUE"; "/"; "FALSE"; "0"; "EMPTY"; ""].
Definition cookies_example_file : string :=
  "# Netscape HTTP Cookie File" +:+ pystr.LF +:+ netscape_example +:+ pystr.LF
    +:+ pystr.LF +:+ "FOO=bar" +:+ pystr.LF.

(** A world with a configuration file and no cookie file. *)
Definition example_no_cookies : world :=
  World {[ "config.json" := TextFile "{}" (Some example_config) ]}
        [HttpResponse 200 Saved].

(** A call of [download_dataset]: the dataset, the value returned and the
    events of the call. *)
Definition call : Type := string * bool * list event.

(** The calls of a batch, one after the other, each in the world the
    previous one left. *)
Inductive downloads (self : downloader) : world → list call → world → Prop :=
  | downloads_nil w : downloads self w [] w
  | downloads_cons w dataset success t w1 calls w2 :
      download_dataset self dataset w = (success, w1, t) →
      downloads self w1 calls w2 →
      downloads self w ((dataset, success, t) :: calls) w2.

(** [results[dataset] = success] for the calls, in order. *)
Definition tally (results : gmap string bool) (calls : list call)
    : gmap string bool :=
  foldl (λ m c, <[c.1.1 := c.1.2]> m) results calls.

(** The trace of the sequential branch: for call number [i] of [n] the
    progress line, the events of the call and, unless it is the last, a
    pause of 2 seconds. *)
Fixpoint sequential_trace (n : nat) (i : Z) (calls : list call) : list event :=
  match calls with
  | [] => []
  | (dataset, _, t) :: calls' =>
      EvLog Info (MsgProgress i n dataset) :: t
        ++ match calls' with [] => [] | _ :: _ => [EvSleep 2] end
        ++ sequential_trace n (i + 1) calls'
  end.

(** The trace of the pooled branch after the submissions: the events of
    each call, then the line that reports its completion. *)
Fixpoint pooled_trace (n : nat) (completed : Z) (calls : list call) : list event :=
  match calls with
  | [] => []
  | (dataset, success, t) :: calls' =>
      t ++ EvLog Info (MsgTaskDone (completed + 1) n dataset success)
        :: pooled_trace n (completed + 1) calls'
  end.

(** The downloads started and the 2-second pauses of a run, in order. *)
Inductive batch_step : Type :=
  | Start (dataset : string)
  | Pause.
Definition batch_timeline (tr : list event) : list batch_step :=
  omap (λ e, match e with
             | EvLog Info (MsgPrepare dataset) => Some (Start dataset)
             | EvSleep secs => if secs =? 2 then Some Pause else None
             | _ => None
             end) tr.

(** [x1, sep, x2, sep, ..., xn] *)
Fixpoint separated {A} (sep : A) (l : list A) : list A :=
  match l with
  | [] => []
  | x :: l' => x :: match l' with [] => [] | _ :: _ => sep :: separated sep l' end
  end.

(** A downloader configured with a pool of size 0. *)
Definition example_zero_workers : downloader :=
  Self (Config "out" "cookies.txt" 30 3 (Some 0) "SMPL-X" "male" ["CMU"; "KIT"])
       (Session ∅ ∅) ∅.

(** A downloader configured with one worker. *)
Definition example_one_worker : downloader :=
  Self (Config "out" "cookies.txt" 30 3 (Some 1) "SMPL-X" "male" ["CMU"; "KIT"])
       (Session ∅ ∅) ∅.

End DownloadTrace.

(** ** What is observed of a run of the extractor *)

Module ExtractTrace.
Import Extractor.

(** The events a batch is judged by: an extraction that failed (one of the
    two error lines of [extract_archive]), a call of [os.remove] with its
    outcome, and the error line logged when [os.remove] raised. *)
Inductive observation : Type :=
  | Failed (archive : string)
  | Removal (archive : string) (removed : bool)
  | RemovalError (archive : string).

Definition observe (e : event) : option observation :=
  match e with
  | EvLog Error (MsgTarError p) | EvLog Error (MsgExtractError p) => Some (Failed p)
  | EvRemove p removed => Some (Removal p removed)
  | EvLog Error (MsgDeleteFailed p) => Some (RemovalError p)
  | _ => None
  end.
(** The observations of a run, in order. *)
Definition observed (tr : list event) : list observation := omap observe tr.

(** The archives whose extraction failed; the calls of [os.remove]; the
    archives whose removal was logged as failed. *)
Definition failures (tr : list event) : list string :=
  omap (λ o, match o with Failed p => Some p | _ => None end) (observed tr).
Definition removals (tr : list event) : list (string * bool) :=
  omap (λ o, match o with Removal p ok => Some (p, ok) | _ => None end) (observed tr).
Definition removal_errors (tr : list event) : list string :=
  omap (λ o, match o with RemovalError p => Some p | _ => None end) (observed tr).

(** One archive of a batch: whether [extract_archive] returned [True], and
    the outcome of [os.remove] when it was called. *)
Record visit : Type := Visit {
  v_archive : string;
  v_success : bool;
  v_removed : option bool
}.
(** What a visit shows in the trace. *)
Definition visit_observed (v : visit) : list observation :=
  if v_success v then
    match v_removed v with
    | None => []
    | Some true => [Removal (v_archive v) true]
    | Some false => [Removal (v_archive v) false; RemovalError (v_archive v)]
    end
  else [Failed (v_archive v)].
(** The source is removed exactly after a successful extraction with the
    delete option set. *)
Definition visit_ok (delete_after_extract : bool) (v : visit) : Prop :=
  is_Some (v_removed v) ↔ v_success v = true ∧ delete_after_extract = true.
(** [results[archive] = success] for the visits, in order. *)
Definition record (results : gmap string bool) (visits : list visit)
    : gmap string bool :=
  foldl (λ m v, <[v_archive v := v_success v]> m) results visits.

(** A batch of three archives, the second of which is not a tar archive;
    the third may not be removed. *)
Definition example_extract_config : config :=
  Config "in" "cookies.txt" 30 3 None "SMPL-X" "male" ["CMU"].
Definition example_batch : world :=
  World
    (<["config.json" := TextFile "{}" (Some example_extract_config)]>
     (<["in" := Directory
                  (list_to_set ["a.tar.bz2"; "b.tar.bz2"; "c.tar.bz2"; "notes.txt"])]>
     (<["in/a.tar.bz2" := Archive [Member "a/x.npz" true]]>
     (<["in/b.tar.bz2" := Blob]>
     (<["in/c.tar.bz2" := Archive [Member "c/y.npz" true; Member "c/z.npz" true]]>
      ∅)))))
    {[ "in/c.tar.bz2" ]}
    true.

End ExtractTrace.
(** * What the runs do, beyond what is observed above *)

(** ** Runs of the downloader *)

Module DownloadRun.
Import Downloader DownloadTrace.

(** The requests of a run with all that [session.get] is given: the url,
    the cookies of the session and the timeout. *)
Definition gets (tr : list event) : list (string * gmap string string * Z) :=
  omap (λ e, match e with EvGet url c t => Some (url, c, t) | _ => None end) tr.

(** What the file system is after a run that opened the files [ws] for
    writing, all of them being [path]: the path holds a file when something
    was written. *)
Definition written (path : string) (fs : filesystem) (ws : list string)
    : filesystem :=
  match ws with [] => fs | _ :: _ => <[path := Blob]> fs end.

(** The answer to request number [i] (from 0) of a run: the connection
    fails when the endpoint has nothing left. *)
Definition answer (srv : list http_outcome) (i : nat) : http_outcome :=
  default HttpRaised (srv !! i).

(** A trace made of log lines only. *)
Definition logs_only (tr : list event) : Prop :=
  Forall (λ e, ∃ lvl m, e = EvLog lvl m) tr.

(** The summary lines of a run: total, successes, failures. *)
Definition summaries (tr : list event) : list (nat * nat * nat) :=
  omap (λ e, match e with
             | EvLog Info (MsgSummary total success failed) =>
                 Some (total, success, failed)
             | _ => None
             end) tr.

(** The datasets listed as failed under the summary. *)
Definition failed_items (tr : list event) : list string :=
  omap (λ e, match e with
             | EvLog Info (MsgFailedItem dataset) => Some dataset
             | _ => None
             end) tr.

(** The url [download_dataset] asks for. *)
Definition url_of (cfg : config) (dataset : string) : string :=
  (get_download_url dataset (body_model cfg) (gender cfg)).1.

End DownloadRun.

(** ** Runs of the extractor *)

Module ExtractRun.
Import Extractor ExtractTrace.

(** The members extracted in a run, in order, each with the directory it
    was extracted to. *)
Definition extractions (tr : list event) : list (string * string) :=
  omap (λ e, match e with EvExtract out name => Some (out, name) | _ => None end) tr.

(** The progress lines printed without [tqdm]: archive name, member number
    and number of members. *)
Definition progress (tr : list event) : list (string * Z * Z) :=
  omap (λ e, match e with
             | EvProgress name i total => Some (name, i, total)
             | _ => None
             end) tr.

(** The members of an archive up to the first one whose extraction
    raises. *)
Fixpoint extracted (members : list member) : list member :=
  match members with
  | [] => []
  | m :: members' => if m_extracts m then m :: extracted members' else []
  end.

(** The file system after the members [ms] were extracted to [out]. *)
Definition unpacked (out : string) (fs : filesystem) (ms : list member)
    : filesystem :=
  foldl (λ fs m, <[os_path_join out (m_name m) := Blob]> fs) fs ms.

(** The member numbers at which a progress line is due. *)
Definition due (total : Z) (i : Z) : Prop := i mod 100 = 0 ∨ i = total.

#[export] Instance due_dec total i : Decision (due total i).
Proof. unfold due. apply _. Defined.





End ExtractRun.

(** * Properties *)

(** ** Running the monad, strings *)

Ltac io_run :=
  repeat progress
    (unfold io_bind, io_ret, emit, get_world, put_world; cbv beta iota).

Lemma string_app_nil_l s : "" +:+ s = s.
Proof. reflexivity. Qed.

Lemma string_app_cons a l s : String a l +:+ s = String a (l +:+ s).
Proof. reflexivity. Qed.

Lemma io_bind_emit {W E B} (e : E) (k : unit → io W E B) w :
  io_bind (emit e) k w = let '(b, w2, t2) := k tt w in (b, w2, e :: t2).
Proof. unfold io_bind, emit. by destruct (k tt w) as [[? ?] ?]. Qed.

(** ** Completion orders *)

Lemma omap_lookup_seq {A} (l : list A) : ∀ n a,
  (a + n ≤ length l)%nat → omap (l !!.) (seq a n) = take n (drop a l).
Proof.
  induction n as [|n IH]; intros a Hle; [done|].
  destruct (lookup_lt_is_Some_2 l a) as [x Hx]; [lia|].
  simpl. rewrite Hx. simpl. rewrite IH by lia.
  by rewrite (drop_S _ _ _ Hx).
Qed.

Lemma completion_order_items {A} (l : list A) order :
  completion_order (length l) order → omap (l !!.) order ≡ₚ l.
Proof.
  unfold completion_order. intros ->.
  rewrite omap_lookup_seq by lia. by rewrite drop_0, firstn_all.
Qed.

(** ** The Python string and path functions *)

Section python.

Lemma string_app_nil_r s : s +:+ "" = s.
Proof. induction s as [|a s IH]; [done|]. by rewrite string_app_cons, IH. Qed.

Lemma string_app_assoc s t u : (s +:+ t) +:+ u = s +:+ t +:+ u.
Proof. induction s as [|a s IH]; [done|]. by rewrite !string_app_cons, IH. Qed.

Lemma rev_app_append s : ∀ t, String.rev_app s t = String.rev s +:+ t.
Proof.
  unfold String.rev. induction s as [|a s IH]; intros t; [done|].
  simpl. rewrite IH, (IH (String a "")). by rewrite string_app_assoc.
Qed.

Lemma rev_cons a s : String.rev (String a s) = String.rev s +:+ String a "".
Proof. unfold String.rev. simpl. apply rev_app_append. Qed.

Lemma rev_append s t : String.rev (s +:+ t) = String.rev t +:+ String.rev s.
Proof.
  induction s as [|a s IH].
  - by rewrite string_app_nil_l, string_app_nil_r.
  - by rewrite string_app_cons, !rev_cons, IH, string_app_assoc.
Qed.

Lemma rev_involutive s : String.rev (String.rev s) = s.
Proof.
  induction s as [|a s IH]; [done|]. by rewrite rev_cons, rev_append, IH.
Qed.

Lemma split_go_free c f : ∀ cur s,
  pystr.contains c f = false →
  pystr.split_go c cur (f +:+ s) = pystr.split_go c (String.rev_app f cur) s.
Proof.
  induction f as [|b f IH]; intros cur s Hf; [done|].
  simpl in Hf. destruct (Ascii.eqb b c) eqn:Hbc; [done|].
  rewrite string_app_cons. simpl. rewrite Hbc. by apply IH.
Qed.

Lemma split_go_sep c cur s :
  pystr.split_go c cur (String c s)
    = String.rev cur :: pystr.split_go c "" s.
Proof. simpl. by rewrite Ascii.eqb_refl. Qed.

Lemma split_go_join c fields : ∀ cur f,
  Forall (λ f, pystr.contains c f = false) (f :: fields) →
  pystr.split_go c cur (pystr.join (String c "") (f :: fields))
    = (String.rev cur +:+ f) :: fields.
Proof.
  induction fields as [|g fields IH]; intros cur f Hfree.
  - apply Forall_cons in Hfree as [Hf _]. simpl.
    rewrite <-(string_app_nil_r f) at 1. rewrite split_go_free by done.
    simpl. by rewrite rev_app_append, rev_append, rev_involutive.
  - apply Forall_cons in Hfree as [Hf Hfree].
    change (pystr.join (String c "") (f :: g :: fields))
      with (f +:+ String c "" +:+ pystr.join (String c "") (g :: fields)).
    rewrite split_go_free by done.
    rewrite string_app_cons, string_app_nil_l, split_go_sep.
    rewrite IH by done. rewrite rev_app_append, rev_append, rev_involutive.
    done.
Qed.

(** [split] undoes [join]: the fields of [c.join(fields)] are [fields] when
    no field holds the separator. *)
Lemma split_join c fields :
  fields ≠ [] →
  Forall (λ f, pystr.contains c f = false) fields →
  pystr.split c (pystr.join (String c "") fields) = fields.
Proof.
  destruct fields as [|f fields]; [done|]. intros _ Hfree.
  unfold pystr.split. by rewrite split_go_join.
Qed.

(** The functions on the inputs the scripts meet. *)
Example strip_example :
  pystr.strip ("  FOO = bar " +:+ pystr.TAB +:+ pystr.LF) = "FOO = bar"
  ∧ pystr.strip (pystr.NBSP +:+ "FOO=bar" +:+ pystr.IDEOGRAPHIC_SPACE +:+ pystr.LF)
    = "FOO=bar"
  ∧ pystr.strip ("a" +:+ pystr.NBSP +:+ "b") = "a" +:+ pystr.NBSP +:+ "b".
Proof. done. Qed.

Example utf8_valid_examples :
  pystr.utf8_valid ("FOO=bar" +:+ pystr.NBSP +:+ pystr.LF) = true
  ∧ pystr.utf8_valid (String "255" "FOO=bar") = false
  ∧ pystr.utf8_valid (String "194" "") = false
  ∧ pystr.utf8_valid (String "192" (String "128" "")) = false
  ∧ pystr.utf8_valid (String "237" (String "160" (String "128" ""))) = false
  ∧ pystr.utf8_valid
      (String "244" (String "143" (String "191" (String "191" "")))) = true
  ∧ pystr.utf8_valid
      (String "244" (String "144" (String "128" (String "128" "")))) = false.
Proof. by vm_compute. Qed.

Example split_example :
  pystr.split "009" ("a" +:+ pystr.TAB +:+ pystr.TAB +:+ "b") = ["a"; ""; "b"].
Proof. reflexivity. Qed.

Example lines_example :
  pystr.lines ("a" +:+ pystr.LF +:+ String "013" pystr.LF +:+ "b")
    = ["a" +:+ pystr.LF; pystr.LF; "b"].
Proof. reflexivity. Qed.

Example os_path_join_examples :
  os_path_join "out" "f.tar.bz2" = "out/f.tar.bz2"
  ∧ os_path_join "out/" "f.tar.bz2" = "out/f.tar.bz2"
  ∧ os_path_join "" "f.tar.bz2" = "f.tar.bz2"
  ∧ os_path_join "out" "/abs/f" = "/abs/f".
Proof. done. Qed.

Example os_path_dirname_examples :
  os_path_dirname "out/f.tar.bz2" = "out"
  ∧ os_path_dirname "f.tar.bz2" = ""
  ∧ os_path_dirname "/f" = "/"
  ∧ os_path_dirname "a//b/f" = "a//b"
  ∧ os_path_dirname "a///f" = "a".
Proof. done. Qed.

Example os_path_basename_examples :
  os_path_basename "in/a.tar.bz2" = "a.tar.bz2"
  ∧ os_path_basename "a.tar.bz2" = "a.tar.bz2"
  ∧ os_path_basename "in/" = "".
Proof. done. Qed.

Example pathlib_child_examples :
  pathlib.child "in" "a.tar.bz2" = "in/a.tar.bz2"
  ∧ pathlib.child "./in//sub/" "a.tar.bz2" = "in/sub/a.tar.bz2"
  ∧ pathlib.child "." "a.tar.bz2" = "a.tar.bz2"
  ∧ pathlib.child "/" "a.tar.bz2" = "/a.tar.bz2"
  ∧ pathlib.child "//srv/x" "a.tar.bz2" = "//srv/x/a.tar.bz2".
Proof. done. Qed.

Example endswith_examples :
  pystr.endswith ".tar.bz2" "a.tar.bz2" = true
  ∧ pystr.endswith ".tar.bz2" ".tar.bz2" = true
  ∧ pystr.endswith ".tar.bz2" "a.tar.gz" = false
  ∧ pystr.endswith ".tar.bz2" "a.tar.bz2.part" = false.
Proof. done. Qed.

End python.


(** ** URL construction *)

(** C1. For every dataset, body model and gender, [get_download_url] is the
    pair made of the download endpoint with the query
    [domain=amass&resume=1&sfile=amass_per_dataset/<model_dir>/<gender_dir>/mosh_results/<dataset>.tar.bz2]
    and of the file name [<dataset>_<model_dir>_<gender>.tar.bz2], where the
    model directory is [smplh] for SMPL-H, [smplx] for SMPL-X and [smplh] for
    anything else, and the gender directory is [gender_specific] for male and
    female and [neutral] otherwise.  The function has no other input. *)
Theorem get_download_url_spec (dataset body_model gender : string) :
  ∃ model_dir gender_dir : string,
    (body_model = "SMPL-H" ∧ model_dir = "smplh"
     ∨ body_model = "SMPL-X" ∧ model_dir = "smplx"
     ∨ body_model ≠ "SMPL-H" ∧ body_model ≠ "SMPL-X" ∧ model_dir = "smplh")
    ∧ ((gender = "male" ∨ gender = "female") ∧ gender_dir = "gender_specific"
       ∨ gender ≠ "male" ∧ gender ≠ "female" ∧ gender_dir = "neutral")
    ∧ Downloader.get_download_url dataset body_model gender =
        ("https://download.is.tue.mpg.de/download.php?domain=amass&resume=1&sfile=amass_per_dataset/"
           +:+ model_dir +:+ "/" +:+ gender_dir +:+ "/mosh_results/"
           +:+ dataset +:+ ".tar.bz2",
         dataset +:+ "_" +:+ model_dir +:+ "_" +:+ gender +:+ ".tar.bz2").
Proof.
  unfold Downloader.get_download_url.
  exists (if String.eqb body_model "SMPL-X" then "smplx" else "smplh").
  exists (if bool_decide (gender ∈ ["male"; "female"])
          then "gender_specific" else "neutral").
  split; [|split].
  - destruct (String.eqb_spec body_model "SMPL-H") as [->|Hh]; [by left|].
    destruct (String.eqb_spec body_model "SMPL-X") as [->|Hx]; [by right; left|].
    by right; right.
  - case_bool_decide as Hg; rewrite !elem_of_cons, elem_of_nil in Hg.
    + left. split; [tauto|done].
    + right. split; [tauto|]. split; [tauto|done].
  - destruct (String.eqb_spec body_model "SMPL-H") as [->|Hh]; [done|].
    by destruct (String.eqb body_model "SMPL-X").
Qed.

(** ** [download_file]: retries, back-off, authentication failures *)

Section download_file.
Import Downloader DownloadTrace.

Lemma sleeps_timeline tr :
  sleeps tr = omap (λ s, match s with Delay d => Some d | Request _ => None end)
                   (timeline tr).
Proof.
  induction tr as [|[] tr IH]; simpl; try done. by f_equal.
Qed.

Lemma delays_retry_timeline url n : ∀ i,
  omap (λ s, match s with Delay d => Some d | Request _ => None end)
       (retry_timeline url i (S n)) = backoff i n.
Proof.
  induction n as [|n IH]; intros i; [done|].
  change (retry_timeline url i (S (S n)))
    with (Request url :: Delay (5 * Z.of_nat i) :: retry_timeline url (S i) (S n)).
  cbn -[retry_timeline backoff]. by rewrite IH.
Qed.

Lemma requests_retry_timeline url n : ∀ i,
  omap (λ s, match s with Request u => Some u | Delay _ => None end)
       (retry_timeline url i n) = replicate n url.
Proof.
  induction n as [|n IH]; intros i; [done|].
  destruct n as [|n]; [done|].
  change (retry_timeline url i (S (S n)))
    with (Request url :: Delay (5 * Z.of_nat i) :: retry_timeline url (S i) (S n)).
  cbn -[retry_timeline replicate]. by rewrite IH.
Qed.

Lemma attempt_once_verdict self url path mr a w :
  ∃ fs' tr,
    attempt_once self url path mr a w
      = (verdict path (hd HttpRaised (w_server w)), World fs' (tl (w_server w)), tr)
    ∧ timeline tr = [Request url]
    ∧ (verdict path (hd HttpRaised (w_server w)) = Some true →
         fs' !! path = Some Blob)
    ∧ (verdict path (hd HttpRaised (w_server w)) = Some false →
         fs' = w_fs w ∧ last tr = Some (EvLog Error MsgAuthFailed)).
Proof.
  destruct w as [fs srv].
  unfold attempt_once, io_bind, log, emit, session_get, save_body. simpl.
  destruct (hd HttpRaised srv) as [|status sv]; simpl.
  - eexists _, _. split; [reflexivity|]. done.
  - destruct (status =? 200).
    + destruct (String.eqb (os_path_dirname path) "").
      { eexists _, _. split; [reflexivity|]. done. }
      destruct sv as [|[]]; simpl; eexists _, _; (split; [reflexivity|]); simpl;
        repeat split; try done. intros _. apply lookup_insert_eq.
    + destruct ((status =? 401) || (status =? 403)); simpl;
        eexists _, _; (split; [reflexivity|]); done.
Qed.

Lemma failed_attempt_verdict path ans :
  failed_attempt path ans ↔ verdict path ans = None.
Proof.
  split.
  - intros [|status sv H2 H4 H3|fl|sv Hdir]; simpl; [done| | |].
    + rewrite (proj2 (Z.eqb_neq _ _) H2), (proj2 (Z.eqb_neq _ _) H4),
        (proj2 (Z.eqb_neq _ _) H3). done.
    + by destruct (String.eqb _ _).
    + by rewrite Hdir.
  - destruct ans as [|status sv]; simpl; [constructor|].
    destruct (Z.eqb_spec status 200) as [->|H2].
    + destruct (String.eqb_spec (os_path_dirname path) "") as [Hdir|Hdir].
      { intros _. by apply failed_makedirs. }
      destruct sv; [done|intros _; apply failed_save].
    + destruct (Z.eqb_spec status 401) as [->|H4]; [done|].
      destruct (Z.eqb_spec status 403) as [->|H3]; [done|].
      intros _. by constructor.
Qed.

Lemma retry_guard (a n : nat) :
  (Z.of_nat a <? Z.of_nat (a + S n) - 1) = bool_decide (n ≠ 0%nat).
Proof.
  case_bool_decide; [apply Z.ltb_lt|apply Z.ltb_ge]; lia.
Qed.

Lemma download_attempts_return self url path mr a rest w b w1 t1 :
  attempt_once self url path mr a w = (Some b, w1, t1) →
  download_attempts self url path mr (a :: rest) w = (b, w1, t1).
Proof.
  intros H. simpl. unfold io_bind. rewrite H. simpl. by rewrite app_nil_r.
Qed.

Lemma download_attempts_retry self url path mr a rest w w1 t1 b w3 t3 :
  attempt_once self url path mr a w = (None, w1, t1) →
  download_attempts self url path mr rest w1 = (b, w3, t3) →
  download_attempts self url path mr (a :: rest) w =
    (b, w3,
     t1 ++ (if a <? mr - 1
            then [EvLog Info (MsgWait (5 * (a + 1))); EvSleep (5 * (a + 1))]
            else []) ++ t3).
Proof.
  intros H1 H3. simpl. unfold io_bind at 1. rewrite H1.
  unfold io_bind at 1. destruct (a <? mr - 1).
  - unfold io_bind, log, sleep, emit. by rewrite H3.
  - unfold io_ret. by rewrite H3.
Qed.

Lemma verdict_saved path :
  os_path_dirname path ≠ "" → verdict path (HttpResponse 200 Saved) = Some true.
Proof.
  intros Hdir. simpl. by rewrite (proj2 (String.eqb_neq _ _) Hdir).
Qed.

Lemma download_attempts_success self url path mr failed :
  ∀ (a n : nat) fs rest,
    os_path_dirname path ≠ "" →
    Forall (failed_attempt path) failed →
    mr = Z.of_nat (a + n) →
    (length failed < n)%nat →
    ∃ fs' tr,
      download_attempts self url path mr (Z.of_nat <$> seq a n)
        (World fs (failed ++ HttpResponse 200 Saved :: rest))
        = (true, World fs' rest, tr)
      ∧ fs' !! path = Some Blob
      ∧ timeline tr = retry_timeline url (S a) (S (length failed)).
Proof.
  induction failed as [|ans failed IH]; intros a n fs rest Hdir Hf Hmr Hn.
  - destruct n as [|n]; [simpl in Hn; lia|]. rewrite app_nil_l.
    destruct (attempt_once_verdict self url path mr (Z.of_nat a)
                (World fs (HttpResponse 200 Saved :: rest)))
      as (fs' & tr & Hrun & Htl & Hfs & _).
    cbn [w_server hd tl] in Hrun, Hfs. rewrite (verdict_saved _ Hdir) in Hrun, Hfs.
    exists fs', tr. rewrite <-cons_seq, fmap_cons.
    split; [|auto]. by apply download_attempts_return.
  - destruct n as [|n]; [simpl in Hn; lia|].
    apply Forall_cons in Hf as [Hans Hf].
    destruct (attempt_once_verdict self url path mr (Z.of_nat a)
                (World fs ((ans :: failed) ++ HttpResponse 200 Saved :: rest)))
      as (fs1 & tr1 & Hrun1 & Htl & _).
    simpl in Hrun1. rewrite (proj1 (failed_attempt_verdict path ans) Hans) in Hrun1.
    simpl in Hn.
    destruct (IH (S a) n fs1 rest Hdir Hf) as (fs' & tr & Hrun & Hfs & Htr); [lia..|].
    rewrite <-cons_seq, fmap_cons, <-app_comm_cons.
    rewrite (download_attempts_retry _ _ _ _ _ _ _ _ _ _ _ _ Hrun1 Hrun).
    eexists _, _. split; [done|]. split; [done|].
    subst mr. rewrite retry_guard, bool_decide_true by lia.
    unfold timeline in *. rewrite !omap_app, Htl, Htr. simpl.
    do 3 f_equal. lia.
Qed.

Lemma requests_timeline tr :
  requests tr = omap (λ s, match s with Request u => Some u | Delay _ => None end)
                     (timeline tr).
Proof.
  induction tr as [|[] tr IH]; simpl; try done. by f_equal.
Qed.

Lemma download_attempts_exhausted self url path mr :
  ∀ (n a : nat) fs srv,
    mr = Z.of_nat (a + n) →
    Forall (failed_attempt path) (take n srv) →
    ∃ fs' tr,
      download_attempts self url path mr (Z.of_nat <$> seq a n) (World fs srv)
        = (false, World fs' (drop n srv), tr)
      ∧ timeline tr = retry_timeline url (S a) n.
Proof.
  induction n as [|n IH]; intros a fs srv Hmr Hf.
  - eexists _, _. split; [reflexivity|done].
  - destruct (attempt_once_verdict self url path mr (Z.of_nat a) (World fs srv))
      as (fs1 & tr1 & Hrun1 & Htl & _).
    simpl in Hrun1.
    assert (verdict path (hd HttpRaised srv) = None) as Hv.
    { destruct srv as [|ans srv]; [done|].
      apply failed_attempt_verdict. simpl in Hf. by apply Forall_cons in Hf as [? _]. }
    rewrite Hv in Hrun1.
    destruct (IH (S a) fs1 (tl srv)) as (fs' & tr & Hrun & Htr); [lia| |].
    { destruct srv as [|ans srv]; simpl; [by rewrite take_nil|].
      simpl in Hf. by apply Forall_cons in Hf as [_ ?]. }
    rewrite <-cons_seq, fmap_cons.
    rewrite (download_attempts_retry _ _ _ _ _ _ _ _ _ _ _ _ Hrun1 Hrun).
    replace (drop (S n) srv) with (drop n (tl srv))
      by (destruct srv; simpl; [by rewrite drop_nil|done]).
    eexists _, _. split; [reflexivity|].
    subst mr. rewrite retry_guard.
    unfold timeline in *. rewrite !omap_app, Htl, Htr.
    destruct n as [|n]; simpl; [done|]. do 3 f_equal. lia.
Qed.

Lemma verdict_auth path status sv :
  status = 401 ∨ status = 403 →
  verdict path (HttpResponse status sv) = Some false.
Proof. by intros [-> | ->]. Qed.

Lemma download_attempts_auth self url path mr :
  ∀ (n a : nat) fs srv ok w' tr (i : nat) status sv,
    mr = Z.of_nat (a + n) →
    download_attempts self url path mr (Z.of_nat <$> seq a n) (World fs srv)
      = (ok, w', tr) →
    (i < length (requests tr))%nat →
    srv !! i = Some (HttpResponse status sv) →
    status = 401 ∨ status = 403 →
    ok = false
    ∧ timeline tr = retry_timeline url (S a) (S i)
    ∧ w_server w' = drop (S i) srv
    ∧ last tr = Some (EvLog Error MsgAuthFailed).
Proof.
  induction n as [|n IH]; intros a fs srv ok w' tr i status sv Hmr Hrun Hi Hsrv Hst.
  - simpl in Hrun. injection Hrun as <- <- <-. simpl in Hi. lia.
  - destruct (attempt_once_verdict self url path mr (Z.of_nat a) (World fs srv))
      as (fs1 & tr1 & Hrun1 & Htl & _ & Hauth).
    simpl in Hrun1, Hauth. rewrite <-cons_seq, fmap_cons in Hrun.
    destruct (verdict path (hd HttpRaised srv)) as [b|] eqn:Hv.
    + rewrite (download_attempts_return _ _ _ _ _ _ _ _ _ _ Hrun1) in Hrun.
      injection Hrun as <- <- <-.
      rewrite requests_timeline, Htl in Hi. simpl in Hi.
      assert (i = 0%nat) as -> by lia.
      destruct srv as [|ans srv]; [done|]. simpl in Hsrv. injection Hsrv as ->.
      simpl hd in Hv. rewrite (verdict_auth path _ _ Hst) in Hv. injection Hv as <-.
      destruct Hauth as [_ Hlast]; [done|]. done.
    + destruct i as [|i].
      { destruct srv as [|ans srv]; [done|]. simpl in Hsrv. injection Hsrv as ->.
        simpl hd in Hv. by rewrite (verdict_auth path _ _ Hst) in Hv. }
      destruct (download_attempts self url path mr (Z.of_nat <$> seq (S a) n)
                  (World fs1 (tl srv))) as [[b w3] t3] eqn:Hrun3.
      rewrite (download_attempts_retry _ _ _ _ _ _ _ _ _ _ _ _ Hrun1 Hrun3) in Hrun.
      injection Hrun as <- <- <-.
      destruct srv as [|ans srv]; [done|]. simpl in Hsrv, Hrun3.
      assert (i < length (requests t3))%nat as Hi3.
      { rewrite requests_timeline in Hi. unfold timeline in Hi.
        rewrite !omap_app in Hi. fold (timeline tr1) in Hi. rewrite Htl in Hi.
        rewrite requests_timeline. unfold timeline.
        destruct (Z.of_nat a <? mr - 1); simpl in Hi; lia. }
      destruct (IH (S a) fs1 srv b w3 t3 i status sv) as (-> & Ht3 & Hsrv3 & Hlast);
        [lia|done..|].
      destruct n as [|n].
      { simpl in Hrun3. injection Hrun3 as _ <-. simpl in Hi3. lia. }
      subst mr. rewrite retry_guard, bool_decide_true by lia.
      split; [done|]. split; [|split; [done|]].
      * unfold timeline in *. rewrite !omap_app, Htl, Ht3. simpl.
        do 3 f_equal. lia.
      * rewrite !last_app, Hlast. done.
Qed.

Lemma range_nonpositive mr : mr ≤ 0 → range mr = [].
Proof. intros H. unfold range. by replace (Z.to_nat mr) with 0%nat by lia. Qed.

(** C2 (amended). When the first [k - 1] attempts fail in a way that is
    retried (the request raises, the status is none of 200, 401, 403, or the
    status is 200 and saving the body raises) and attempt [k ≤ max_retries]
    gets a 200 response whose body is saved to an output path that has a
    directory part, [download_file] returns success on attempt [k]: it has
    made [k] requests and slept [5 * i] seconds after each failed attempt
    [i].  When all [max_retries] attempts fail in that way it returns
    failure. *)
Theorem download_file_retries self url path max_retries fs failed rest :
  Forall (failed_attempt path) failed →
  (os_path_dirname path ≠ "" →
   Z.of_nat (length failed) < max_retries →
     ∃ fs' tr,
       download_file self url path max_retries
         (World fs (failed ++ HttpResponse 200 Saved :: rest))
         = (true, World fs' rest, tr)
       ∧ fs' !! path = Some Blob
       ∧ timeline tr = retry_timeline url 1 (S (length failed))
       ∧ requests tr = replicate (S (length failed)) url
       ∧ sleeps tr = backoff 1 (length failed))
  ∧ (max_retries ≤ Z.of_nat (length failed) →
     ∃ fs' tr,
       download_file self url path max_retries (World fs (failed ++ rest))
         = (false, World fs' (drop (Z.to_nat max_retries) (failed ++ rest)), tr)
       ∧ timeline tr = retry_timeline url 1 (Z.to_nat max_retries)
       ∧ requests tr = replicate (Z.to_nat max_retries) url).
Proof.
  intros Hfailed. split.
  - intros Hdir Hk. unfold download_file, range.
    destruct (download_attempts_success self url path max_retries failed
                0 (Z.to_nat max_retries) fs rest) as (fs' & tr & Hrun & Hfs & Htl);
      [done|done|lia|lia|].
    exists fs', tr. split; [done|]. split; [done|]. split; [done|].
    rewrite requests_timeline, sleeps_timeline, Htl.
    by rewrite requests_retry_timeline, delays_retry_timeline.
  - intros Hk. unfold download_file.
    destruct (Z.le_gt_cases max_retries 0) as [Hneg|Hpos].
    + rewrite (range_nonpositive _ Hneg).
      replace (Z.to_nat max_retries) with 0%nat by lia.
      eexists _, _. split; [reflexivity|done].
    + destruct (download_attempts_exhausted self url path max_retries
                  (Z.to_nat max_retries) 0 fs (failed ++ rest))
        as (fs' & tr & Hrun & Htl); [lia| |].
      { rewrite take_app_le by lia. by apply Forall_take. }
      exists fs', tr. split; [done|]. split; [done|].
      by rewrite requests_timeline, Htl, requests_retry_timeline.
Qed.

(** Two answers with status 500, then a 200 whose body is saved: success
    on the third attempt, after delays of 5 and 10 seconds. *)
Lemma download_file_retries_witness :
  ∃ fs' tr,
    download_file example_self "u" "out/f" 3
      (World ∅ [HttpResponse 500 Saved; HttpResponse 500 Saved;
                HttpResponse 200 Saved])
      = (true, World fs' [], tr)
    ∧ fs' !! "out/f" = Some Blob
    ∧ timeline tr = [Request "u"; Delay 5; Request "u"; Delay 10; Request "u"]
    ∧ requests tr = ["u"; "u"; "u"]
    ∧ sleeps tr = [5; 10].
Proof.
  refine (proj1 (download_file_retries example_self "u" "out/f" 3 ∅
                   [HttpResponse 500 Saved; HttpResponse 500 Saved] [] _) _ _).
  - repeat constructor; lia.
  - done.
  - simpl. lia.
Defined.

(** C2, counterexample to the claim as stated: the first attempt gets status
    200 and [max_retries] is 1, yet [download_file] returns failure: the
    stream breaks while the body is written, the exception is caught like
    any other and the attempt counts as failed. *)
Lemma download_file_200_not_saved_fails :
  let w := World ∅ [HttpResponse 200 (SaveRaised true)] in
  let run := download_file example_self "u" "out/f" 1 w in
  w_server w !! 0%nat = Some (HttpResponse 200 (SaveRaised true))
  ∧ run.1.1 = false
  ∧ timeline run.2 = [Request "u"].
Proof. done. Qed.

(** The same with three attempts allowed and a second answer that is saved:
    success comes on the second attempt, after a delay of 5 seconds. *)
Lemma download_file_200_not_saved :
  let w := World ∅ [HttpResponse 200 (SaveRaised true); HttpResponse 200 Saved] in
  let run := download_file example_self "u" "out/f" 3 w in
  run.1.1 = true
  ∧ timeline run.2 = [Request "u"; Delay 5; Request "u"].
Proof. done. Qed.

(** An output path without a directory part: [os.makedirs("")] raises on
    every 200 response, and the download fails whatever the server sends. *)
Lemma download_file_no_directory :
  let w := World ∅ [HttpResponse 200 Saved; HttpResponse 200 Saved;
                    HttpResponse 200 Saved] in
  let run := download_file example_self "u" "CMU_smplx_male.tar.bz2" 3 w in
  os_path_dirname "CMU_smplx_male.tar.bz2" = ""
  ∧ run.1.1 = false
  ∧ timeline run.2 = [Request "u"; Delay 5; Request "u"; Delay 10; Request "u"].
Proof. done. Qed.

(** C3. If the response to some attempt of [download_file] has status 401
    or 403, the method returns failure from that attempt: the request of
    that attempt is the last one, the only delays are those that followed
    the earlier failed attempts, and the last thing done is to log the
    authentication error. *)
Theorem download_file_auth_failure self url path max_retries w ok w' tr
    (i : nat) status sv :
  download_file self url path max_retries w = (ok, w', tr) →
  (i < length (requests tr))%nat →
  w_server w !! i = Some (HttpResponse status sv) →
  status = 401 ∨ status = 403 →
  ok = false
  ∧ length (requests tr) = S i
  ∧ sleeps tr = backoff 1 i
  ∧ timeline tr = retry_timeline url 1 (S i)
  ∧ w_server w' = drop (S i) (w_server w)
  ∧ last tr = Some (EvLog Error MsgAuthFailed).
Proof.
  intros Hrun Hi Hsrv Hst. unfold download_file in Hrun. destruct w as [fs srv].
  destruct (Z.le_gt_cases max_retries 0) as [Hneg|Hpos].
  { rewrite (range_nonpositive _ Hneg) in Hrun. simpl in Hrun.
    injection Hrun as <- <- <-. simpl in Hi. lia. }
  destruct (download_attempts_auth self url path max_retries
              (Z.to_nat max_retries) 0 fs srv ok w' tr i status sv)
    as (-> & Htl & Hsrv' & Hlast); [lia|done..|].
  split; [done|].
  rewrite requests_timeline, sleeps_timeline, Htl.
  rewrite requests_retry_timeline, delays_retry_timeline, length_replicate.
  done.
Qed.

(** A 500, then a 403: failure on the second attempt; the third answer is
    never asked for, and the only delay is the one after the first attempt. *)
Lemma download_file_auth_failure_witness :
  ∃ w' tr,
    download_file example_self "u" "out/f" 3
      (World ∅ [HttpResponse 500 Saved; HttpResponse 403 Saved;
                HttpResponse 200 Saved])
      = (false, w', tr)
    ∧ length (requests tr) = 2%nat
    ∧ sleeps tr = [5]
    ∧ timeline tr = [Request "u"; Delay 5; Request "u"]
    ∧ w_server w' = [HttpResponse 200 Saved]
    ∧ last tr = Some (EvLog Error MsgAuthFailed).
Proof.
  eexists _, _. split; [reflexivity|].
  refine (proj2 (download_file_auth_failure example_self "u" "out/f" 3
                   (World ∅ [HttpResponse 500 Saved; HttpResponse 403 Saved;
                             HttpResponse 200 Saved])
                   _ _ _ 1 403 Saved eq_refl _ eq_refl (or_intror eq_refl))).
  simpl. lia.
Defined.

End download_file.

(** ** [download_dataset]: an existing file is not downloaded again *)

Section download_dataset.
Import Downloader DownloadTrace.

(** C4. If the destination file of a dataset exists, [download_dataset]
    returns success, makes no request, writes no file, does not sleep and
    leaves the world as it is; so a second call in the world the first one
    left does the same. *)
Theorem download_dataset_existing self dataset w :
  is_Some (w_fs w !! destination (d_config self) dataset) →
  ∃ tr,
    download_dataset self dataset w = (true, w, tr)
    ∧ requests tr = [] ∧ writes tr = [] ∧ sleeps tr = []
    ∧ download_dataset self dataset (download_dataset self dataset w).1.2
        = (true, w, tr).
Proof.
  intros Hex. unfold destination in Hex.
  assert (∃ tr, download_dataset self dataset w = (true, w, tr)
                ∧ requests tr = [] ∧ writes tr = [] ∧ sleeps tr = [])
    as (tr & Hrun & Hreq & Hwr & Hsl).
  { unfold download_dataset.
    destruct (get_download_url dataset _ _) as [download_url filename].
    simpl in Hex. unfold log, path_exists. io_run.
    rewrite bool_decide_true by done.
    eexists. split; [reflexivity|done]. }
  exists tr. rewrite Hrun. simpl. rewrite Hrun. done.
Qed.

(** The archive of CMU is there: nothing is asked of the server. *)
Lemma download_dataset_existing_witness :
  ∃ tr,
    download_dataset example_self "CMU" example_world = (true, example_world, tr)
    ∧ requests tr = [] ∧ writes tr = [] ∧ sleeps tr = []
    ∧ download_dataset example_self "CMU"
        (download_dataset example_self "CMU" example_world).1.2
        = (true, example_world, tr).
Proof.
  apply (download_dataset_existing example_self "CMU" example_world).
  vm_compute. eauto.
Defined.

End download_dataset.

(** ** Cookie files *)

Section cookies.
Import Downloader DownloadTrace.

Lemma split_once_spec c s l r :
  pystr.split_once c s = Some (l, r) ↔
  s = l +:+ String c r ∧ pystr.contains c l = false.
Proof.
  revert l. induction s as [|b s IH]; intros l; simpl.
  - split; [done|]. intros [H _]. by destruct l.
  - destruct (Ascii.eqb_spec b c) as [->|Hbc].
    + split.
      * intros [= <- <-]. done.
      * intros [H Hl]. destruct l as [|a l].
        { rewrite string_app_nil_l in H. by injection H as ->. }
        rewrite string_app_cons in H. injection H as <- ->.
        simpl in Hl. by rewrite Ascii.eqb_refl in Hl.
    + split.
      * destruct (pystr.split_once c s) as [[l' r']|] eqn:Hs; [|done].
        intros [= <- <-]. destruct (proj1 (IH l') eq_refl) as [-> Hl'].
        simpl. by rewrite (proj2 (Ascii.eqb_neq _ _) Hbc).
      * intros [H Hl]. destruct l as [|a l].
        { rewrite string_app_nil_l in H. by injection H as ->. }
        rewrite string_app_cons in H. injection H as <- ->.
        simpl in Hl. rewrite (proj2 (Ascii.eqb_neq _ _) Hbc) in Hl.
        by rewrite (proj2 (IH l) (conj eq_refl Hl)).
Qed.

Lemma contains_split_once c s :
  pystr.contains c s = true → is_Some (pystr.split_once c s).
Proof.
  induction s as [|b s IH]; simpl; [done|].
  destruct (Ascii.eqb b c); [eauto|].
  intros H. destruct (IH H) as [[l r] ->]. eauto.
Qed.

(** What one line of a cookie file does to the cookies read so far; the
    line is stripped before anything else is looked at. *)
Lemma load_cookie_line_cases (cookies : gmap string string) raw w :
  ∃ cookies' tr,
    load_cookie_line cookies raw w = (cookies', w, tr)
    ∧ let line := pystr.strip raw in
      let fields := pystr.split "009" line in
      (line = "" ∨ pystr.startswith "#" line = true → cookies' = cookies)
      ∧ (line ≠ "" → pystr.startswith "#" line = false →
         (7 ≤ length fields)%nat →
         ∃ name value,
           fields !! 5%nat = Some name ∧ fields !! 6%nat = Some value
           ∧ cookies' = <[name := value]> cookies)
      ∧ (line ≠ "" → pystr.startswith "#" line = false →
         (length fields < 7)%nat →
         pystr.contains "=" line = true →
         ∃ name value,
           line = name +:+ "=" +:+ value
           ∧ pystr.contains "=" name = false
           ∧ cookies' = <[pystr.strip name := pystr.strip value]> cookies)
      ∧ (line ≠ "" → pystr.startswith "#" line = false →
         (length fields < 7)%nat →
         pystr.contains "=" line = false →
         cookies' = cookies).
Proof.
  unfold load_cookie_line.
  set (line := pystr.strip raw). set (fields := pystr.split "009" line).
  destruct (String.eqb_spec line "") as [Hempty|Hne].
  { simpl. eexists _, _. split; [reflexivity|]. repeat split; try done. }
  destruct (pystr.startswith "#" line) eqn:Hhash.
  { simpl. eexists _, _. split; [reflexivity|]. repeat split; try done. }
  simpl orb. cbv iota.
  destruct (Z.leb_spec 7 (Z.of_nat (length fields))) as [H7|H7].
  - unfold log. io_run. eexists _, _. split; [reflexivity|].
    split; [by intros [|]|]. split; [|split; intros; lia].
    intros _ _ _.
    destruct (lookup_lt_is_Some_2 fields 5) as [name Hn]; [lia|].
    destruct (lookup_lt_is_Some_2 fields 6) as [value Hv]; [lia|].
    exists name, value. by rewrite Hn, Hv.
  - destruct (pystr.contains "=" line) eqn:Heq.
    + destruct (contains_split_once _ _ Heq) as [[name value] Hso].
      rewrite Hso. io_run. eexists _, _. split; [reflexivity|].
      split; [by intros [|]|]. split; [intros; lia|]. split; [|done].
      intros _ _ _ _. exists name, value.
      by apply split_once_spec in Hso as [-> ?].
    + io_run. eexists _, _. split; [reflexivity|].
      split; [by intros [|]|]. split; [intros; lia|]. done.
Qed.

Lemma load_cookie_lines_world ls : ∀ (cookies : gmap string string) w,
  (load_cookie_lines cookies ls w).1.2 = w.
Proof.
  induction ls as [|raw ls IH]; intros cookies w; [done|].
  simpl. unfold io_bind.
  destruct (load_cookie_line_cases cookies raw w) as (c' & tr & -> & _).
  specialize (IH c' w). by destruct (load_cookie_lines c' ls w) as [[? ?] ?].
Qed.


Lemma cookie_examples :
  (∀ (cookies : gmap string string) w,
     (load_cookie_line cookies netscape_example w).1.1
       = <["SESSION" := "abc123"]> cookies)
  ∧ (∀ (cookies : gmap string string) w,
     (load_cookie_line cookies "FOO=bar" w).1.1 = <["FOO" := "bar"]> cookies)
  ∧ (∀ (cookies : gmap string string) w,
     (load_cookie_line cookies "# a comment" w).1.1 = cookies)
  ∧ (∀ w path j,
       w_fs w !! path = Some (TextFile cookies_example_file j) →
       (load_cookies_from_file path w).1.1
         = {[ "SESSION" := "abc123"; "FOO" := "bar" ]}).
Proof.
  repeat split; try done.
  intros w path j H. unfold load_cookies_from_file. io_run. rewrite H.
  destruct w as [fs srv]. vm_compute. reflexivity.
Qed.


(** C5.  The lines of the spec are read as the claim says: the cookie-jar
    line gives SESSION=abc123, the line FOO=bar gives FOO=bar.  The claim
    fails on a cookie-jar line whose value is empty: the line
    [x TRUE / FALSE 0 EMPTY] followed by a tab has seven tab-separated
    fields, the sixth [EMPTY] and the seventh empty, and
    [load_cookies_from_file] reads no cookie from it, since the line is
    stripped before it is split, which removes the last tab and leaves six
    fields.  The line [EMPTY=] does give the cookie [EMPTY] with the empty
    value. *)
Theorem load_cookie_line_empty_value :
  pystr.split "009" empty_value_example
    = ["x"; "TRUE"; "/"; "FALSE"; "0"; "EMPTY"; ""]
  ∧ (∀ w path j,
       w_fs w !! path = Some (TextFile (empty_value_example +:+ pystr.LF) j) →
       (load_cookies_from_file path w).1.1 = ∅)
  ∧ (∀ w path j,
       w_fs w !! path = Some (TextFile ("EMPTY=" +:+ pystr.LF) j) →
       (load_cookies_from_file path w).1.1 = {[ "EMPTY" := "" ]})
  ∧ (∀ w path j,
       w_fs w !! path = Some (TextFile cookies_example_file j) →
       (load_cookies_from_file path w).1.1
         = {[ "SESSION" := "abc123"; "FOO" := "bar" ]}).
Proof.
  split; [done|]. destruct cookie_examples as (_ & _ & _ & Hfile).
  split; [|split; [|exact Hfile]].
  - intros w path j H. unfold load_cookies_from_file. io_run. rewrite H.
    destruct w as [fs srv]. vm_compute. reflexivity.
  - intros w path j H. unfold load_cookies_from_file. io_run. rewrite H.
    destruct w as [fs srv]. vm_compute. reflexivity.
Qed.

(** Whitespace that is not ASCII is stripped too, and a file that does not
    decode gives no cookie at all. *)
Example load_cookies_unicode :
  (load_cookie_line ∅ ("FOO=bar" +:+ pystr.NBSP +:+ pystr.LF) (World ∅ [])).1.1
    = {[ "FOO" := "bar" ]}
  ∧ (load_cookie_line ∅ (pystr.join pystr.TAB
                           ["x"; "TRUE"; "/"; "FALSE"; "0"; "N"; pystr.NBSP])
                      (World ∅ [])).1.1 = ∅
  ∧ load_cookies_from_file "cookies.txt"
      (World {[ "cookies.txt" := TextFile (String "255" "FOO=bar") None ]} [])
    = (∅, World {[ "cookies.txt" := TextFile (String "255" "FOO=bar") None ]} [],
       [EvLog Error MsgCookieError]).
Proof. split; [by vm_compute|]. split; by vm_compute. Qed.

Lemma load_cookies_missing cookie_file w :
  w_fs w !! cookie_file = None →
  load_cookies_from_file cookie_file w
    = (∅, w, [EvLog Warning (MsgCookieFileMissing cookie_file)]).
Proof.
  intros H. unfold load_cookies_from_file, log. io_run. by rewrite H.
Qed.

Lemma load_cookies_unreadable cookie_file w nd :
  w_fs w !! cookie_file = Some nd →
  (∀ content j, nd ≠ TextFile content j) →
  load_cookies_from_file cookie_file w = (∅, w, [EvLog Error MsgCookieError]).
Proof.
  intros H Hnd. unfold load_cookies_from_file, log. io_run. rewrite H.
  destruct nd; try done. by destruct (Hnd content json).
Qed.

Lemma setup_session_no_cookie_file cfg w :
  w_fs w !! cookie_file cfg = None →
  setup_session (Self cfg (Session ∅ ∅) ∅) w
    = (Self cfg (Session ∅ {[ "User-Agent" := USER_AGENT ]}) ∅, w,
       [EvLog Warning (MsgCookieFileMissing (cookie_file cfg))]).
Proof.
  intros H. unfold setup_session. unfold io_bind at 1. simpl d_config.
  rewrite (load_cookies_missing _ _ H). io_run. simpl.
  rewrite map_fold_empty. done.
Qed.

(** C9. A cookie file that does not exist gives an empty cookie mapping and
    a warning; so does a cookie file that cannot be read (an error is logged
    instead).  With a configuration file but no cookie file, [main] goes on
    to the downloads with a session that has no cookie; with no configuration
    file it stops at once with exit status 1. *)
Theorem missing_cookie_file_continues :
  (∀ cookie_file w,
     w_fs w !! cookie_file = None →
     load_cookies_from_file cookie_file w
       = (∅, w, [EvLog Warning (MsgCookieFileMissing cookie_file)]))
  ∧ (∀ cookie_file w nd,
     w_fs w !! cookie_file = Some nd →
     (∀ content j, nd ≠ TextFile content j) →
     load_cookies_from_file cookie_file w = (∅, w, [EvLog Error MsgCookieError]))
  ∧ (∀ a order w content cfg,
     a_list a = false →
     w_fs w !! a_config a = Some (TextFile content (Some cfg)) →
     w_fs w !! cookie_file cfg = None →
     main a order w =
       let '(code, w', tr) :=
         main_download (Self cfg (Session ∅ {[ "User-Agent" := USER_AGENT ]}) ∅)
                       a order w in
       (code, w',
        [EvLog Info (MsgConfigLoaded (a_config a));
         EvLog Warning (MsgCookieFileMissing (cookie_file cfg))] ++ tr))
  ∧ (∀ a order w,
     a_list a = false →
     w_fs w !! a_config a = None →
     main a order w = (1, w, [EvLog Error (MsgConfigMissing (a_config a))])).
Proof.
  split; [exact load_cookies_missing|]. split; [exact load_cookies_unreadable|].
  split.
  - intros a order w content cfg Hl Hcfg Hck. unfold main. rewrite Hl.
    unfold init, load_config, log. io_run. rewrite Hcfg. io_run.
    rewrite (setup_session_no_cookie_file _ _ Hck).
    by destruct (main_download _ a order w) as [[code w'] tr].
  - intros a order w Hl Hcfg. unfold main. rewrite Hl.
    unfold init, load_config, log. io_run. by rewrite Hcfg.
Qed.

(** No cookie file: the run goes on, the request carries no cookie and the
    download succeeds. *)
Lemma missing_cookie_file_continues_witness :
  ∃ w' tr,
    main (Args "config.json" (Some "CMU") false) [] example_no_cookies
      = (0, w', tr)
    ∧ EvLog Warning (MsgCookieFileMissing "cookies.txt") ∈ tr
    ∧ EvGet (get_download_url "CMU" "SMPL-X" "male").1 ∅ 30 ∈ tr.
Proof.
  rewrite (proj1 (proj2 (proj2 missing_cookie_file_continues))
             (Args "config.json" (Some "CMU") false) [] example_no_cookies
             "{}" example_config eq_refl eq_refl eq_refl).
  eexists _, _. split; [reflexivity|]. split.
  - apply list_elem_of_In. simpl. tauto.
  - apply list_elem_of_In. simpl. tauto.
Defined.

End cookies.

(** ** [download_all]: sequential and pooled batches *)

Section download_all.
Import Downloader DownloadTrace.

Lemma batch_timeline_app t1 t2 :
  batch_timeline (t1 ++ t2) = batch_timeline t1 ++ batch_timeline t2.
Proof. apply omap_app. Qed.

Lemma attempt_once_quiet self url path mr a w :
  batch_timeline (attempt_once self url path mr a w).2 = [].
Proof.
  destruct w as [fs srv].
  unfold attempt_once, log, session_get, save_body. io_run. simpl.
  destruct (hd HttpRaised srv) as [|status sv]; [done|].
  destruct (status =? 200).
  - destruct (String.eqb _ _); [done|]. by destruct sv as [|[]].
  - by destruct ((status =? 401) || (status =? 403)).
Qed.

Lemma download_attempts_quiet self url path mr attempts : ∀ w,
  batch_timeline (download_attempts self url path mr attempts w).2 = [].
Proof.
  induction attempts as [|a attempts IH]; intros w; [done|].
  pose proof (attempt_once_quiet self url path mr a w) as Hq.
  destruct (attempt_once self url path mr a w) as [[[b|] w1] t1] eqn:Hrun1.
  - by rewrite (download_attempts_return _ _ _ _ _ _ _ _ _ _ Hrun1).
  - specialize (IH w1).
    destruct (download_attempts self url path mr attempts w1)
      as [[b w3] t3] eqn:Hrun3.
    rewrite (download_attempts_retry _ _ _ _ _ _ _ _ _ _ _ _ Hrun1 Hrun3).
    simpl in *. rewrite !batch_timeline_app, Hq, IH, app_nil_r. simpl.
    destruct (a <? mr - 1); [|done]. simpl.
    replace (5 * (a + 1) =? 2) with false; [done|].
    symmetry. apply Z.eqb_neq. lia.
Qed.

Lemma download_dataset_timeline self dataset w :
  batch_timeline (download_dataset self dataset w).2 = [Start dataset].
Proof.
  unfold download_dataset.
  destruct (get_download_url dataset _ _) as [download_url filename].
  unfold log, path_exists. io_run.
  case_bool_decide; [done|]. unfold download_file.
  pose proof (download_attempts_quiet self download_url
                (os_path_join (output_dir (d_config self)) filename)
                (max_retries (d_config self))
                (range (max_retries (d_config self))) w) as Hq.
  destruct (download_attempts _ _ _ _ _ w) as [[b w1] t1]. simpl in *.
  by rewrite Hq.
Qed.

Lemma tally_dom calls : ∀ results,
  dom (tally results calls) = dom results ∪ list_to_set (calls.*1.*1).
Proof.
  induction calls as [|c calls IH]; intros results.
  { simpl. by rewrite (right_id_L ∅ (∪)). }
  unfold tally. simpl. fold (tally (<[c.1.1 := c.1.2]> results) calls).
  rewrite IH, dom_insert_L. apply set_eq. intros x.
  rewrite !elem_of_union, elem_of_singleton. tauto.
Qed.

Lemma download_sequential_run self n : ∀ rest i results w,
  i + Z.of_nat (length rest) = Z.of_nat n + 1 →
  ∃ calls w',
    download_sequential self n i rest results w
      = (tally results calls, w', sequential_trace n i calls)
    ∧ downloads self w calls w'
    ∧ calls.*1.*1 = rest.
Proof.
  induction rest as [|dataset rest IH]; intros i results w Hi.
  - exists [], w. split; [done|]. split; [constructor|done].
  - destruct (download_dataset self dataset w) as [[success w1] t] eqn:Hcall.
    destruct (IH (i + 1) (<[dataset := success]> results) w1)
      as (calls & w' & Hrun & Hcalls & Hnames).
    { simpl in Hi. lia. }
    exists ((dataset, success, t) :: calls), w'.
    split; [|split; [by econstructor|by rewrite !fmap_cons, Hnames]].
    simpl. unfold log. unfold io_bind at 1. unfold emit at 1.
    unfold io_bind at 1. rewrite Hcall. unfold io_bind at 1.
    assert ((i <? Z.of_nat n) = bool_decide (calls ≠ [])) as ->.
    { rewrite <-Hnames in Hi. simpl in Hi. rewrite !length_fmap in Hi.
      destruct calls; simpl in Hi.
      - rewrite bool_decide_false by naive_solver. apply Z.ltb_ge. lia.
      - rewrite bool_decide_true by done. apply Z.ltb_lt. lia. }
    destruct calls as [|c calls].
    + rewrite bool_decide_false by naive_solver. io_run. by rewrite Hrun.
    + rewrite bool_decide_true by done. unfold sleep. io_run. by rewrite Hrun.
Qed.

Lemma collect_download_run self ds : ∀ order completed results w,
  ∃ calls w',
    collect self ds order completed results w
      = (tally results calls, w', pooled_trace (length ds) completed calls)
    ∧ downloads self w calls w'
    ∧ calls.*1.*1 = omap (ds !!.) order.
Proof.
  induction order as [|future order IH]; intros completed results w.
  - exists [], w. split; [done|]. split; [constructor|done].
  - simpl. destruct (ds !! future) as [dataset|]; [|apply IH].
    destruct (download_dataset self dataset w) as [[success w1] t] eqn:Hcall.
    destruct (IH (completed + 1) (<[dataset := success]> results) w1)
      as (calls & w' & Hrun & Hcalls & Hnames).
    exists ((dataset, success, t) :: calls), w'.
    split; [|split; [by econstructor|by rewrite !fmap_cons, Hnames]].
    unfold io_bind at 1. rewrite Hcall. unfold log. io_run. by rewrite Hrun.
Qed.

Lemma sequential_trace_timeline self n calls : ∀ i w w',
  downloads self w calls w' →
  batch_timeline (sequential_trace n i calls)
    = separated Pause (Start <$> calls.*1.*1).
Proof.
  induction calls as [|[[dataset success] t] calls IH]; intros i w w' Hcalls;
    [done|].
  inversion Hcalls as [|? ? ? ? w1 ? ? Hcall Hrest]; subst.
  pose proof (download_dataset_timeline self dataset w) as Ht.
  rewrite Hcall in Ht. simpl in Ht.
  change (sequential_trace n i ((dataset, success, t) :: calls))
    with ([EvLog Info (MsgProgress i n dataset)] ++ t
            ++ match calls with [] => [] | _ :: _ => [EvSleep 2] end
            ++ sequential_trace n (i + 1) calls).
  rewrite !batch_timeline_app, Ht, (IH _ _ _ Hrest).
  by destruct calls.
Qed.

Lemma pooled_trace_timeline self n calls : ∀ completed w w',
  downloads self w calls w' →
  batch_timeline (pooled_trace n completed calls) = Start <$> calls.*1.*1.
Proof.
  induction calls as [|[[dataset success] t] calls IH]; intros completed w w' Hcalls;
    [done|].
  inversion Hcalls as [|? ? ? ? w1 ? ? Hcall Hrest]; subst.
  pose proof (download_dataset_timeline self dataset w) as Ht.
  rewrite Hcall in Ht. simpl in Ht.
  change (pooled_trace n completed ((dataset, success, t) :: calls))
    with (t ++ [EvLog Info (MsgTaskDone (completed + 1) n dataset success)]
            ++ pooled_trace n (completed + 1) calls).
  by rewrite !batch_timeline_app, Ht, (IH _ _ _ Hrest).
Qed.

Lemma submit_all_trace ds w :
  submit_all ds w = (tt, w, EvSubmit <$> ds).
Proof.
  induction ds as [|d ds IH]; [done|]. simpl. io_run. by rewrite IH.
Qed.

Lemma tally_lookup_notin calls : ∀ results d,
  d ∉ calls.*1.*1 → tally results calls !! d = results !! d.
Proof.
  induction calls as [|c calls IH]; intros results d Hd; [done|].
  rewrite !fmap_cons, not_elem_of_cons in Hd. destruct Hd as [Hne Hd].
  unfold tally. simpl. fold (tally (<[c.1.1 := c.1.2]> results) calls).
  rewrite IH by done. by rewrite lookup_insert_ne.
Qed.

Lemma tally_lookup_in calls : ∀ results d b t,
  NoDup (calls.*1.*1) → (d, b, t) ∈ calls →
  tally results calls !! d = Some b.
Proof.
  induction calls as [|c calls IH]; intros results d b t Hnd Hin.
  { by apply elem_of_nil in Hin. }
  rewrite !fmap_cons in Hnd. apply NoDup_cons in Hnd as [Hnotin Hnd].
  unfold tally. simpl. fold (tally (<[c.1.1 := c.1.2]> results) calls).
  apply elem_of_cons in Hin as [<-|Hin].
  - rewrite tally_lookup_notin by done. apply lookup_insert_eq.
  - by eapply IH.
Qed.

(** C8 (amended). When the worker count (4 when not configured) is 1 or
    exactly one dataset is configured, [download_all] calls
    [download_dataset] on the datasets in list order, each call in the world
    the previous one left, with a pause of 2 seconds between two consecutive
    calls and none after the last.  Otherwise, when the worker count is
    positive, a pool of that size is created, every dataset is submitted, and
    whatever the order in which the futures complete every dataset gets its
    entry in the result.  Otherwise (worker count 0 or less) creating the
    pool raises [ValueError] before anything is submitted. *)
Theorem download_all_modes self order w :
  let ds := datasets (d_config self) in
  let workers := default 4 (max_workers (d_config self)) in
  let header :=
    [EvLog Info (MsgCount (length ds)); EvLog Info (MsgWorkers workers)] in
  (workers = 1 ∨ length ds = 1%nat →
     ∃ calls w',
       download_all self order w
         = (Returned (tally ∅ calls), w',
            header ++ sequential_trace (length ds) 1 calls)
       ∧ downloads self w calls w'
       ∧ calls.*1.*1 = ds
       ∧ batch_timeline (header ++ sequential_trace (length ds) 1 calls)
           = separated Pause (Start <$> ds)
       ∧ dom (tally ∅ calls) = list_to_set ds)
  ∧ (workers ≠ 1 → length ds ≠ 1%nat → 0 < workers →
     completion_order (length ds) order →
     ∃ calls w',
       download_all self order w
         = (Returned (tally ∅ calls), w',
            header ++ EvPool workers :: (EvSubmit <$> ds)
              ++ pooled_trace (length ds) 0 calls)
       ∧ downloads self w calls w'
       ∧ calls.*1.*1 ≡ₚ ds
       ∧ dom (tally ∅ calls) = list_to_set ds
       ∧ (NoDup ds → ∀ d b t, (d, b, t) ∈ calls → tally ∅ calls !! d = Some b))
  ∧ (workers ≠ 1 → length ds ≠ 1%nat → workers ≤ 0 →
     download_all self order w = (Raised ValueError, w, header)).
Proof.
  intros ds workers header. unfold download_all. fold ds. fold workers.
  unfold log. rewrite !io_bind_emit.
  split; [|split].
  - intros Hseq.
    assert ((workers =? 1) || (Z.of_nat (length ds) =? 1) = true) as ->.
    { apply orb_true_iff. destruct Hseq as [->| ->]; [by left|by right]. }
    destruct (download_sequential_run self (length ds) ds 1 ∅ w)
      as (calls & w' & Hrun & Hcalls & Hnames); [lia|].
    exists calls, w'. unfold io_bind at 1. rewrite Hrun. io_run.
    split; [by rewrite app_nil_r|]. split; [done|]. split; [done|]. split.
    + rewrite batch_timeline_app, (sequential_trace_timeline _ _ _ _ _ _ Hcalls).
      by rewrite Hnames.
    + by rewrite tally_dom, dom_empty_L, (left_id_L ∅ (∪)), Hnames.
  - intros Hw Hlen Hpos Horder.
    assert ((workers =? 1) || (Z.of_nat (length ds) =? 1) = false) as ->.
    { apply orb_false_iff. split; apply Z.eqb_neq; [done|lia]. }
    rewrite (proj2 (Z.leb_gt _ _) Hpos), io_bind_emit.
    unfold io_bind at 1. rewrite submit_all_trace.
    destruct (collect_download_run self ds order 0 ∅ w)
      as (calls & w' & Hrun & Hcalls & Hnames).
    assert (calls.*1.*1 ≡ₚ ds) as Hperm.
    { rewrite Hnames. by apply completion_order_items. }
    exists calls, w'. unfold io_bind at 1. rewrite Hrun. io_run.
    split; [by rewrite app_nil_r|]. split; [done|]. split; [done|]. split.
    + by rewrite tally_dom, dom_empty_L, (left_id_L ∅ (∪)), Hperm.
    + intros Hnd d b t Hin. eapply tally_lookup_in; [|done]. by rewrite Hperm.
  - intros Hw Hlen Hneg.
    assert ((workers =? 1) || (Z.of_nat (length ds) =? 1) = false) as ->.
    { apply orb_false_iff. split; apply Z.eqb_neq; [done|lia]. }
    by rewrite (proj2 (Z.leb_le _ _) Hneg).
Qed.

(** C8, counterexample to the claim as stated: two datasets and a worker
    count of 0; no dataset is submitted to a pool and no result is recorded,
    [download_all] raises. *)
Lemma download_all_zero_workers :
  let w := World ∅ [HttpResponse 200 Saved; HttpResponse 200 Saved] in
  default 4 (max_workers (d_config example_zero_workers)) ≠ 1
  ∧ length (datasets (d_config example_zero_workers)) ≠ 1%nat
  ∧ download_all example_zero_workers [0; 1]%nat w
      = (Raised ValueError, w,
         [EvLog Info (MsgCount 2); EvLog Info (MsgWorkers 0)]).
Proof. done. Qed.

(** The default pool of 4 workers, two datasets, the second future completing
    first: both datasets get their entry. *)
Lemma download_all_modes_witness :
  let w := World ∅ [HttpResponse 200 Saved; HttpResponse 403 Saved] in
  ∃ calls w',
    download_all example_self [1; 0]%nat w
      = (Returned (tally ∅ calls), w',
         [EvLog Info (MsgCount 2); EvLog Info (MsgWorkers 4)]
           ++ EvPool 4 :: (EvSubmit <$> ["CMU"; "KIT"])
           ++ pooled_trace 2 0 calls)
    ∧ downloads example_self w calls w'
    ∧ calls.*1.*1 ≡ₚ ["CMU"; "KIT"]
    ∧ dom (tally ∅ calls) = list_to_set ["CMU"; "KIT"]
    ∧ (NoDup ["CMU"; "KIT"] →
       ∀ d b t, (d, b, t) ∈ calls → tally ∅ calls !! d = Some b).
Proof.
  intros w.
  refine (proj1 (proj2 (download_all_modes example_self [1; 0]%nat w)) _ _ _ _).
  - done.
  - done.
  - done.
  - apply (Permutation_swap 0%nat 1%nat []).
Defined.

(** One worker, two datasets: CMU, a pause, KIT. *)
Lemma download_all_sequential_example :
  let w := World ∅ [HttpResponse 200 Saved; HttpResponse 403 Saved] in
  let run := download_all example_one_worker [] w in
  batch_timeline run.2 = [Start "CMU"; Pause; Start "KIT"]
  ∧ sleeps run.2 = [2]
  ∧ ∃ results, run.1.1 = Returned results
               ∧ results !! "CMU" = Some true ∧ results !! "KIT" = Some false.
Proof. vm_compute. split; [done|]. split; [done|]. eexists. done. Qed.

End download_all.

(** ** The extractor: batches *)

Section extractor.
Import Extractor ExtractTrace.

Lemma find_archives_run input_dir w :
  ∃ tr, find_archives input_dir w
          = (pathlib.child input_dir <$> glob_tar_bz2 (w_fs w) input_dir, w, tr)
        ∧ observed tr = [].
Proof.
  unfold find_archives, path_exists, log. io_run.
  case_bool_decide as Hex; simpl.
  - eexists. split; [reflexivity|done].
  - unfold glob_tar_bz2. assert (w_fs w !! input_dir = None) as ->.
    { by apply eq_None_not_Some. }
    eexists. split; [reflexivity|done].
Qed.

Lemma glob_tar_bz2_NoDup fs input_dir : NoDup (glob_tar_bz2 fs input_dir).
Proof.
  unfold glob_tar_bz2. destruct (fs !! input_dir) as [[]|]; try apply NoDup_nil_2.
  apply NoDup_ListNoDup, List.NoDup_filter, NoDup_ListNoDup, NoDup_elements.
Qed.

Lemma find_archives_NoDup input_dir w : NoDup (find_archives input_dir w).1.1.
Proof.
  destruct (find_archives_run input_dir w) as (tr & -> & _). simpl.
  apply NoDup_fmap_2; [|apply glob_tar_bz2_NoDup].
  intros x y. unfold pathlib.child. intros H.
  by do 2 apply (inj (String.append _)) in H.
Qed.

Lemma observed_app t1 t2 : observed (t1 ++ t2) = observed t1 ++ observed t2.
Proof. apply omap_app. Qed.

Lemma tar_extract_run m output_dir w :
  ∃ b w' tr, tar_extract m output_dir w = (b, w', tr) ∧ observed tr = [].
Proof.
  unfold tar_extract, set_fs. destruct (m_extracts m); io_run;
    eexists _, _, _; (split; [reflexivity|done]).
Qed.

Lemma extract_members_run tqdm name output_dir total members : ∀ i w,
  ∃ b w' tr,
    extract_members tqdm name output_dir total i members w = (b, w', tr)
    ∧ observed tr = [].
Proof.
  induction members as [|m members IH]; intros i w.
  - eexists _, _, _. split; [reflexivity|done].
  - simpl. unfold io_bind at 1.
    destruct (tar_extract_run m output_dir w) as ([] & w1 & t1 & -> & Ht1).
    + unfold io_bind at 1.
      destruct (IH (i + 1) w1) as (b & w2 & t2 & Hrun & Ht2).
      destruct tqdm; [|destruct ((i mod 100 =? 0) || (i =? total))];
        io_run; rewrite Hrun; eexists _, _, _; (split; [reflexivity|]);
        rewrite !observed_app, Ht1, Ht2; done.
    + io_run. eexists _, _, _. split; [reflexivity|].
      by rewrite observed_app, Ht1.
Qed.

Lemma makedirs_run path w :
  ∃ b w' tr, makedirs path w = (b, w', tr) ∧ observed tr = [].
Proof.
  unfold makedirs, set_fs. io_run.
  destruct (String.eqb path "");
    [by eexists _, _, _|].
  destruct (w_fs w !! path) as [[]|]; try case_bool_decide;
    eexists _, _, _; (split; [reflexivity|done]).
Qed.

Lemma extract_archive_run archive output_dir w :
  ∃ b w' tr,
    extract_archive archive output_dir w = (b, w', tr)
    ∧ observed tr = if b : bool then [] else [Failed archive].
Proof.
  unfold extract_archive, log. unfold io_bind at 1. unfold emit at 1.
  unfold io_bind at 1.
  destruct (makedirs_run output_dir w) as ([] & w1 & t1 & -> & Ht1).
  - unfold io_bind at 1. unfold get_world at 1.
    destruct (w_fs w1 !! archive) as [[| |members|]|];
      try (io_run; eexists _, _, _; (split; [reflexivity|]);
           simpl; rewrite !observed_app, Ht1; done).
    unfold io_bind at 1.
    destruct (extract_members_run (TQDM_AVAILABLE w1) (os_path_basename archive)
                output_dir (Z.of_nat (length members)) members 1 w1)
      as ([] & w2 & t2 & -> & Ht2);
      io_run; eexists _, _, _; (split; [reflexivity|]);
      simpl; rewrite !observed_app, Ht1, Ht2; done.
  - io_run. eexists _, _, _. split; [reflexivity|].
    simpl. rewrite !observed_app, Ht1. done.
Qed.

Lemma remove_source_run archive w :
  ∃ removed w' tr,
    remove_source archive w = (tt, w', tr)
    ∧ observed tr = if removed : bool then [Removal archive true]
                    else [Removal archive false; RemovalError archive].
Proof.
  unfold remove_source, os_remove, set_fs, log. io_run.
  destruct (w_fs w !! archive) as [[]|]; try case_bool_decide;
    first [ by exists true; eexists _, _ | by exists false; eexists _, _ ].
Qed.

Lemma visit_body_run archive output_dir delete w :
  ∃ v w1 t1 w2 t2,
    extract_archive archive output_dir w = (v_success v, w1, t1)
    ∧ (if v_success v && delete then remove_source archive else io_ret tt) w1
        = (tt, w2, t2)
    ∧ v_archive v = archive
    ∧ visit_ok delete v
    ∧ observed (t1 ++ t2) = visit_observed v.
Proof.
  destruct (extract_archive_run archive output_dir w) as (b & w1 & t1 & Hrun & Ht1).
  destruct b, delete; simpl.
  - destruct (remove_source_run archive w1) as (removed & w2 & t2 & Hrm & Ht2).
    exists (Visit archive true (Some removed)), w1, t1, w2, t2.
    split; [done|]. split; [done|]. split; [done|]. split.
    { unfold visit_ok. simpl. split; eauto. }
    rewrite observed_app, Ht1, Ht2. unfold visit_observed. simpl. by destruct removed.
  - exists (Visit archive true None), w1, t1, w1, [].
    split; [done|]. split; [done|]. split; [done|]. split.
    { unfold visit_ok. simpl. split; [by intros []|by intros []]. }
    by rewrite observed_app, Ht1.
  - exists (Visit archive false None), w1, t1, w1, [].
    split; [done|]. split; [done|]. split; [done|]. split.
    { unfold visit_ok. simpl. split; [by intros []|by intros []]. }
    by rewrite observed_app, Ht1.
  - exists (Visit archive false None), w1, t1, w1, [].
    split; [done|]. split; [done|]. split; [done|]. split.
    { unfold visit_ok. simpl. split; [by intros []|by intros []]. }
    by rewrite observed_app, Ht1.
Qed.

Lemma extract_sequential_run output_dir delete n : ∀ rest i results w,
  ∃ visits w' tr,
    extract_sequential output_dir delete n i rest results w
      = (record results visits, w', tr)
    ∧ v_archive <$> visits = rest
    ∧ Forall (visit_ok delete) visits
    ∧ observed tr = visits ≫= visit_observed.
Proof.
  induction rest as [|archive rest IH]; intros i results w.
  - exists [], w, []. done.
  - destruct (visit_body_run archive output_dir delete w)
      as (v & w1 & t1 & w2 & t2 & Hex & Hrm & Ha & Hok & Hobs).
    destruct (IH (i + 1) (<[archive := v_success v]> results) w2)
      as (visits & w' & tr & Hrun & Hvs & Hoks & Htr).
    eexists (v :: visits), w', _. split; [|split; [|split]].
    + simpl. unfold log. unfold io_bind at 1. unfold emit at 1.
      unfold io_bind at 1. rewrite Hex. unfold io_bind at 1. rewrite Hrm.
      rewrite Hrun. by rewrite Ha.
    + by rewrite fmap_cons, Ha, Hvs.
    + by constructor.
    + rewrite !observed_app, bind_cons, <-Htr, <-Hobs, observed_app, <-app_assoc.
      done.
Qed.

Lemma collect_run output_dir delete archives : ∀ order completed results w,
  ∃ visits w' tr,
    collect output_dir delete archives order completed results w
      = (record results visits, w', tr)
    ∧ v_archive <$> visits = omap (archives !!.) order
    ∧ Forall (visit_ok delete) visits
    ∧ observed tr = visits ≫= visit_observed.
Proof.
  induction order as [|future order IH]; intros completed results w.
  - exists [], w, []. done.
  - simpl. destruct (archives !! future) as [archive|] eqn:Hfut; [|apply IH].
    destruct (visit_body_run archive output_dir delete w)
      as (v & w1 & t1 & w2 & t2 & Hex & Hrm & Ha & Hok & Hobs).
    destruct (IH (completed + 1) (<[archive := v_success v]> results) w2)
      as (visits & w' & tr & Hrun & Hvs & Hoks & Htr).
    eexists (v :: visits), w', _. split; [|split; [|split]].
    + unfold io_bind at 1. rewrite Hex. unfold log. unfold io_bind at 1.
      unfold emit at 1. unfold io_bind at 1. rewrite Hrm. rewrite Hrun.
      unfold record. simpl. by rewrite Ha.
    + by rewrite fmap_cons, Ha, Hvs.
    + by constructor.
    + rewrite observed_app, bind_cons, <-Htr, <-Hobs, observed_app, <-app_assoc.
      f_equal. change (observed (?e :: t2 ++ tr)) with (observed (t2 ++ tr)).
      apply observed_app.
Qed.

(** Facts about [record]. *)
Lemma record_lookup_notin visits : ∀ results a,
  a ∉ v_archive <$> visits → record results visits !! a = results !! a.
Proof.
  induction visits as [|v visits IH]; intros results a Ha; [done|].
  rewrite fmap_cons, not_elem_of_cons in Ha. destruct Ha as [Hne Ha].
  unfold record. simpl. fold (record (<[v_archive v := v_success v]> results) visits).
  rewrite IH by done. by rewrite lookup_insert_ne.
Qed.

Lemma record_lookup_in visits : ∀ results v,
  NoDup (v_archive <$> visits) → v ∈ visits →
  record results visits !! v_archive v = Some (v_success v).
Proof.
  induction visits as [|v0 visits IH]; intros results v Hnd Hv.
  { by apply elem_of_nil in Hv. }
  rewrite fmap_cons in Hnd. apply NoDup_cons in Hnd as [Hnotin Hnd].
  unfold record. simpl. fold (record (<[v_archive v0 := v_success v0]> results) visits).
  apply elem_of_cons in Hv as [->|Hv].
  - rewrite record_lookup_notin by done. apply lookup_insert_eq.
  - by apply IH.
Qed.

Lemma record_lookup_Some visits a b :
  NoDup (v_archive <$> visits) →
  record ∅ visits !! a = Some b ↔
  ∃ v, v ∈ visits ∧ v_archive v = a ∧ v_success v = b.
Proof.
  intros Hnd. split.
  - intros H. destruct (decide (a ∈ v_archive <$> visits)) as [Hin|Hnotin].
    + apply list_elem_of_fmap in Hin as (v & -> & Hv).
      rewrite (record_lookup_in _ _ _ Hnd Hv) in H. injection H as <-. eauto.
    + by rewrite record_lookup_notin in H.
  - intros (v & Hv & <- & <-). by apply record_lookup_in.
Qed.



(** What is observed of a list of visits. *)
Lemma failures_visits visits :
  omap (λ o, match o with Failed p => Some p | _ => None end)
       (visits ≫= visit_observed)
  = v_archive <$> filter (λ v, v_success v = false) visits.
Proof.
  induction visits as [|v visits IH]; [done|].
  rewrite bind_cons, omap_app, IH, filter_cons. unfold visit_observed.
  destruct (v_success v) eqn:Hs.
  - rewrite decide_False by done. by destruct (v_removed v) as [[]|].
  - by rewrite decide_True by done.
Qed.

Lemma removals_visits visits p ok :
  (p, ok) ∈ omap (λ o, match o with Removal p ok => Some (p, ok) | _ => None end)
                 (visits ≫= visit_observed)
  ↔ ∃ v, v ∈ visits ∧ v_archive v = p ∧ v_success v = true
         ∧ v_removed v = Some ok.
Proof.
  rewrite list_elem_of_omap. split.
  - intros (o & Ho & Hp). apply list_elem_of_bind in Ho as (v & Ho & Hv).
    exists v. split; [done|]. unfold visit_observed in Ho.
    destruct (v_success v); [|by apply list_elem_of_singleton in Ho as ->].
    destruct (v_removed v) as [[]|]; rewrite ?elem_of_cons, ?elem_of_nil in Ho.
    + destruct Ho as [->|[]]. by injection Hp as <- <-.
    + destruct Ho as [->|[->|[]]]; [|done]. by injection Hp as <- <-.
    + done.
  - intros (v & Hv & <- & Hs & Hr). exists (Removal (v_archive v) ok).
    split; [|done]. apply list_elem_of_bind. exists v. split; [|done].
    unfold visit_observed. rewrite Hs, Hr. destruct ok; by left.
Qed.

Lemma removal_errors_visits visits p :
  p ∈ omap (λ o, match o with RemovalError p => Some p | _ => None end)
           (visits ≫= visit_observed)
  ↔ ∃ v, v ∈ visits ∧ v_archive v = p ∧ v_success v = true
         ∧ v_removed v = Some false.
Proof.
  rewrite list_elem_of_omap. split.
  - intros (o & Ho & Hp). apply list_elem_of_bind in Ho as (v & Ho & Hv).
    exists v. split; [done|]. unfold visit_observed in Ho.
    destruct (v_success v); [|by apply list_elem_of_singleton in Ho as ->].
    destruct (v_removed v) as [[]|]; rewrite ?elem_of_cons, ?elem_of_nil in Ho.
    + by destruct Ho as [->|[]].
    + destruct Ho as [->|[->|[]]]; [done|]. by injection Hp as <-.
    + done.
  - intros (v & Hv & <- & Hs & Hr). exists (RemovalError (v_archive v)).
    split; [|done]. apply list_elem_of_bind. exists v. split; [|done].
    unfold visit_observed. rewrite Hs, Hr. by right; left.
Qed.

Lemma submit_all_run archives w :
  ∃ tr, submit_all archives w = (tt, w, tr) ∧ observed tr = [].
Proof.
  induction archives as [|a archives (tr & IH & Htr)].
  - by exists [].
  - simpl. io_run. rewrite IH. eexists. split; [reflexivity|done].
Qed.

Lemma extract_all_cases input_dir output_dir workers delete order w :
  let archives := pathlib.child input_dir <$> glob_tar_bz2 (w_fs w) input_dir in
  completion_order (length archives) order →
  ∃ r w' tr visits,
    extract_all input_dir output_dir workers delete order w = (r, w', tr)
    ∧ observed tr = visits ≫= visit_observed
    ∧ Forall (visit_ok delete) visits
    ∧ ((archives = [] ∧ r = Returned ∅ ∧ w' = w ∧ visits = [])
       ∨ (archives ≠ [] ∧ workers ≠ 1 ∧ workers ≤ 0
          ∧ r = Raised ValueError ∧ w' = w ∧ visits = [])
       ∨ (archives ≠ [] ∧ (workers = 1 ∨ 0 < workers)
          ∧ r = Returned (record ∅ visits)
          ∧ v_archive <$> visits ≡ₚ archives)).
Proof.
  intros archives Horder. unfold extract_all. unfold io_bind at 1.
  destruct (find_archives_run input_dir w) as (tr0 & -> & Htr0).
  fold archives. destruct archives as [|a0 archives'] eqn:Harch.
  { unfold log. io_run. exists (Returned ∅), w. eexists _, [].
    split; [reflexivity|]. split; [by rewrite observed_app, Htr0|].
    split; [done|]. by left. }
  destruct (Z.eqb_spec workers 1) as [->|Hne].
  - destruct (extract_sequential_run output_dir delete (length (a0 :: archives'))
                (a0 :: archives') 1 ∅ w) as (visits & w' & tr & Hrun & Hvs & Hok & Hobs).
    unfold io_bind at 1. rewrite Hrun. io_run.
    exists (Returned (record ∅ visits)), w'. eexists _, visits.
    split; [reflexivity|]. split.
    { by rewrite !observed_app, Htr0, app_nil_r. }
    split; [done|]. right; right. split; [done|]. split; [by left|].
    split; [done|]. by rewrite Hvs.
  - unfold log. unfold io_bind at 1. unfold emit at 1.
    destruct (Z.leb_spec workers 0) as [Hle|Hpos].
    + io_run. exists (Raised ValueError), w. eexists _, [].
      split; [reflexivity|]. split; [by rewrite observed_app, Htr0|].
      split; [done|]. right; left. done.
    + unfold io_bind at 1. unfold emit at 1. unfold io_bind at 1.
      destruct (submit_all_run (a0 :: archives') w) as (ts & -> & Hts).
      destruct (collect_run output_dir delete (a0 :: archives') order 0 ∅ w)
        as (visits & w' & tr & Hrun & Hvs & Hok & Hobs).
      unfold io_bind at 1. rewrite Hrun. io_run.
      exists (Returned (record ∅ visits)), w'. eexists _, visits.
      split; [reflexivity|]. split.
      { rewrite !observed_app, Htr0, Hts, app_nil_r. done. }
      split; [done|]. right; right. split; [done|]. split; [by right|].
      split; [done|]. rewrite Hvs. by apply completion_order_items.
Qed.

Lemma log_failed_run items w :
  ∃ tr, log_failed items w = (tt, w, tr) ∧ observed tr = [].
Proof.
  induction items as [|[a b] items (tr & IH & Htr)].
  - by exists [].
  - simpl. unfold log. destruct b; io_run; rewrite IH;
      eexists; (split; [reflexivity|done]).
Qed.

Lemma print_summary_run results w :
  ∃ tr, print_summary results w = (tt, w, tr) ∧ observed tr = []
        ∧ EvLog Info (MsgSummary (size results)
                        (size (filter (λ kv, kv.2 = true) results))
                        (size results - size (filter (λ kv, kv.2 = true) results)))
          ∈ tr.
Proof.
  unfold print_summary, log. unfold io_bind, emit.
  destruct (_ <? _)%nat.
  - destruct (log_failed_run (map_to_list results) w) as (tr & -> & Htr).
    eexists. split; [reflexivity|]. split; [done|]. by left.
  - eexists. split; [reflexivity|]. split; [done|]. by left.
Qed.

Lemma load_config_ok path w content cfg :
  w_fs w !! path = Some (TextFile content (Some cfg)) →
  load_config path w = (Returned cfg, w, [EvLog Info (MsgConfigLoaded path)]).
Proof. intros H. unfold load_config, log. io_run. by rewrite H. Qed.

(** The batch branch of main in terms of extract_all. *)
Lemma main_batch a order w content cfg :
  w_fs w !! a_config a = Some (TextFile content (Some cfg)) →
  given (a_file a) = None →
  let input_dir := default (output_dir cfg) (given (a_input a)) in
  let output_dir :=
    default (os_path_join (output_dir cfg) "extracted") (given (a_output a)) in
  ∃ t0 t2,
    observed t0 = [] ∧ observed t2 = []
    ∧ main a order w =
        (let '(r, w1, t1) :=
           extract_all input_dir output_dir (a_workers a) (a_delete a) order w in
         (match r with
          | Returned results => if all_values results then 0 else 1
          | Raised e => exit_status e
          end, w1, t0 ++ t1 ++ t2))
    ∧ ∀ results,
        (extract_all input_dir output_dir (a_workers a) (a_delete a) order w).1.1
          = Returned results →
        EvLog Info (MsgSummary (size results)
                      (size (filter (λ kv, kv.2 = true) results))
                      (size results - size (filter (λ kv, kv.2 = true) results)))
          ∈ t2.
Proof.
  intros Hcfg Hfile input_dir output_dir. unfold main. unfold io_bind at 1.
  rewrite (load_config_ok _ _ _ _ Hcfg). unfold log. unfold io_bind at 1.
  unfold emit at 1. unfold io_bind at 1. unfold emit at 1. rewrite Hfile.
  fold input_dir. fold output_dir. unfold io_bind at 1.
  destruct (extract_all input_dir output_dir (a_workers a) (a_delete a) order w)
    as [[[results|e] w1] t1].
  - unfold io_bind at 1.
    destruct (print_summary_run results w1) as (ts & -> & Hts & Hsum).
    exists [EvLog Info (MsgConfigLoaded (a_config a));
            EvLog Info (MsgInputDir input_dir); EvLog Info (MsgOutputDir output_dir)].
    exists ts. split; [done|]. split; [done|]. split.
    + destruct (all_values results); io_run; by rewrite app_nil_r.
    + simpl. by intros ? [= <-].
  - io_run.
    exists [EvLog Info (MsgConfigLoaded (a_config a));
            EvLog Info (MsgInputDir input_dir); EvLog Info (MsgOutputDir output_dir)].
    exists []. split; [done|]. split; [done|]. split; [done|]. simpl. done.
Qed.

Lemma find_archives_value input_dir w :
  (find_archives input_dir w).1.1
    = pathlib.child input_dir <$> glob_tar_bz2 (w_fs w) input_dir.
Proof. by destruct (find_archives_run input_dir w) as (tr & -> & _). Qed.

(** C7. In a batch, [os.remove] is called on an archive exactly when the
    delete option is set and the extraction of that archive succeeded; a
    removal that fails is logged as an error, and the entry recorded for the
    archive stays [True]. *)
Theorem extract_all_deletion input_dir output_dir workers delete order w r w' tr
    archive :
  completion_order (length (find_archives input_dir w).1.1) order →
  extract_all input_dir output_dir workers delete order w = (r, w', tr) →
  ((∃ removed, (archive, removed) ∈ removals tr)
     ↔ delete = true
       ∧ ∃ results, r = Returned results ∧ results !! archive = Some true)
  ∧ ((archive, false) ∈ removals tr ↔ archive ∈ removal_errors tr)
  ∧ (archive ∈ removal_errors tr →
       ∃ results, r = Returned results ∧ results !! archive = Some true).
Proof.
  intros Horder Hrun.
  pose proof (find_archives_NoDup input_dir w) as Hnd.
  rewrite find_archives_value in *.
  destruct (extract_all_cases input_dir output_dir workers delete order w Horder)
    as (r0 & w0 & tr0 & visits & Hrun0 & Hobs & Hok & Hcases).
  rewrite Hrun in Hrun0. injection Hrun0 as <- <- <-.
  unfold removals, removal_errors. rewrite Hobs.
  assert (((archive, false) ∈ omap (λ o, match o with
                                         | Removal p ok => Some (p, ok)
                                         | _ => None
                                         end) (visits ≫= visit_observed))
          ↔ archive ∈ omap (λ o, match o with
                                  | RemovalError p => Some p
                                  | _ => None
                                  end) (visits ≫= visit_observed)) as Hlogged.
  { by rewrite removals_visits, removal_errors_visits. }
  destruct Hcases as [(_ & -> & _ & ->)|[(_ & _ & _ & -> & _ & ->)|(_ & _ & -> & Hperm)]].
  - split; [|split; [done|]].
    + split; [intros [? H]; by apply elem_of_nil in H|].
      intros (_ & results & [= <-] & H). by rewrite lookup_empty in H.
    + intros H. by apply elem_of_nil in H.
  - split; [|split; [done|]].
    + split; [intros [? H]; by apply elem_of_nil in H|].
      by intros (_ & results & ? & _).
    + intros H. by apply elem_of_nil in H.
  - assert (NoDup (v_archive <$> visits)) as Hndv by by rewrite Hperm.
    split; [|split; [done|]].
    + split.
      * intros (removed & H). apply removals_visits in H as (v & Hv & <- & Hs & Hr).
        rewrite Forall_forall in Hok.
        destruct (proj1 (Hok v Hv)) as [_ ->]; [by rewrite Hr|].
        split; [done|]. eexists. split; [done|].
        rewrite <-Hs. by apply record_lookup_in.
      * intros (-> & results & [= <-] & H).
        apply record_lookup_Some in H as (v & Hv & <- & Hs); [|done].
        rewrite Forall_forall in Hok.
        destruct (proj2 (Hok v Hv)) as [removed Hr]; [done|].
        exists removed. apply removals_visits. eauto.
    + intros H. apply removal_errors_visits in H as (v & Hv & <- & Hs & Hr).
      eexists. split; [done|]. rewrite <-Hs. by apply record_lookup_in.
Qed.

Lemma glob_nothing fs input_dir :
  (fs !! input_dir = None
   ∨ ∃ entries, fs !! input_dir = Some (Directory entries)
       ∧ ∀ name, name ∈ entries → pystr.endswith ".tar.bz2" name = false) →
  glob_tar_bz2 fs input_dir = [].
Proof.
  unfold glob_tar_bz2. intros [->|(entries & -> & Hnone)]; [done|].
  destruct (List.filter _ _) as [|name l] eqn:Hf; [done|].
  assert (In name (List.filter (pystr.endswith ".tar.bz2") (elements entries)))
    as Hin by (rewrite Hf; by left).
  apply List.filter_In in Hin as [Hin Hend].
  apply list_elem_of_In, elem_of_elements in Hin.
  by rewrite (Hnone _ Hin) in Hend.
Qed.

Lemma extract_all_no_archives input_dir output_dir workers delete order w :
  glob_tar_bz2 (w_fs w) input_dir = [] →
  ∃ tr,
    extract_all input_dir output_dir workers delete order w = (Returned ∅, w, tr)
    ∧ observed tr = []
    ∧ EvLog Warning MsgNothingToDo ∈ tr.
Proof.
  intros Hglob. unfold extract_all. unfold io_bind at 1.
  destruct (find_archives_run input_dir w) as (tr0 & -> & Htr0).
  rewrite Hglob. unfold log. io_run. eexists. split; [reflexivity|].
  split; [by rewrite observed_app, Htr0|].
  apply elem_of_app. right. by left.
Qed.

(** C10. When the input directory does not exist, or holds no entry whose
    name ends in [.tar.bz2], [extract_all] returns the empty mapping and
    leaves the world as it is, and the batch run of [main] ends with exit
    status 0 and a summary of 0 archives, 0 failed. *)
Theorem extract_all_nothing_to_do :
  (∀ input_dir output_dir workers delete order w,
     (w_fs w !! input_dir = None
      ∨ ∃ entries, w_fs w !! input_dir = Some (Directory entries)
          ∧ ∀ name, name ∈ entries → pystr.endswith ".tar.bz2" name = false) →
     ∃ tr,
       extract_all input_dir output_dir workers delete order w
         = (Returned ∅, w, tr)
       ∧ observed tr = []
       ∧ EvLog Warning MsgNothingToDo ∈ tr)
  ∧ (∀ a order w content cfg,
     w_fs w !! a_config a = Some (TextFile content (Some cfg)) →
     given (a_file a) = None →
     (let input_dir := default (output_dir cfg) (given (a_input a)) in
      w_fs w !! input_dir = None
      ∨ ∃ entries, w_fs w !! input_dir = Some (Directory entries)
          ∧ ∀ name, name ∈ entries → pystr.endswith ".tar.bz2" name = false) →
     ∃ tr,
       main a order w = (0, w, tr)
       ∧ observed tr = []
       ∧ EvLog Info (MsgSummary 0 0 0) ∈ tr).
Proof.
  split.
  - intros input_dir output_dir workers delete order w H.
    by apply extract_all_no_archives, glob_nothing.
  - intros a order w content cfg Hcfg Hfile Hdir.
    destruct (main_batch a order w content cfg Hcfg Hfile)
      as (t0 & t2 & Ht0 & Ht2 & Heq & Hsum).
    destruct (extract_all_no_archives _
                (default (os_path_join (output_dir cfg) "extracted") (given (a_output a)))
                (a_workers a) (a_delete a) order w (glob_nothing _ _ Hdir))
      as (t1 & Hrun & Ht1 & _).
    rewrite Hrun in Heq, Hsum. simpl in Heq, Hsum.
    eexists. split; [exact Heq|]. split.
    + by rewrite !observed_app, Ht0, Ht1, Ht2.
    + rewrite !elem_of_app. right; right.
      specialize (Hsum ∅ eq_refl).
      by rewrite map_filter_empty, map_size_empty in Hsum.
Qed.

Lemma example_completion_order : completion_order 3 [2; 0; 1]%nat.
Proof. apply (Permutation_cons_append [0; 1]%nat 2%nat). Qed.

(** The same batch with one worker and the delete option: the third archive
    is extracted, its removal is refused and logged, and its entry is
    [True]. *)
Lemma extract_all_deletion_witness :
  let run := extract_all "in" "out" 1 true [2; 0; 1]%nat example_batch in
  ((∃ removed, ("in/c.tar.bz2", removed) ∈ removals run.2)
     ↔ true = true
       ∧ ∃ results, run.1.1 = Returned results
                    ∧ results !! "in/c.tar.bz2" = Some true)
  ∧ (("in/c.tar.bz2", false) ∈ removals run.2
       ↔ "in/c.tar.bz2" ∈ removal_errors run.2)
  ∧ ("in/c.tar.bz2" ∈ removal_errors run.2 →
       ∃ results, run.1.1 = Returned results
                  ∧ results !! "in/c.tar.bz2" = Some true).
Proof.
  intros run.
  apply (extract_all_deletion "in" "out" 1 true [2; 0; 1]%nat example_batch
           run.1.1 run.1.2 run.2 "in/c.tar.bz2").
  - exact example_completion_order.
  - unfold run. by destruct (extract_all _ _ _ _ _ _) as [[? ?] ?].
Defined.

(** What that run shows: the corrupt archive is never removed, the first
    one is, the removal of the third fails. *)
Lemma extract_all_deletion_example :
  removals (extract_all "in" "out" 1 true [] example_batch).2
    = [("in/c.tar.bz2", false); ("in/a.tar.bz2", true)]
  ∧ removal_errors (extract_all "in" "out" 1 true [] example_batch).2
    = ["in/c.tar.bz2"]
  ∧ failures (extract_all "in" "out" 1 true [] example_batch).2
    = ["in/b.tar.bz2"].
Proof. vm_compute. done. Qed.

(** An input directory that does not exist: exit status 0. *)
Lemma extract_all_nothing_to_do_witness :
  ∃ tr,
    main (Args "config.json" (Some "nowhere") (Some "out") 4 true None) []
         example_batch
      = (0, example_batch, tr)
    ∧ observed tr = []
    ∧ EvLog Info (MsgSummary 0 0 0) ∈ tr.
Proof.
  apply (proj2 extract_all_nothing_to_do
           (Args "config.json" (Some "nowhere") (Some "out") 4 true None) []
           example_batch "{}" example_extract_config).
  - reflexivity.
  - reflexivity.
  - left. reflexivity.
Defined.

End extractor.

(** * Runs of the downloader *)

Section download_runs.
Import Downloader DownloadTrace DownloadRun.

Lemma verdict_true path ans :
  verdict path ans = Some true ↔
  ans = HttpResponse 200 Saved ∧ os_path_dirname path ≠ "".
Proof.
  split.
  - destruct ans as [|status sv]; simpl; [done|].
    destruct (Z.eqb_spec status 200) as [->|H2].
    + destruct (String.eqb_spec (os_path_dirname path) "") as [Hd|Hd]; [done|].
      by destruct sv.
    + by destruct ((status =? 401) || (status =? 403)).
  - intros [-> Hd]. by apply verdict_saved.
Qed.

Lemma verdict_false path ans :
  verdict path ans = Some false ↔
  ∃ status sv, ans = HttpResponse status sv ∧ (status = 401 ∨ status = 403).
Proof.
  split.
  - destruct ans as [|status sv]; simpl; [done|].
    destruct (Z.eqb_spec status 200) as [->|H2].
    + destruct (String.eqb (os_path_dirname path) ""); [done|]. by destruct sv.
    + destruct (Z.eqb_spec status 401) as [->|H4]; [eauto|].
      destruct (Z.eqb_spec status 403) as [->|H3]; [eauto|]. done.
  - intros (status & sv & -> & Hst). by apply verdict_auth.
Qed.

(** One attempt: the next answer is taken, one request is made with the
    cookies of the session and the configured timeout, and no path other
    than the output path is written. *)
Lemma attempt_once_run self url path mr a w :
  ∃ fs' tr,
    attempt_once self url path mr a w
      = (verdict path (hd HttpRaised (w_server w)), World fs' (tl (w_server w)), tr)
    ∧ timeline tr = [Request url]
    ∧ gets tr = [(url, s_cookies (d_session self), timeout (d_config self))]
    ∧ (writes tr = [] ∧ fs' = w_fs w
       ∨ writes tr = [path] ∧ fs' = <[path := Blob]> (w_fs w))
    ∧ (verdict path (hd HttpRaised (w_server w)) = Some true → writes tr = [path])
    ∧ (os_path_dirname path = "" → writes tr = []).
Proof.
  destruct w as [fs srv].
  unfold attempt_once, io_bind, log, emit, session_get, save_body. simpl.
  destruct (hd HttpRaised srv) as [|status sv]; simpl.
  - eexists _, _. split; [reflexivity|]. split; [done|]. split; [done|].
    split; [by left|done].
  - destruct (status =? 200).
    + destruct (String.eqb_spec (os_path_dirname path) "") as [Hd|Hd].
      { eexists _, _. split; [reflexivity|]. split; [done|]. split; [done|].
        split; [by left|done]. }
      destruct sv as [|[]]; simpl; eexists _, _; (split; [reflexivity|]);
        (split; [done|]); (split; [done|]);
        (split; [first [by left|by right]|done]).
    + destruct ((status =? 401) || (status =? 403)); simpl;
        eexists _, _; (split; [reflexivity|]);
        (split; [done|]); (split; [done|]); (split; [by left|done]).
Qed.

Lemma gets_app t1 t2 : gets (t1 ++ t2) = gets t1 ++ gets t2.
Proof. apply omap_app. Qed.
Lemma writes_app t1 t2 : writes (t1 ++ t2) = writes t1 ++ writes t2.
Proof. apply omap_app. Qed.
Lemma timeline_app t1 t2 : timeline (t1 ++ t2) = timeline t1 ++ timeline t2.
Proof. apply omap_app. Qed.

Lemma written_app path fs ws1 ws2 :
  written path (written path fs ws1) ws2 = written path fs (ws1 ++ ws2).
Proof.
  destruct ws1 as [|p ws1], ws2 as [|q ws2]; simpl; try done.
  by rewrite insert_insert_eq.
Qed.

Lemma answer_hd srv : answer srv 0 = hd HttpRaised srv.
Proof. by destruct srv. Qed.
Lemma answer_tl srv i : answer (tl srv) i = answer srv (S i).
Proof. by destruct srv. Qed.

Lemma drop_tl {A} (l : list A) n : drop n (tl l) = drop (S n) l.
Proof. destruct l; simpl; [by rewrite drop_nil|done]. Qed.

(** The loop of [download_file] from attempt [a] on, [n] attempts being
    left: it makes [k ≤ n] requests. *)
Lemma download_attempts_shape self url path mr : ∀ (n a : nat) fs srv,
  mr = Z.of_nat (a + n) →
  ∃ (k : nat) ok tr,
    download_attempts self url path mr (Z.of_nat <$> seq a n) (World fs srv)
      = (ok, World (written path fs (writes tr)) (drop k srv), tr)
    ∧ (k ≤ n)%nat ∧ (k = 0%nat → n = 0%nat)
    ∧ timeline tr = retry_timeline url (S a) k
    ∧ gets tr = replicate k (url, s_cookies (d_session self), timeout (d_config self))
    ∧ Forall (λ p, p = path) (writes tr)
    ∧ (length (writes tr) ≤ k)%nat
    ∧ (os_path_dirname path = "" → writes tr = [])
    ∧ (∀ i, (S i < k)%nat → verdict path (answer srv i) = None)
    ∧ (ok = true → ∃ j, k = S j ∧ verdict path (answer srv j) = Some true
                        ∧ writes tr ≠ [])
    ∧ (ok = false →
         (k = n ∧ ∀ i, (i < k)%nat → verdict path (answer srv i) = None)
         ∨ ∃ j, k = S j ∧ verdict path (answer srv j) = Some false).
Proof.
  induction n as [|n IH]; intros a fs srv Hmr.
  - exists 0%nat, false, [EvLog Error (MsgRetriesExhausted url)].
    split; [done|]. split; [done|].
    split; [done|]. split; [done|]. split; [done|]. split; [done|].
    split; [done|]. split; [done|]. split; [intros; lia|].
    split; [done|]. intros _. left. split; [done|]. intros; lia.
  - destruct (attempt_once_run self url path mr (Z.of_nat a) (World fs srv))
      as (fs1 & tr1 & Hrun1 & Htl & Hg & Hw & Hsucc & Hnodir1).
    cbn [w_server w_fs] in Hrun1, Hw, Hsucc. rewrite <-answer_hd in Hrun1, Hsucc.
    rewrite <-cons_seq, fmap_cons.
    assert (fs1 = written path fs (writes tr1)) as Hfs1.
    { by destruct Hw as [[-> ->]|[-> ->]]. }
    assert (Forall (λ p, p = path) (writes tr1)) as Hall1.
    { destruct Hw as [[-> _]|[-> _]]; [done|by constructor]. }
    destruct (verdict path (answer srv 0)) as [b|] eqn:Hv.
    + rewrite (download_attempts_return _ _ _ _ _ _ _ _ _ _ Hrun1).
      exists 1%nat, b, tr1. rewrite Hfs1, <-drop_tl, drop_0.
      split; [done|]. split; [lia|]. split; [done|]. split; [done|].
      split; [done|]. split; [done|].
      split; [destruct Hw as [[-> _]|[-> _]]; simpl; lia|].
      split; [done|]. split; [intros; lia|]. split.
      * intros ->. exists 0%nat. split; [done|]. split; [done|].
        rewrite Hsucc by done. done.
      * intros ->. right. by exists 0%nat.
    + destruct (IH (S a) fs1 (tl srv))
        as (k & ok & tr & Hrun & Hk & Hk0 & Ht & Hgs & Hall & Hlen & Hnodir & Hnone & Htrue & Hfalse);
        [lia|].
      rewrite (download_attempts_retry _ _ _ _ _ _ _ _ _ _ _ _ Hrun1 Hrun).
      assert (∀ t, writes (tr1 ++ (if Z.of_nat a <? mr - 1
                                   then [EvLog Info (MsgWait (5 * (Z.of_nat a + 1)));
                                         EvSleep (5 * (Z.of_nat a + 1))]
                                   else []) ++ t) = writes tr1 ++ writes t) as Hwr.
      { intros t. rewrite !writes_app. by destruct (Z.of_nat a <? mr - 1). }
      assert (∀ t, gets (tr1 ++ (if Z.of_nat a <? mr - 1
                                 then [EvLog Info (MsgWait (5 * (Z.of_nat a + 1)));
                                       EvSleep (5 * (Z.of_nat a + 1))]
                                 else []) ++ t) = gets tr1 ++ gets t) as Hgt.
      { intros t. rewrite !gets_app. by destruct (Z.of_nat a <? mr - 1). }
      exists (S k), ok. eexists. split.
      { rewrite Hwr, <-written_app, <-Hfs1, <-drop_tl. reflexivity. }
      split; [lia|]. split; [done|]. split.
      { subst mr. rewrite !timeline_app, Htl, Ht, retry_guard.
        destruct n as [|n].
        - assert (k = 0)%nat as -> by lia. done.
        - rewrite bool_decide_true by lia.
          destruct k as [|k]; [lia|]. simpl. do 3 f_equal. lia. }
      split; [by rewrite Hgt, Hg, Hgs|].
      split; [rewrite Hwr; by apply Forall_app|].
      split.
      { rewrite Hwr, length_app. destruct Hw as [[-> _]|[-> _]]; simpl; lia. }
      split; [intros Hd; by rewrite Hwr, Hnodir1, Hnodir|].
      split.
      { intros [|i] Hi; [done|]. rewrite <-answer_tl. apply Hnone. lia. }
      split.
      * intros Hok. destruct (Htrue Hok) as (j & -> & Hj & Hne).
        exists (S j). split; [done|]. rewrite <-answer_tl. split; [done|].
        rewrite Hwr. intros [_ ?]%app_eq_nil. done.
      * intros Hok. destruct (Hfalse Hok) as [[-> Hallnone]|(j & -> & Hj)].
        -- left. split; [done|]. intros [|i] Hi; [done|].
           rewrite <-answer_tl. apply Hallnone. lia.
        -- right. exists (S j). by rewrite <-answer_tl.
Qed.

Lemma requests_gets tr : requests tr = (λ g, g.1.1) <$> gets tr.
Proof.
  induction tr as [|[] tr IH]; simpl; try done. by f_equal.
Qed.

Lemma length_requests_gets tr : length (requests tr) = length (gets tr).
Proof. by rewrite requests_gets, length_fmap. Qed.

(** [download_file] in any world. *)
Lemma download_file_shape self url path mr fs srv :
  ∃ (k : nat) ok tr,
    download_file self url path mr (World fs srv)
      = (ok, World (written path fs (writes tr)) (drop k srv), tr)
    ∧ (k ≤ Z.to_nat mr)%nat
    ∧ timeline tr = retry_timeline url 1 k
    ∧ gets tr = replicate k (url, s_cookies (d_session self), timeout (d_config self))
    ∧ Forall (λ p, p = path) (writes tr)
    ∧ (length (writes tr) ≤ k)%nat
    ∧ (os_path_dirname path = "" → writes tr = [])
    ∧ (∀ i, (S i < k)%nat → verdict path (answer srv i) = None)
    ∧ (ok = true → ∃ j, k = S j ∧ verdict path (answer srv j) = Some true
                        ∧ writes tr ≠ [])
    ∧ (ok = false →
         (k = Z.to_nat mr ∧ ∀ i, (i < k)%nat → verdict path (answer srv i) = None)
         ∨ ∃ j, k = S j ∧ verdict path (answer srv j) = Some false).
Proof.
  unfold download_file, range.
  destruct (Z.le_gt_cases mr 0) as [Hneg|Hpos].
  - replace (Z.to_nat mr) with 0%nat by lia.
    exists 0%nat, false, [EvLog Error (MsgRetriesExhausted url)].
    split; [done|]. split; [done|].
    split; [done|]. split; [done|]. split; [done|]. split; [done|].
    split; [done|]. split; [intros; lia|].
    split; [done|]. intros _. left. split; [done|]. intros; lia.
  - destruct (download_attempts_shape self url path mr (Z.to_nat mr) 0 fs srv)
      as (k & ok & tr & Hrun & Hk & _ & Hrest); [lia|].
    exists k, ok, tr. split; [done|]. split; [done|]. done.
Qed.

Lemma answer_Some srv i ans :
  ans ≠ HttpRaised → answer srv i = ans → srv !! i = Some ans.
Proof.
  unfold answer. destruct (srv !! i); simpl; [by intros _ ->|]. by intros ? <-.
Qed.

(** X1. A run of [download_file] makes [k] requests for [url], at most
    [max_retries], separated by waits of 5, 10, ... seconds, none after the
    last, and consumes the answers to them; every request but the last is a
    failed attempt.  When it returns [True], the last answer had status 200,
    its body was saved and the file is there.  When it returns [False],
    either all of [max_retries] attempts failed, or the last answer had
    status 401 or 403. *)
Theorem download_file_run self url path max_retries w :
  ∃ k : nat,
    let run := download_file self url path max_retries w in
    (k ≤ Z.to_nat max_retries)%nat
    ∧ timeline run.2 = retry_timeline url 1 k
    ∧ w_server run.1.2 = drop k (w_server w)
    ∧ (∀ i, (S i < k)%nat → failed_attempt path (answer (w_server w) i))
    ∧ (run.1.1 = true →
         ∃ j, k = S j ∧ w_server w !! j = Some (HttpResponse 200 Saved)
              ∧ w_fs run.1.2 !! path = Some Blob)
    ∧ (run.1.1 = false →
         (k = Z.to_nat max_retries
          ∧ ∀ i, (i < k)%nat → failed_attempt path (answer (w_server w) i))
         ∨ ∃ j status sv,
             k = S j ∧ w_server w !! j = Some (HttpResponse status sv)
             ∧ (status = 401 ∨ status = 403)).
Proof.
  destruct w as [fs srv].
  destruct (download_file_shape self url path max_retries fs srv)
    as (k & ok & tr & Hrun & Hk & Ht & _ & Hall & _ & _ & Hnone & Htrue & Hfalse).
  exists k. cbv zeta. rewrite Hrun. cbn [fst snd w_server w_fs].
  split; [done|]. split; [done|]. split; [done|]. split.
  { intros i Hi. apply failed_attempt_verdict. by apply Hnone. }
  split.
  - intros Hok. destruct (Htrue Hok) as (j & -> & Hj & Hne).
    exists j. split; [done|]. apply verdict_true in Hj as [Hj _]. split.
    + by apply answer_Some.
    + destruct (writes tr); [done|]. apply lookup_insert_eq.
  - intros Hok. destruct (Hfalse Hok) as [[-> Hallnone]|(j & -> & Hj)].
    + left. split; [done|]. intros i Hi. apply failed_attempt_verdict. auto.
    + right. apply verdict_false in Hj as (status & sv & Hj & Hst).
      exists j, status, sv. split; [done|]. split; [|done]. by apply answer_Some.
Qed.


(** [download_dataset] in any world: the file is there and nothing is
    done, or [download_file] runs for the url and the destination of the
    dataset. *)
Lemma download_dataset_cases self dataset fs srv :
  let cfg := d_config self in
  let path := destination cfg dataset in
  let url := (get_download_url dataset (body_model cfg) (gender cfg)).1 in
  (is_Some (fs !! path)
   ∧ ∃ tr, download_dataset self dataset (World fs srv) = (true, World fs srv, tr)
           ∧ gets tr = [] ∧ writes tr = [] ∧ timeline tr = [])
  ∨ (fs !! path = None
     ∧ ∃ (k : nat) ok tr,
         download_dataset self dataset (World fs srv)
           = (ok, World (written path fs (writes tr)) (drop k srv), tr)
         ∧ (k ≤ Z.to_nat (max_retries cfg))%nat
         ∧ timeline tr = retry_timeline url 1 k
         ∧ gets tr = replicate k (url, s_cookies (d_session self), timeout cfg)
         ∧ Forall (λ p, p = path) (writes tr)
         ∧ (length (writes tr) ≤ k)%nat
         ∧ (os_path_dirname path = "" → writes tr = [])
         ∧ (∀ i, (S i < k)%nat → verdict path (answer srv i) = None)
         ∧ (ok = true → ∃ j, k = S j ∧ verdict path (answer srv j) = Some true
                             ∧ writes tr ≠ [])
         ∧ (ok = false →
              (k = Z.to_nat (max_retries cfg)
               ∧ ∀ i, (i < k)%nat → verdict path (answer srv i) = None)
              ∨ ∃ j, k = S j ∧ verdict path (answer srv j) = Some false)).
Proof.
  intros cfg path url. unfold path, url, destination, download_dataset. fold cfg.
  destruct (get_download_url dataset (body_model cfg) (gender cfg))
    as [download_url filename].
  cbn [fst snd]. unfold log, path_exists. io_run. cbn [w_fs].
  case_bool_decide as Hex.
  - left. split; [done|]. eexists. split; [reflexivity|]. done.
  - right. split; [by apply eq_None_not_Some|].
    destruct (download_file_shape self download_url
                (os_path_join (output_dir cfg) filename) (max_retries cfg) fs srv)
      as (k & ok & tr & Hrun & Hrest).
    rewrite Hrun. exists k, ok.
    exists ([EvLog Info (MsgPrepare dataset);
             EvLog Info (MsgBodyModel (body_model cfg));
             EvLog Info (MsgGender (gender cfg));
             EvLog Info (MsgUrl download_url)] ++ tr).
    split; [reflexivity|]. exact Hrest.
Qed.


(** X2. Every request of [download_dataset] asks for the url that
    [get_download_url] gives for the dataset, with the cookies of the session
    and the configured timeout; there are at most [max_retries] of them, and
    the only file ever opened for writing is the destination of the dataset,
    at most once for each request. *)
Theorem download_dataset_requests self dataset w :
  let cfg := d_config self in
  let tr := (download_dataset self dataset w).2 in
  gets tr = replicate (length (requests tr))
              ((get_download_url dataset (body_model cfg) (gender cfg)).1,
               s_cookies (d_session self), timeout cfg)
  ∧ (length (requests tr) ≤ Z.to_nat (max_retries cfg))%nat
  ∧ (length (writes tr) ≤ length (requests tr))%nat
  ∧ Forall (λ p, p = destination cfg dataset) (writes tr).
Proof.
  intros cfg tr. unfold tr. destruct w as [fs srv].
  destruct (download_dataset_cases self dataset fs srv)
    as [(_ & t & -> & Hg & Hw & _)
       |(_ & k & ok & t & -> & Hk & _ & Hg & Hall & Hlen & _)];
    cbn [snd]; rewrite length_requests_gets, Hg.
  - rewrite Hw. simpl. split; [done|]. split; [lia|]. split; [lia|done].
  - rewrite length_replicate. done.
Qed.

(** X3. After a call of [download_dataset] that returned [True], a second
    call for the same dataset returns [True] without any request, write or
    wait, and leaves the world as it is. *)
Theorem download_dataset_idempotent self dataset w :
  (download_dataset self dataset w).1.1 = true →
  ∃ tr',
    download_dataset self dataset (download_dataset self dataset w).1.2
      = (true, (download_dataset self dataset w).1.2, tr')
    ∧ requests tr' = [] ∧ writes tr' = [] ∧ sleeps tr' = [].
Proof.
  destruct w as [fs srv].
  destruct (download_dataset_cases self dataset fs srv)
    as [(Hex & t & Hrun & _)
       |(_ & k & ok & t & Hrun & _ & _ & _ & _ & _ & _ & _ & Htrue & _)];
    rewrite Hrun; cbn [fst snd]; intros Hok.
  - destruct (download_dataset_cases self dataset fs srv)
      as [(_ & t' & Hrun' & Hg & Hw & Ht)|(Hnone & _)].
    + exists t'. split; [done|]. rewrite requests_gets, Hg.
      split; [done|]. split; [done|]. by rewrite sleeps_timeline, Ht.
    + rewrite Hnone in Hex. by destruct Hex.
  - destruct (Htrue Hok) as (j & _ & _ & Hne).
    destruct (download_dataset_cases self dataset
                (written (destination (d_config self) dataset) fs (writes t))
                (drop k srv))
      as [(_ & t' & Hrun' & Hg & Hw & Ht)|(Hnone & _)].
    + exists t'. split; [done|]. rewrite requests_gets, Hg.
      split; [done|]. split; [done|]. by rewrite sleeps_timeline, Ht.
    + destruct (writes t); [done|]. simpl in Hnone.
      by rewrite lookup_insert_eq in Hnone.
Qed.

(** The archive of KIT is downloaded by the first call. *)
Lemma download_dataset_idempotent_witness :
  ∃ tr',
    download_dataset example_self "KIT"
        (download_dataset example_self "KIT" example_world).1.2
      = (true, (download_dataset example_self "KIT" example_world).1.2, tr')
    ∧ requests tr' = [] ∧ writes tr' = [] ∧ sleeps tr' = [].
Proof.
  apply (download_dataset_idempotent example_self "KIT" example_world).
  vm_compute. reflexivity.
Defined.

(** X4. A call of [download_dataset] that failed after it had opened the
    destination file leaves that file behind: the next call for the same
    dataset finds it, returns [True] and makes no request. *)
Theorem download_dataset_partial_file self dataset w :
  (download_dataset self dataset w).1.1 = false →
  writes (download_dataset self dataset w).2 ≠ [] →
  ∃ tr',
    download_dataset self dataset (download_dataset self dataset w).1.2
      = (true, (download_dataset self dataset w).1.2, tr')
    ∧ requests tr' = [].
Proof.
  destruct w as [fs srv].
  destruct (download_dataset_cases self dataset fs srv)
    as [(Hex & t & Hrun & _)
       |(_ & k & ok & t & Hrun & _)];
    rewrite Hrun; cbn [fst snd]; intros Hok Hne; [done|].
  destruct (download_dataset_cases self dataset
              (written (destination (d_config self) dataset) fs (writes t))
              (drop k srv))
    as [(_ & t' & Hrun' & Hg & Hw & Ht)|(Hnone & _)].
  - exists t'. split; [done|]. by rewrite requests_gets, Hg.
  - destruct (writes t); [done|]. simpl in Hnone.
    by rewrite lookup_insert_eq in Hnone.
Qed.

(** The connection breaks while the body of the only answer is saved. *)
Lemma download_dataset_partial_file_witness :
  let w := World ∅ [HttpResponse 200 (SaveRaised true)] in
  ∃ tr',
    download_dataset example_self "KIT"
        (download_dataset example_self "KIT" w).1.2
      = (true, (download_dataset example_self "KIT" w).1.2, tr')
    ∧ requests tr' = [].
Proof.
  intros w. apply (download_dataset_partial_file example_self "KIT" w).
  - vm_compute. reflexivity.
  - vm_compute. discriminate.
Defined.

(** X5. When the destination of a dataset has no directory part (an empty
    [output_dir]) and does not exist, [download_dataset] returns [False]
    whatever the endpoint answers: nothing is written, and the file system
    is left as it was. *)
Theorem download_dataset_needs_directory self dataset w :
  os_path_dirname (destination (d_config self) dataset) = "" →
  w_fs w !! destination (d_config self) dataset = None →
  ∃ tr,
    download_dataset self dataset w
      = (false, World (w_fs w) (drop (length (requests tr)) (w_server w)), tr)
    ∧ writes tr = [].
Proof.
  intros Hdir Habsent. destruct w as [fs srv]. cbn [w_fs w_server] in *.
  destruct (download_dataset_cases self dataset fs srv)
    as [(Hex & _)
       |(_ & k & ok & t & Hrun & _ & _ & Hg & _ & _ & Hnodir & _ & Htrue & _)].
  { rewrite Habsent in Hex. by destruct Hex. }
  exists t. rewrite Hrun, (Hnodir Hdir), length_requests_gets, Hg, length_replicate.
  split; [|done]. destruct ok; [|done].
  destruct (Htrue eq_refl) as (j & _ & Hj & _).
  by apply verdict_true in Hj as [_ ?].
Qed.

(** An empty output directory, an endpoint that would serve the archive. *)
Lemma download_dataset_needs_directory_witness :
  let self :=
    Self (Config "" "cookies.txt" 30 3 None "SMPL-X" "male" ["CMU"])
         (Session ∅ ∅) ∅ in
  let w := World ∅ [HttpResponse 200 Saved] in
  ∃ tr,
    download_dataset self "CMU" w
      = (false, World (w_fs w) (drop (length (requests tr)) (w_server w)), tr)
    ∧ writes tr = [].
Proof.
  intros self w. apply (download_dataset_needs_directory self "CMU" w).
  - vm_compute. reflexivity.
  - vm_compute. reflexivity.
Defined.

(** X6. With [max_retries] zero or negative and no destination file,
    [download_dataset] returns [False] without a request, a write or a wait,
    the world unchanged; its last log line is the error that the maximum
    number of retries was reached. *)
Theorem download_dataset_no_attempt self dataset w :
  max_retries (d_config self) ≤ 0 →
  w_fs w !! destination (d_config self) dataset = None →
  ∃ tr, download_dataset self dataset w = (false, w, tr)
        ∧ requests tr = [] ∧ writes tr = [] ∧ sleeps tr = []
        ∧ last tr = Some (EvLog Error
                            (MsgRetriesExhausted
                               (get_download_url dataset (body_model (d_config self))
                                                 (gender (d_config self))).1)).
Proof.
  intros Hmr Habsent. unfold destination in Habsent.
  unfold download_dataset.
  destruct (get_download_url dataset _ _) as [download_url filename].
  cbn [fst snd] in *. unfold log, path_exists. io_run.
  rewrite bool_decide_false by (rewrite Habsent; by intros []).
  unfold download_file. rewrite (range_nonpositive _ Hmr). simpl.
  eexists. split; [reflexivity|]. done.
Qed.

(** A configuration with [max_retries] 0. *)
Lemma download_dataset_no_attempt_witness :
  let self :=
    Self (Config "out" "cookies.txt" 30 0 None "SMPL-X" "male" ["CMU"])
         (Session ∅ ∅) ∅ in
  let w := World ∅ [HttpResponse 200 Saved] in
  ∃ tr, download_dataset self "CMU" w = (false, w, tr)
        ∧ requests tr = [] ∧ writes tr = [] ∧ sleeps tr = []
        ∧ last tr = Some (EvLog Error
                            (MsgRetriesExhausted
                               (get_download_url "CMU" "SMPL-X" "male").1)).
Proof.
  intros self w. apply (download_dataset_no_attempt self "CMU" w).
  - vm_compute. discriminate.
  - vm_compute. reflexivity.
Defined.

End download_runs.

Section cookie_runs.
Import Downloader DownloadTrace DownloadRun.

Lemma logs_only_app t1 t2 : logs_only t1 → logs_only t2 → logs_only (t1 ++ t2).
Proof. apply Forall_app_2. Qed.

Lemma logs_only_quiet tr :
  logs_only tr → gets tr = [] ∧ writes tr = [] ∧ timeline tr = [].
Proof.
  induction 1 as [|e tr (lvl & m & ->) _ IH]; [done|]. exact IH.
Qed.

(** A line adds at most one cookie to those read so far, whatever these
    are. *)
Lemma load_cookie_line_union (cookies : gmap string string) raw w :
  ∃ d t0 tr,
    load_cookie_line ∅ raw w = (d, w, t0)
    ∧ load_cookie_line cookies raw w = (d ∪ cookies, w, tr)
    ∧ logs_only tr.
Proof.
  unfold load_cookie_line.
  destruct (String.eqb (pystr.strip raw) "" || pystr.startswith "#" (pystr.strip raw)).
  { exists ∅, [], []. rewrite (left_id_L ∅ (∪)). split; [done|].
    split; [done|constructor]. }
  destruct (7 <=? Z.of_nat (length (pystr.split "009" (pystr.strip raw)))).
  { unfold log. io_run. eexists _, _, _. split; [reflexivity|]. split.
    - by rewrite insert_empty, <-insert_union_singleton_l.
    - constructor; [eauto|constructor]. }
  destruct (pystr.contains "=" (pystr.strip raw)).
  - destruct (pystr.split_once "=" (pystr.strip raw)) as [[name value]|].
    + eexists _, [], []. split; [reflexivity|]. split; [|constructor].
      unfold io_ret. by rewrite insert_empty, <-insert_union_singleton_l.
    + exists ∅, [], []. rewrite (left_id_L ∅ (∪)). split; [done|].
      split; [done|constructor].
  - exists ∅, [], []. rewrite (left_id_L ∅ (∪)). split; [done|].
    split; [done|constructor].
Qed.

Lemma load_cookie_lines_union ls : ∀ (cookies : gmap string string) w,
  ∃ d t0 tr,
    load_cookie_lines ∅ ls w = (d, w, t0)
    ∧ load_cookie_lines cookies ls w = (d ∪ cookies, w, tr)
    ∧ logs_only tr.
Proof.
  induction ls as [|raw ls IH]; intros cookies w.
  { exists ∅, [], []. rewrite (left_id_L ∅ (∪)). split; [done|].
    split; [done|constructor]. }
  cbn [load_cookie_lines]. unfold io_bind.
  destruct (load_cookie_line_union cookies raw w) as (d1 & t0 & t1 & -> & -> & Ht1).
  destruct (IH (d1 ∪ cookies) w) as (d2 & t2 & t3 & H2 & -> & Ht3).
  destruct (IH d1 w) as (d2' & t2' & t3' & H2' & -> & _).
  rewrite H2 in H2'. injection H2' as <- _.
  exists (d2 ∪ d1). eexists _, _. split; [reflexivity|].
  split; [by rewrite (assoc_L (∪))|by apply logs_only_app].
Qed.

Lemma load_cookie_lines_app ls1 ls2 (cookies : gmap string string) w :
  (load_cookie_lines cookies (ls1 ++ ls2) w).1.1
    = (load_cookie_lines (load_cookie_lines cookies ls1 w).1.1 ls2 w).1.1.
Proof.
  revert cookies. induction ls1 as [|raw ls1 IH]; intros cookies; [done|].
  cbn [app load_cookie_lines]. unfold io_bind.
  destruct (load_cookie_line_union cookies raw w) as (d1 & t0 & t1 & _ & -> & _).
  specialize (IH (d1 ∪ cookies)).
  destruct (load_cookie_lines _ (ls1 ++ ls2) w) as [[c1 w1] tr1].
  destruct (load_cookie_lines _ ls1 w) as [[c2 w2] tr2].
  exact IH.
Qed.

(** X7. The cookies read from the lines of a cookie file: those of the
    lines [ls1 ++ ls2] are those of [ls2] over those of [ls1].  A name set
    by a later line has the value of that line; a name the later lines do
    not set keeps the value of the earlier ones. *)
Theorem load_cookie_lines_override ls1 ls2 w :
  let cookies ls := (load_cookie_lines ∅ ls w).1.1 in
  cookies (ls1 ++ ls2) = cookies ls2 ∪ cookies ls1
  ∧ (∀ name value, cookies ls2 !! name = Some value →
                   cookies (ls1 ++ ls2) !! name = Some value)
  ∧ (∀ name, cookies ls2 !! name = None →
             cookies (ls1 ++ ls2) !! name = cookies ls1 !! name).
Proof.
  intros cookies.
  assert (cookies (ls1 ++ ls2) = cookies ls2 ∪ cookies ls1) as Heq.
  { unfold cookies. rewrite load_cookie_lines_app.
    destruct (load_cookie_lines_union ls2 (load_cookie_lines ∅ ls1 w).1.1 w)
      as (d & t0 & tr & -> & -> & _). done. }
  split; [done|]. rewrite Heq. split.
  - intros name value H. by apply lookup_union_Some_l.
  - intros name H. by apply lookup_union_r.
Qed.

Lemma load_cookies_from_file_run cookie_file w :
  ∃ cookies tr,
    load_cookies_from_file cookie_file w = (cookies, w, tr) ∧ logs_only tr.
Proof.
  unfold load_cookies_from_file, log. io_run.
  destruct (w_fs w !! cookie_file) as [[content j| | |]|];
    try (eexists _, _; split; [reflexivity|]; constructor; [eauto|constructor]).
  destruct (pystr.utf8_valid content);
    [|eexists _, _; split; [reflexivity|]; constructor; [eauto|constructor]].
  destruct (load_cookie_lines_union (pystr.lines content) ∅ w)
    as (d & t0 & tr & _ & -> & Htr).
  eexists _, _. split; [reflexivity|]. rewrite app_nil_l.
  apply logs_only_app; [done|]. constructor; [eauto|constructor].
Qed.

Lemma map_fold_insert_union (m base : gmap string string) :
  map_fold (λ name value jar, <[name := value]> jar) base m = m ∪ base.
Proof.
  apply (map_fold_weak_ind (λ r m, r = m ∪ base)).
  - by rewrite (left_id_L ∅ (∪)).
  - intros i x m' r _ ->. by rewrite insert_union_l.
Qed.

(** X8. [setup_session] keeps the cookies read from the configured cookie
    file in the downloader, adds them to the jar of the session (over the
    cookies of the same name, the others kept) and sets the [User-Agent]
    header (the other headers kept); it changes nothing in the world and
    only logs. *)
Theorem setup_session_spec self w :
  ∃ cookies tr,
    load_cookies_from_file (cookie_file (d_config self)) w = (cookies, w, tr)
    ∧ setup_session self w
        = (Self (d_config self)
                (Session (cookies ∪ s_cookies (d_session self))
                         (<["User-Agent" := USER_AGENT]> (s_headers (d_session self))))
                cookies,
           w, tr)
    ∧ logs_only tr.
Proof.
  destruct (load_cookies_from_file_run (cookie_file (d_config self)) w)
    as (cookies & tr & Hload & Htr).
  exists cookies, tr. split; [done|]. split; [|done].
  unfold setup_session. unfold io_bind. rewrite Hload. io_run.
  by rewrite map_fold_insert_union, app_nil_r.
Qed.

End cookie_runs.

Section main_runs.
Import Downloader DownloadTrace DownloadRun.

Lemma print_lines_run ls w : print_lines ls w = (tt, w, EvPrint <$> ls).
Proof.
  induction ls as [|l ls IH]; [done|]. simpl. io_run. by rewrite IH.
Qed.

(** X9. With [--list], [main] prints a heading and then one line for each
    of the 24 dataset names of [DATASET_MAPPING], in its order and without
    repeats, and exits with status 0.  It does nothing else: no
    configuration or cookie file is read (whatever [--config] and
    [--dataset] say), nothing is logged, asked or written. *)
Theorem main_list a order w :
  a_list a = true →
  ∃ heading,
    main a order w
      = (0, w,
         EvPrint <$> heading :: ((λ dataset, "  - " +:+ dataset) <$> DATASET_MAPPING))
    ∧ length DATASET_MAPPING = 24%nat
    ∧ NoDup DATASET_MAPPING.
Proof.
  intros Hl. unfold main. rewrite Hl. rewrite io_bind_emit.
  unfold io_bind at 1. rewrite print_lines_run. io_run.
  eexists. split; [by rewrite app_nil_r|]. split; [done|].
  apply (bool_decide_unpack _). by vm_compute.
Qed.

(** [--list] with a configuration file that does not exist. *)
Lemma main_list_witness :
  ∃ heading,
    main (Args "missing.json" (Some "CMU") true) [] (World ∅ [])
      = (0, World ∅ [],
         EvPrint <$> heading :: ((λ dataset, "  - " +:+ dataset) <$> DATASET_MAPPING))
    ∧ length DATASET_MAPPING = 24%nat
    ∧ NoDup DATASET_MAPPING.
Proof.
  apply (main_list (Args "missing.json" (Some "CMU") true) [] (World ∅ [])).
  reflexivity.
Defined.

(** X10. Without [--list], when the configuration file cannot be loaded
    [main] exits with status 1 before anything else happens: the world is
    unchanged and the trace holds at most one line, a log line.  A missing
    file is logged as missing, a file that is not JSON as malformed. *)
Theorem downloader_config_error a order w :
  a_list a = false →
  (∀ content cfg, w_fs w !! a_config a ≠ Some (TextFile content (Some cfg))) →
  ∃ tr,
    main a order w = (1, w, tr)
    ∧ logs_only tr ∧ (length tr ≤ 1)%nat
    ∧ (w_fs w !! a_config a = None →
         tr = [EvLog Error (MsgConfigMissing (a_config a))])
    ∧ (∀ content, w_fs w !! a_config a = Some (TextFile content None) →
         tr = [EvLog Error MsgConfigMalformed]).
Proof.
  intros Hl Hbad. unfold main. rewrite Hl.
  unfold init, load_config, log. io_run.
  destruct (w_fs w !! a_config a) as [[content [cfg|]| | |]|] eqn:Hcfg.
  - by destruct (Hbad content cfg).
  - eexists. split; [reflexivity|]. split; [constructor; [eauto|constructor]|].
    split; [simpl; lia|]. split; [done|]. by intros ? [= <-].
  - eexists. split; [reflexivity|]. split; [constructor|]. split; [simpl; lia|]. done.
  - eexists. split; [reflexivity|]. split; [constructor|]. split; [simpl; lia|]. done.
  - eexists. split; [reflexivity|]. split; [constructor|]. split; [simpl; lia|]. done.
  - eexists. split; [reflexivity|]. split; [constructor; [eauto|constructor]|].
    split; [simpl; lia|]. done.
Qed.

(** No configuration file. *)
Lemma downloader_config_error_witness :
  ∃ tr,
    main (Args "config.json" None false) [] (World ∅ []) = (1, World ∅ [], tr)
    ∧ logs_only tr ∧ (length tr ≤ 1)%nat
    ∧ (w_fs (World ∅ []) !! "config.json" = None →
         tr = [EvLog Error (MsgConfigMissing "config.json")])
    ∧ (∀ content,
         w_fs (World ∅ []) !! "config.json" = Some (TextFile content None) →
         tr = [EvLog Error MsgConfigMalformed]).
Proof.
  apply (downloader_config_error (Args "config.json" None false) [] (World ∅ [])).
  - reflexivity.
  - intros content cfg. vm_compute. discriminate.
Defined.

(** The requests of a batch are those of its calls. *)
Lemma gets_sequential_trace n calls : ∀ i,
  gets (sequential_trace n i calls) = calls ≫= (λ c, gets c.2).
Proof.
  induction calls as [|[[d b] t] calls IH]; intros i; [done|].
  change (sequential_trace n i ((d, b, t) :: calls))
    with ([EvLog Info (MsgProgress i n d)] ++ t
            ++ match calls with [] => [] | _ :: _ => [EvSleep 2] end
            ++ sequential_trace n (i + 1) calls).
  rewrite !gets_app, IH, bind_cons. by destruct calls.
Qed.

Lemma gets_pooled_trace n calls : ∀ completed,
  gets (pooled_trace n completed calls) = calls ≫= (λ c, gets c.2).
Proof.
  induction calls as [|[[d b] t] calls IH]; intros completed; [done|].
  change (pooled_trace n completed ((d, b, t) :: calls))
    with (t ++ [EvLog Info (MsgTaskDone (completed + 1) n d b)]
            ++ pooled_trace n (completed + 1) calls).
  by rewrite !gets_app, IH, bind_cons.
Qed.

Lemma gets_submits ds : gets (EvSubmit <$> ds) = [].
Proof. by induction ds. Qed.

(** Every call of a batch is a call of [download_dataset] in some world. *)
Lemma downloads_calls self w calls w' :
  downloads self w calls w' →
  Forall (λ c, ∃ w0, download_dataset self c.1.1 w0 = (c.1.2, (download_dataset self c.1.1 w0).1.2, c.2)) calls.
Proof.
  induction 1 as [|w d b t w1 calls w2 Hcall _ IH]; [constructor|].
  constructor; [|done]. exists w. cbn [fst snd]. by rewrite Hcall.
Qed.

(** [download_all] in terms of its calls of [download_dataset]. *)
Lemma download_all_calls self order w :
  let ds := datasets (d_config self) in
  let workers := default 4 (max_workers (d_config self)) in
  (workers ≠ 1 ∧ length ds ≠ 1%nat ∧ workers ≤ 0
   ∧ ∃ tr, download_all self order w = (Raised ValueError, w, tr) ∧ logs_only tr)
  ∨ ∃ calls w' tr,
      download_all self order w = (Returned (tally ∅ calls), w', tr)
      ∧ downloads self w calls w'
      ∧ gets tr = calls ≫= (λ c, gets c.2)
      ∧ (workers = 1 ∨ length ds = 1%nat → calls.*1.*1 = ds)
      ∧ (workers ≠ 1 → length ds ≠ 1%nat → calls.*1.*1 = omap (ds !!.) order).
Proof.
  intros ds workers. unfold download_all. fold ds. fold workers.
  unfold log. rewrite !io_bind_emit.
  destruct ((workers =? 1) || (Z.of_nat (length ds) =? 1)) eqn:Hseq.
  - right. apply orb_true_iff in Hseq.
    destruct (download_sequential_run self (length ds) ds 1 ∅ w)
      as (calls & w' & Hrun & Hcalls & Hnames); [lia|].
    exists calls, w'. unfold io_bind at 1. rewrite Hrun. io_run.
    eexists. split; [reflexivity|]. split; [done|]. split.
    { rewrite app_nil_r. cbn. apply gets_sequential_trace. }
    split; [done|]. intros Hw Hl. destruct Hseq as [?%Z.eqb_eq|?%Z.eqb_eq]; [done|lia].
  - apply orb_false_iff in Hseq as [Hw%Z.eqb_neq Hl%Z.eqb_neq].
    destruct (Z.leb_spec workers 0) as [Hneg|Hpos].
    + left. split; [done|]. split; [lia|]. split; [done|].
      eexists. split; [reflexivity|]. repeat constructor; eauto.
    + right. rewrite io_bind_emit. unfold io_bind at 1. rewrite submit_all_trace.
      destruct (collect_download_run self ds order 0 ∅ w)
        as (calls & w' & Hrun & Hcalls & Hnames).
      exists calls, w'. unfold io_bind at 1. rewrite Hrun. io_run.
      eexists. split; [reflexivity|]. split; [done|]. split.
      { rewrite app_nil_r. cbn. rewrite gets_app, gets_submits.
        apply gets_pooled_trace. }
      split; [|done]. intros [?|?]; [done|lia].
Qed.

End main_runs.

Section batch_runs.
Import Downloader DownloadTrace DownloadRun.

Lemma download_dataset_gets self dataset w :
  gets (download_dataset self dataset w).2
    = replicate (length (gets (download_dataset self dataset w).2))
                (url_of (d_config self) dataset, s_cookies (d_session self),
                 timeout (d_config self))
  ∧ (length (gets (download_dataset self dataset w).2)
       ≤ Z.to_nat (max_retries (d_config self)))%nat.
Proof.
  destruct w as [fs srv].
  destruct (download_dataset_cases self dataset fs srv)
    as [(_ & t & -> & Hg & _)|(_ & k & ok & t & -> & Hk & _ & Hg & _)];
    cbn [snd]; rewrite Hg.
  - split; [done|simpl; lia].
  - by rewrite length_replicate.
Qed.

(** The summary. *)
Lemma log_failed_items items w :
  ∃ tr, log_failed items w = (tt, w, tr) ∧ logs_only tr
        ∧ summaries tr = []
        ∧ failed_items tr = (filter (λ kv : string * bool, kv.2 = false) items).*1.
Proof.
  induction items as [|[d b] items (tr & IH & Hlogs & Hsum & Hitems)].
  - exists []. split; [done|]. split; [constructor|]. done.
  - simpl. unfold log. rewrite filter_cons. destruct b; io_run; rewrite IH.
    + exists tr. by case_decide.
    + eexists. split; [reflexivity|]. split; [constructor; [eauto|done]|].
      split; [done|]. case_decide; [|done]. cbn. by f_equal.
Qed.

Lemma length_filter_bool (items : list (string * bool)) :
  (length (filter (λ kv : string * bool, kv.2 = true) items)
   + length (filter (λ kv : string * bool, kv.2 = false) items)
   = length items)%nat.
Proof.
  induction items as [|[d b] items IH]; [done|].
  rewrite !filter_cons. destruct b; repeat case_decide; try done; simpl in *; lia.
Qed.

Lemma size_filter_map_to_list (P : string * bool → Prop)
    `{!∀ x, Decision (P x)} (m : gmap string bool) :
  size (filter P m) = length (filter P (map_to_list m)).
Proof.
  rewrite map_filter_alt. apply map_size_list_to_map.
  eapply sublist_NoDup; [apply (NoDup_fst_map_to_list m)|].
  apply fmap_sublist, sublist_filter.
Qed.

Lemma all_values_failed (results : gmap string bool) :
  all_values results = true
  ↔ filter (λ kv : string * bool, kv.2 = false) (map_to_list results) = [].
Proof.
  unfold all_values. rewrite bool_decide_eq_true. split.
  - intros Hall.
    destruct (filter _ (map_to_list results)) as [|[d b] l] eqn:Hf; [done|].
    assert ((d, b) ∈ filter (λ kv : string * bool, kv.2 = false)
                            (map_to_list results)) as Hin
      by (rewrite Hf; by left).
    apply list_elem_of_filter in Hin as [Hb Hin%elem_of_map_to_list].
    simpl in Hb. subst b. by specialize (Hall _ _ Hin).
  - intros Hnil d b Hd. destruct b; [done|].
    assert ((d, false) ∈ filter (λ kv : string * bool, kv.2 = false)
                                (map_to_list results)) as Hin.
    { apply list_elem_of_filter. split; [done|]. by apply elem_of_map_to_list. }
    rewrite Hnil in Hin. by apply elem_of_nil in Hin.
Qed.

Lemma summaries_cons a b c tr :
  summaries (EvLog Info (MsgSummary a b c) :: tr) = (a, b, c) :: summaries tr.
Proof. reflexivity. Qed.

(** X11. [print_summary] changes nothing and only logs.  It logs one
    summary: the number of entries of the results, the number of successes
    and the number of failures, which add up to the number of entries.  The
    datasets listed under it are exactly those whose entry is [False], each
    once, as many as the number of failures; none is listed exactly when
    all the values are true. *)
Theorem print_summary_spec results w :
  ∃ tr success failed,
    print_summary results w = (tt, w, tr)
    ∧ logs_only tr
    ∧ summaries tr = [(size results, success, failed)]
    ∧ (success + failed = size results)%nat
    ∧ failed = length (failed_items tr)
    ∧ NoDup (failed_items tr)
    ∧ (∀ dataset, dataset ∈ failed_items tr ↔ results !! dataset = Some false)
    ∧ (all_values results = true ↔ failed = 0%nat).
Proof.
  set (items := map_to_list results).
  set (bad := filter (λ kv : string * bool, kv.2 = false) items).
  assert (size (filter (λ kv : string * bool, kv.2 = true) results)
          + length bad = size results)%nat as Hcount.
  { rewrite size_filter_map_to_list. fold items. unfold bad.
    rewrite length_filter_bool. apply length_map_to_list. }
  assert (NoDup bad.*1) as Hnd.
  { eapply sublist_NoDup; [apply (NoDup_fst_map_to_list results)|].
    apply fmap_sublist, sublist_filter. }
  assert (∀ dataset, dataset ∈ bad.*1 ↔ results !! dataset = Some false) as Hin.
  { intros dataset. rewrite list_elem_of_fmap. split.
    - intros ([d b] & -> & [Hb Hd]%list_elem_of_filter). simpl in *. subst b.
      by apply elem_of_map_to_list.
    - intros Hd. exists (dataset, false). split; [done|].
      apply list_elem_of_filter. split; [done|]. by apply elem_of_map_to_list. }
  assert (all_values results = true ↔ length bad = 0%nat) as Hall.
  { rewrite all_values_failed. fold items. fold bad. by destruct bad. }
  unfold print_summary, log. rewrite io_bind_emit.
  replace (size results - size (filter (λ kv : string * bool, kv.2 = true) results))%nat
    with (length bad) by lia.
  destruct (0 <? length bad)%nat eqn:Hpos.
  - destruct (log_failed_items items w) as (tr & Hrun & Hlogs & Hsum & Hitems).
    fold items. rewrite Hrun. eexists _, _, _. split; [reflexivity|].
    split; [constructor; [eauto|done]|].
    split; [by rewrite summaries_cons, Hsum|]. split; [done|].
    change (failed_items (?e :: tr)) with (failed_items tr).
    rewrite Hitems. fold bad. by rewrite length_fmap.
  - apply Nat.ltb_ge in Hpos. assert (bad = []) as Hbad by (destruct bad; [done|simpl in Hpos; lia]).
    eexists _, _, _. split; [reflexivity|].
    split; [constructor; [eauto|constructor]|].
    split; [done|]. split; [done|]. rewrite Hbad in *. done.
Qed.

End batch_runs.

Section batch_runs2.
Import Downloader DownloadTrace DownloadRun.

Lemma print_summary_logs results w :
  ∃ tr, print_summary results w = (tt, w, tr) ∧ logs_only tr.
Proof.
  unfold print_summary, log. rewrite io_bind_emit.
  destruct (_ <? _)%nat.
  - destruct (log_failed_items (map_to_list results) w) as (tr & -> & Hlogs & _).
    eexists. split; [reflexivity|]. constructor; [eauto|done].
  - eexists. split; [reflexivity|]. constructor; [eauto|constructor].
Qed.

(** [main] once the configuration is read: the session gets the cookies of
    the cookie file and the downloads start. *)
Lemma main_run a order w content cfg :
  a_list a = false →
  w_fs w !! a_config a = Some (TextFile content (Some cfg)) →
  ∃ cookies t0 t1,
    load_cookies_from_file (cookie_file cfg) w = (cookies, w, t0)
    ∧ logs_only t1
    ∧ main a order w =
        let '(code, w', tr) :=
          main_download
            (Self cfg (Session cookies {[ "User-Agent" := USER_AGENT ]}) cookies)
            a order w in
        (code, w', t1 ++ tr).
Proof.
  intros Hl Hcfg.
  destruct (load_cookies_from_file_run (cookie_file cfg) w)
    as (cookies & t0 & Hload & Ht0).
  exists cookies, t0, (EvLog Info (MsgConfigLoaded (a_config a)) :: t0).
  split; [done|]. split; [constructor; [eauto|done]|].
  unfold main. rewrite Hl. unfold init, load_config, log. io_run.
  rewrite Hcfg. io_run. unfold setup_session. unfold io_bind at 1.
  cbn [d_config d_session s_cookies s_headers]. rewrite Hload. io_run.
  rewrite map_fold_insert_union, (right_id_L ∅ (∪)), insert_empty.
  destruct (main_download _ a order w) as [[code w'] tr].
  by rewrite !app_nil_r.
Qed.

(** The requests of a batch are requests of calls of [download_dataset]
    on datasets of the configuration. *)
Lemma download_all_gets self order w g :
  g ∈ gets (download_all self order w).2 →
  ∃ dataset w0,
    g ∈ gets (download_dataset self dataset w0).2
    ∧ dataset ∈ datasets (d_config self).
Proof.
  destruct (download_all_calls self order w)
    as [(_ & _ & _ & tr & -> & Htr)
       |(calls & w' & tr & -> & Hcalls & Hg & Hseq & Hpool)]; cbn [snd].
  { apply logs_only_quiet in Htr as (-> & _). by intros ?%elem_of_nil. }
  rewrite Hg. intros (c & Hin & Hc)%list_elem_of_bind.
  pose proof (downloads_calls _ _ _ _ Hcalls) as Hall.
  rewrite Forall_forall in Hall. destruct (Hall c Hc) as (w0 & Hrun).
  exists c.1.1, w0. rewrite Hrun. split; [done|].
  assert (c.1.1 ∈ calls.*1.*1) as Hname.
  { apply list_elem_of_fmap. exists c.1. split; [done|].
    apply list_elem_of_fmap. by exists c. }
  destruct (decide (default 4 (max_workers (d_config self)) = 1)) as [Hw|Hw];
    [by rewrite Hseq in Hname by by left|].
  destruct (decide (length (datasets (d_config self)) = 1%nat)) as [Hl|Hl];
    [by rewrite Hseq in Hname by by right|].
  rewrite Hpool in Hname by done.
  apply list_elem_of_omap in Hname as (i & _ & Hi).
  by apply list_elem_of_lookup_2 in Hi.
Qed.

Lemma main_download_gets self a order w g :
  g ∈ gets (main_download self a order w).2 →
  ∃ dataset w0,
    g ∈ gets (download_dataset self dataset w0).2
    ∧ (a_dataset a = Some dataset ∨ dataset ∈ datasets (d_config self)).
Proof.
  assert (
    g ∈ gets (let '(r, w1, t1) := download_all self order w in
              let '(code, w2, t2) :=
                match r with
                | Raised e => io_ret (exit_status e)
                | Returned results =>
                    print_summary results;;;
                    (if all_values results then io_ret 0 else io_ret 1)
                end w1 in
              (code, w2, t1 ++ t2)).2 →
    ∃ dataset w0,
      g ∈ gets (download_dataset self dataset w0).2
      ∧ dataset ∈ datasets (d_config self)) as Hbatch.
  { intros Hin. apply (download_all_gets self order w g).
    destruct (download_all self order w) as [[[results|e] w1] t1]; cbn [snd] in *.
    - unfold io_bind in Hin.
      destruct (print_summary_logs results w1) as (ts & Hs & Hts).
      rewrite Hs in Hin. apply logs_only_quiet in Hts as (Hts & _).
      destruct (all_values results); unfold io_ret in Hin; cbn [snd] in Hin;
        rewrite gets_app, gets_app, Hts, !app_nil_r in Hin; done.
    - unfold io_ret in Hin. cbn [snd] in Hin. by rewrite app_nil_r in Hin. }
  unfold main_download. destruct (a_dataset a) as [[|c s]|] eqn:Hd.
  - intros Hin. destruct (Hbatch Hin) as (d & w0 & ? & ?). eauto.
  - unfold io_bind.
    destruct (download_dataset self (String c s) w) as [[[] w1] t1] eqn:Hrun;
      unfold log, emit, io_ret; cbn [snd]; rewrite gets_app, app_nil_r;
      intros Hin; exists (String c s), w; rewrite Hrun; eauto.
  - intros Hin. destruct (Hbatch Hin) as (d & w0 & ? & ?). eauto.
Qed.

(** X12. Without [--list] and with a configuration that loads, every
    request of a run of [main] carries the cookies read from the configured
    cookie file and the configured timeout, and asks for the url of a
    dataset that is the one given by [--dataset] or one of the configured
    datasets. *)
Theorem main_requests a order w content cfg :
  a_list a = false →
  w_fs w !! a_config a = Some (TextFile content (Some cfg)) →
  Forall (λ g, g.1.2 = (load_cookies_from_file (cookie_file cfg) w).1.1
               ∧ g.2 = timeout cfg
               ∧ ∃ dataset,
                   g.1.1 = url_of cfg dataset
                   ∧ (a_dataset a = Some dataset ∨ dataset ∈ datasets cfg))
         (gets (main a order w).2).
Proof.
  intros Hl Hcfg.
  destruct (main_run a order w content cfg Hl Hcfg)
    as (cookies & t0 & t1 & Hload & Ht1 & ->).
  rewrite Hload. cbn [fst].
  set (self := Self cfg (Session cookies {[ "User-Agent" := USER_AGENT ]}) cookies).
  apply Forall_forall. intros g Hin.
  assert (g ∈ gets (main_download self a order w).2) as Hin'.
  { destruct (main_download self a order w) as [[code w'] tr]. cbn [snd] in *.
    apply logs_only_quiet in Ht1 as (Ht1 & _).
    by rewrite gets_app, Ht1 in Hin. }
  destruct (main_download_gets self a order w g Hin') as (d & w0 & Hg & Hd).
  destruct (download_dataset_gets self d w0) as [Hrep _].
  rewrite Hrep in Hg. apply elem_of_replicate in Hg as [-> _].
  cbn. eauto.
Qed.

(** One dataset asked for on the command line, no cookie file. *)
Lemma main_requests_witness :
  let a := Args "config.json" (Some "KIT") false in
  Forall (λ g, g.1.2
               = (load_cookies_from_file (cookie_file example_config)
                                         example_no_cookies).1.1
               ∧ g.2 = timeout example_config
               ∧ ∃ dataset,
                   g.1.1 = url_of example_config dataset
                   ∧ (a_dataset a = Some dataset
                      ∨ dataset ∈ datasets example_config))
         (gets (main a [] example_no_cookies).2).
Proof.
  intros a.
  apply (main_requests a [] example_no_cookies "{}" example_config).
  - reflexivity.
  - vm_compute. reflexivity.
Defined.

End batch_runs2.

Section batch_runs3.
Import Downloader DownloadTrace DownloadRun.

Lemma tally_all_values calls :
  NoDup calls.*1.*1 →
  all_values (tally ∅ calls) = forallb (λ c : call, c.1.2) calls.
Proof.
  intros Hnd. apply eq_true_iff_eq. unfold all_values.
  rewrite bool_decide_eq_true, List.forallb_forall.
  split.
  - intros Hall [[d b] t] Hin%list_elem_of_In. simpl.
    rewrite (Hall d b); [done|]. by eapply tally_lookup_in.
  - intros Hall d b Hd.
    destruct (decide (d ∈ calls.*1.*1)) as [Hin|Hnotin].
    + apply list_elem_of_fmap in Hin as ([d' b'] & -> & Hin).
      apply list_elem_of_fmap in Hin as ([[d'' b''] t] & [= <- <-] & Hin).
      rewrite (tally_lookup_in _ _ _ _ _ Hnd Hin) in Hd. injection Hd as <-.
      apply list_elem_of_In in Hin. exact (Hall _ Hin).
    + by rewrite tally_lookup_notin, lookup_empty in Hd.
Qed.

(** The names of the calls of a batch whose futures complete once each. *)
Lemma download_all_names self order (calls : list call) :
  let ds := datasets (d_config self) in
  let workers := default 4 (max_workers (d_config self)) in
  completion_order (length ds) order →
  (workers = 1 ∨ length ds = 1%nat → calls.*1.*1 = ds) →
  (workers ≠ 1 → length ds ≠ 1%nat → calls.*1.*1 = omap (ds !!.) order) →
  calls.*1.*1 ≡ₚ ds.
Proof.
  intros ds workers Horder Hseq Hpool.
  destruct (decide (workers = 1)) as [Hw|Hw]; [by rewrite Hseq by by left|].
  destruct (decide (length ds = 1%nat)) as [Hl|Hl]; [by rewrite Hseq by by right|].
  rewrite Hpool by done. by apply completion_order_items.
Qed.

(** X13. A sequential batch run of the downloader (no [--dataset], or an
    empty one; one worker, or a single dataset) over distinct datasets:
    [download_dataset] is called once for each configured dataset, in the
    configured order, each call in the world the one before left, and the
    exit status is 0 when every call returned [True] and 1 otherwise. *)
Theorem main_download_exit_status self a order w :
  let ds := datasets (d_config self) in
  let workers := default 4 (max_workers (d_config self)) in
  a_dataset a = None ∨ a_dataset a = Some "" →
  NoDup ds →
  workers = 1 ∨ length ds = 1%nat →
  ∃ calls w' tr,
    main_download self a order w
      = ((if forallb (λ c : call, c.1.2) calls then 0 else 1), w', tr)
    ∧ downloads self w calls w'
    ∧ calls.*1.*1 = ds.
Proof.
  intros ds workers Hbatch Hnd Hworkers.
  destruct (download_all_calls self order w)
    as [(Hw & Hl & _)
       |(calls & w' & tr & Hrun & Hcalls & _ & Hseq & _)].
  { fold workers ds in Hw, Hl. by destruct Hworkers. }
  pose proof (Hseq Hworkers) as Hnames. fold ds in Hnames.
  exists calls, w'.
  destruct (print_summary_logs (tally ∅ calls) w') as (ts & Hs & _).
  assert (main_download self a order w
          = ((if all_values (tally ∅ calls) then 0 else 1), w', tr ++ ts ++ [])) as ->.
  { unfold main_download.
    destruct Hbatch as [-> | ->]; unfold io_bind at 1; rewrite Hrun;
      unfold io_bind; rewrite Hs; by destruct (all_values _). }
  rewrite tally_all_values by by rewrite Hnames.
  eexists. done.
Qed.

(** Two datasets, one worker. *)
Lemma main_download_exit_status_witness :
  ∃ calls w' tr,
    main_download example_one_worker (Args "config.json" None false)
                  [] example_world
      = ((if forallb (λ c : call, c.1.2) calls then 0 else 1), w', tr)
    ∧ downloads example_one_worker example_world calls w'
    ∧ calls.*1.*1 = datasets (d_config example_one_worker).
Proof.
  apply (main_download_exit_status example_one_worker
           (Args "config.json" None false) [] example_world).
  - left. reflexivity.
  - apply (bool_decide_unpack _). by vm_compute.
  - left. reflexivity.
Defined.

(** X14. [download_all] makes at most [max_retries] requests for each
    configured dataset: the number of its requests is at most the number of
    datasets times [max_retries]. *)
Theorem download_all_request_bound self order w :
  let ds := datasets (d_config self) in
  completion_order (length ds) order →
  (length (requests (download_all self order w).2)
     ≤ length ds * Z.to_nat (max_retries (d_config self)))%nat.
Proof.
  intros ds Horder.
  destruct (download_all_calls self order w)
    as [(_ & _ & _ & tr & -> & Htr)
       |(calls & w' & tr & -> & Hcalls & Hg & Hseq & Hpool)]; cbn [snd];
    rewrite length_requests_gets.
  { apply logs_only_quiet in Htr as (-> & _). simpl. lia. }
  pose proof (download_all_names self order calls Horder Hseq Hpool) as Hperm.
  rewrite Hg. fold ds in Hperm. rewrite <-Hperm, !length_fmap.
  pose proof (downloads_calls _ _ _ _ Hcalls) as Hall. clear -Hall.
  induction Hall as [|c calls (w0 & Hc) _ IH]; [done|].
  rewrite bind_cons, length_app. simpl.
  destruct (download_dataset_gets self c.1.1 w0) as [_ Hle].
  rewrite Hc in Hle. cbn [snd] in Hle. lia.
Qed.

(** Two datasets, three attempts each, a pool of four workers. *)
Lemma download_all_request_bound_witness :
  (length (requests (download_all example_self [1; 0]%nat example_world).2)
     ≤ length (datasets (d_config example_self))
       * Z.to_nat (max_retries (d_config example_self)))%nat.
Proof.
  apply (download_all_request_bound example_self [1; 0]%nat example_world).
  unfold completion_order. apply perm_swap.
Defined.

(** X15. With an empty list of datasets [download_all] makes no request and
    changes nothing.  When the number of workers is positive it returns the
    empty dictionary and a batch run exits with status 0; when it is zero
    or negative the pool cannot be made, [ValueError] is raised and the run
    exits with status 1. *)
Theorem download_all_no_datasets self order w :
  let workers := default 4 (max_workers (d_config self)) in
  datasets (d_config self) = [] →
  (0 < workers →
     ∃ tr, download_all self order w = (Returned ∅, w, tr)
           ∧ requests tr = []
           ∧ ∀ a, a_dataset a = None →
                  (main_download self a order w).1 = (0, w))
  ∧ (workers ≤ 0 →
     ∃ tr, download_all self order w = (Raised ValueError, w, tr)
           ∧ requests tr = []
           ∧ ∀ a, a_dataset a = None →
                  (main_download self a order w).1 = (1, w)).
Proof.
  intros workers Hds.
  assert (∀ order, collect self [] order 0 ∅ w = (∅, w, [])) as Hcollect.
  { intros o. induction o as [|future o IH]; [done|]. exact IH. }
  assert (∃ tr, requests tr = []
                ∧ download_all self order w
                    = (if 0 <? workers then Returned ∅ else Raised ValueError, w, tr))
    as (tr & Hreq & Hrun).
  { unfold download_all. rewrite Hds. fold workers.
    unfold log. rewrite !io_bind_emit. cbn [length].
    change (Z.of_nat 0 =? 1) with false. rewrite orb_false_r.
    destruct (Z.eqb_spec workers 1) as [->|Hw].
    { eexists. split; [|reflexivity]. done. }
    destruct (Z.leb_spec workers 0) as [Hneg|Hpos].
    - rewrite (proj2 (Z.ltb_ge _ _) Hneg). eexists. split; [|reflexivity]. done.
    - rewrite (proj2 (Z.ltb_lt _ _) Hpos), io_bind_emit.
      unfold submit_all. io_run. rewrite Hcollect.
      eexists. split; [|reflexivity]. done. }
  split.
  - intros Hpos. rewrite (proj2 (Z.ltb_lt _ _) Hpos) in Hrun.
    exists tr. split; [done|]. split; [done|]. intros a Ha.
    unfold main_download. rewrite Ha. unfold io_bind at 1. rewrite Hrun.
    reflexivity.
  - intros Hneg. rewrite (proj2 (Z.ltb_ge _ _) Hneg) in Hrun.
    exists tr. split; [done|]. split; [done|]. intros a Ha.
    unfold main_download. rewrite Ha. unfold io_bind at 1. by rewrite Hrun.
Qed.

(** No dataset, the default of four workers. *)
Lemma download_all_no_datasets_witness :
  let self :=
    Self (Config "out" "cookies.txt" 30 3 None "SMPL-X" "male" [])
         (Session ∅ ∅) ∅ in
  ∃ tr, download_all self [] example_world = (Returned ∅, example_world, tr)
        ∧ requests tr = []
        ∧ ∀ a, a_dataset a = None →
               (main_download self a [] example_world).1 = (0, example_world).
Proof.
  intros self.
  apply (proj1 (download_all_no_datasets self [] example_world eq_refl)).
  reflexivity.
Defined.

End batch_runs3.

Section destinations.
Import Downloader DownloadTrace DownloadRun.

Lemma string_app_inv_tail s : ∀ x y, x +:+ s = y +:+ s → x = y.
Proof.
  intros x y H. apply (f_equal String.rev) in H. rewrite !rev_append in H.
  apply (inj (String.append _)) in H.
  by rewrite <-(rev_involutive x), H, rev_involutive.
Qed.

Lemma contains_app c u v :
  pystr.contains c (u +:+ v) = pystr.contains c u || pystr.contains c v.
Proof.
  induction u as [|b u IH]; [done|]. rewrite string_app_cons. simpl.
  by destruct (Ascii.eqb b c).
Qed.

Lemma contains_rev c s : pystr.contains c (String.rev s) = pystr.contains c s.
Proof.
  induction s as [|b s IH]; [done|].
  rewrite rev_cons, contains_app, IH. simpl.
  destruct (Ascii.eqb b c); [by rewrite orb_true_r|by rewrite orb_false_r].
Qed.

Lemma split_go_field c f cur :
  pystr.contains c f = false →
  pystr.split_go c cur f = [String.rev cur +:+ f].
Proof.
  intros Hf. pose proof (split_go_free c f cur "" Hf) as H.
  rewrite string_app_nil_r in H. rewrite H. simpl.
  by rewrite rev_app_append, rev_append, rev_involutive.
Qed.

(** A text without slash is a path of one component: it is its own
    basename behind any directory. *)
Lemma last_split_go c f : ∀ s cur,
  pystr.contains c f = false →
  last (pystr.split_go c cur (s +:+ String c f)) = Some f.
Proof.
  intros s cur Hf. revert cur. induction s as [|b s IH]; intros cur.
  - by rewrite string_app_nil_l, split_go_sep, split_go_field.
  - rewrite string_app_cons. simpl. destruct (Ascii.eqb b c); [|apply IH].
    specialize (IH ""). destruct (pystr.split_go c "" (s +:+ String c f)); done.
Qed.

Lemma os_path_basename_file f :
  pystr.contains "/" f = false → os_path_basename f = f.
Proof.
  intros Hf. unfold os_path_basename, pystr.split.
  by rewrite split_go_field.
Qed.

Lemma os_path_basename_slash pre f :
  pystr.contains "/" f = false → os_path_basename (pre +:+ "/" +:+ f) = f.
Proof.
  intros Hf. unfold os_path_basename, pystr.split.
  rewrite string_app_cons, string_app_nil_l. by rewrite last_split_go.
Qed.

Lemma drop_until_slash_app u v :
  pystr.contains "/" u = false →
  drop_until_slash (u +:+ v) = drop_until_slash v.
Proof.
  induction u as [|b u IH]; [done|]. intros Hu. simpl in Hu.
  rewrite string_app_cons. simpl.
  destruct (Ascii.eqb b "/"); [done|]. auto.
Qed.

(** The directory of a path whose last component is [f] does not depend on
    [f]. *)
Lemma os_path_dirname_slash pre f g :
  pystr.contains "/" f = false → pystr.contains "/" g = false →
  os_path_dirname (pre +:+ "/" +:+ f) = os_path_dirname (pre +:+ "/" +:+ g).
Proof.
  intros Hf Hg. unfold os_path_dirname.
  rewrite !rev_append, !string_app_assoc.
  rewrite (drop_until_slash_app (String.rev f)) by by rewrite contains_rev.
  rewrite (drop_until_slash_app (String.rev g)) by by rewrite contains_rev.
  done.
Qed.

Lemma os_path_dirname_file f g :
  pystr.contains "/" f = false → pystr.contains "/" g = false →
  os_path_dirname f = os_path_dirname g.
Proof.
  intros Hf Hg. unfold os_path_dirname.
  rewrite <-(string_app_nil_r (String.rev f)), <-(string_app_nil_r (String.rev g)).
  by rewrite !drop_until_slash_app by by rewrite contains_rev.
Qed.

Lemma endswith_slash a :
  pystr.endswith "/" a = true → ∃ pre, a = pre +:+ "/".
Proof.
  unfold pystr.endswith. change (String.rev "/") with "/". intros H.
  destruct (String.rev a) as [|b r] eqn:Hr; [done|].
  cbn [pystr.startswith] in H.
  destruct (Ascii.eqb_spec "/" b) as [<-|]; [|done].
  exists (String.rev r). apply (f_equal String.rev) in Hr.
  rewrite rev_involutive in Hr. by rewrite Hr, rev_cons.
Qed.

(** The file name of a dataset has no slash when the dataset and the gender
    have none. *)
Lemma filename_no_slash dataset body_model gender :
  pystr.contains "/" dataset = false → pystr.contains "/" gender = false →
  pystr.contains "/" (get_download_url dataset body_model gender).2 = false.
Proof.
  intros Hd Hg. unfold get_download_url. cbn [snd].
  rewrite !contains_app, Hd, Hg.
  destruct (String.eqb body_model "SMPL-H"); [done|].
  by destruct (String.eqb body_model "SMPL-X").
Qed.

Lemma filename_injective d1 d2 body_model gender :
  (get_download_url d1 body_model gender).2
    = (get_download_url d2 body_model gender).2 → d1 = d2.
Proof. unfold get_download_url. cbn [snd]. apply string_app_inv_tail. Qed.

(** [os.path.join] with a file name: the name is the basename, and the
    directory does not depend on the name. *)
Lemma os_path_join_file a f g :
  pystr.contains "/" f = false → pystr.contains "/" g = false →
  os_path_basename (os_path_join a f) = f
  ∧ os_path_dirname (os_path_join a f) = os_path_dirname (os_path_join a g).
Proof.
  intros Hf Hg. unfold os_path_join.
  assert (∀ h, pystr.contains "/" h = false → pystr.startswith "/" h = false)
    as Hstart.
  { intros [|b h] Hc; [done|]. cbn [pystr.contains pystr.startswith] in *.
    destruct (Ascii.eqb_spec b "/") as [->|Hb]; [done|].
    by destruct (Ascii.eqb_spec "/" b) as [<-|]. }
  rewrite !Hstart by done.
  destruct (String.eqb_spec a "") as [->|Hne]; simpl orb; cbv iota.
  { rewrite !string_app_nil_l. split; [by apply os_path_basename_file|].
    by apply os_path_dirname_file. }
  destruct (pystr.endswith "/" a) eqn:Hend.
  - apply endswith_slash in Hend as [pre ->]. rewrite !string_app_assoc.
    split; [by apply os_path_basename_slash|by apply os_path_dirname_slash].
  - split; [by apply os_path_basename_slash|by apply os_path_dirname_slash].
Qed.

(** X16. When neither a configured dataset name nor the gender contains a
    slash and the names are pairwise distinct, the destinations of the
    datasets are entries of one directory under pairwise distinct names:
    they have the same [os.path.dirname], the [os.path.basename] of each is
    the file name [get_download_url] gives for the dataset, and these names
    are pairwise distinct. *)
Theorem destinations_distinct cfg :
  Forall (λ dataset, pystr.contains "/" dataset = false) (datasets cfg) →
  pystr.contains "/" (gender cfg) = false →
  NoDup (datasets cfg) →
  (∀ dataset, dataset ∈ datasets cfg →
     os_path_basename (destination cfg dataset)
       = (get_download_url dataset (body_model cfg) (gender cfg)).2)
  ∧ (∀ d1 d2, d1 ∈ datasets cfg → d2 ∈ datasets cfg →
       os_path_dirname (destination cfg d1) = os_path_dirname (destination cfg d2))
  ∧ NoDup (os_path_basename <$> (destination cfg <$> datasets cfg)).
Proof.
  intros Hfree Hgender Hnd. rewrite Forall_forall in Hfree.
  assert (∀ d, d ∈ datasets cfg →
            os_path_basename (destination cfg d)
              = (get_download_url d (body_model cfg) (gender cfg)).2) as Hbase.
  { intros d Hd. unfold destination.
    apply (os_path_join_file _ _ ""); [|done].
    apply filename_no_slash; auto. }
  split; [exact Hbase|]. split.
  - intros d1 d2 Hd1 Hd2. unfold destination.
    apply os_path_join_file; apply filename_no_slash; auto.
  - rewrite <-list_fmap_compose. apply NoDup_fmap_2_strong; [|done].
    intros d1 d2 Hd1 Hd2. simpl. rewrite !Hbase by done.
    apply filename_injective.
Qed.

(** The datasets CMU and KIT. *)
Lemma destinations_distinct_witness :
  (∀ dataset, dataset ∈ datasets example_config →
     os_path_basename (destination example_config dataset)
       = (get_download_url dataset "SMPL-X" "male").2)
  ∧ (∀ d1 d2, d1 ∈ datasets example_config → d2 ∈ datasets example_config →
       os_path_dirname (destination example_config d1)
         = os_path_dirname (destination example_config d2))
  ∧ NoDup (os_path_basename <$> (destination example_config
                                   <$> datasets example_config)).
Proof.
  apply (destinations_distinct example_config).
  - repeat constructor.
  - reflexivity.
  - apply (bool_decide_unpack _). by vm_compute.
Defined.

End destinations.

(** * Runs of the extractor *)

Section extract_runs.
Import Extractor ExtractTrace ExtractRun.

Lemma extractions_app t1 t2 :
  extractions (t1 ++ t2) = extractions t1 ++ extractions t2.
Proof. apply omap_app. Qed.
Lemma progress_app t1 t2 : progress (t1 ++ t2) = progress t1 ++ progress t2.
Proof. apply omap_app. Qed.

Lemma extracted_all members :
  forallb m_extracts members = true → extracted members = members.
Proof.
  induction members as [|m members IH]; [done|]. simpl.
  destruct (m_extracts m); [|done]. simpl. intros H. by rewrite IH.
Qed.

Lemma unpacked_lookup out ms : ∀ fs m,
  m ∈ ms → unpacked out fs ms !! os_path_join out (m_name m) = Some Blob.
Proof.
  induction ms as [|m0 ms IH] using rev_ind; intros fs m Hin.
  { by apply elem_of_nil in Hin. }
  unfold unpacked. rewrite foldl_app. simpl. fold (unpacked out fs ms).
  apply elem_of_app in Hin as [Hin|Hin%list_elem_of_singleton].
  - destruct (decide (os_path_join out (m_name m0) = os_path_join out (m_name m)))
      as [->|Hne].
    + apply lookup_insert_eq.
    + rewrite lookup_insert_ne by done. by apply IH.
  - subst m0. apply lookup_insert_eq.
Qed.

(** The member loop: the members are extracted in order up to the first
    failure; without [tqdm] a line is printed after member [j] when [j] is
    a multiple of 100 or the last number. *)
Lemma extract_members_steps tqdm name out total members : ∀ i w,
  ∃ tr,
    extract_members tqdm name out total i members w
      = (forallb m_extracts members,
         World (unpacked out (w_fs w) (extracted members)) (w_protected w)
               (TQDM_AVAILABLE w),
         tr)
    ∧ extractions tr = (λ m, (out, m_name m)) <$> extracted members
    ∧ progress tr
        = (if tqdm then []
           else (λ j, (name, j, total))
                  <$> filter (due total)
                             (seqZ i (Z.of_nat (length (extracted members)))))
    ∧ observed tr = [].
Proof.
  induction members as [|m members IH]; intros i w.
  - exists []. destruct w. split; [done|]. split; [done|]. split; [|done].
    by destruct tqdm.
  - cbn [extract_members forallb extracted]. unfold tar_extract.
    destruct (m_extracts m) eqn:Hm; cbn [andb].
    + destruct (IH (i + 1)
                  (World (<[os_path_join out (m_name m) := Blob]> (w_fs w))
                         (w_protected w) (TQDM_AVAILABLE w)))
        as (tr & Hrun & Hex & Hpr & Hobs).
      cbn [w_fs w_protected TQDM_AVAILABLE] in Hrun.
      destruct tqdm.
      * unfold set_fs. io_run. rewrite Hrun.
        eexists. split; [reflexivity|]. simpl. rewrite Hex. split; [done|].
        split; [done|]. by rewrite Hobs.
      * rewrite seqZ_cons by (cbn [length]; lia). rewrite filter_cons.
        replace (Z.succ i) with (i + 1) by lia.
        replace (Z.pred (Z.of_nat (length (m :: extracted members))))
          with (Z.of_nat (length (extracted members))) by (cbn [length]; lia).
        destruct (decide (due total i)) as [Hdue|Hdue].
        -- assert ((i mod 100 =? 0) || (i =? total) = true) as ->.
           { apply orb_true_iff. destruct Hdue as [?|?]; [left|right]; lia. }
           unfold set_fs. io_run. rewrite Hrun.
           eexists. split; [reflexivity|]. simpl. rewrite Hex.
           split; [done|]. split; [|by rewrite Hobs].
           f_equal. exact Hpr.
        -- assert ((i mod 100 =? 0) || (i =? total) = false) as ->.
           { apply orb_false_iff. unfold due in Hdue. split; apply Z.eqb_neq; tauto. }
           unfold set_fs. io_run. rewrite Hrun.
           eexists. split; [reflexivity|]. simpl. rewrite Hex.
           split; [done|]. split; [|by rewrite Hobs]. exact Hpr.
    + io_run. exists []. destruct w. split; [done|]. split; [done|].
      split; [|done]. by destruct tqdm.
Qed.

End extract_runs.

Section extract_runs2.
Import Extractor ExtractTrace ExtractRun.

(** [os.makedirs(path, exist_ok=True)]: the directory is there, is made, or
    the call raises. *)
Lemma makedirs_cases path w :
  (makedirs path w = (true, w, [])
   ∧ path ≠ "" ∧ ∃ entries, w_fs w !! path = Some (Directory entries))
  ∨ (makedirs path w
       = (true, World (<[path := Directory ∅]> (w_fs w)) (w_protected w)
                      (TQDM_AVAILABLE w), [EvMakedirs path])
     ∧ path ≠ "" ∧ w_fs w !! path = None ∧ path ∉ w_protected w)
  ∨ (makedirs path w = (false, w, [])
     ∧ (path = ""
        ∨ (∃ nd, w_fs w !! path = Some nd ∧ ∀ entries, nd ≠ Directory entries)
        ∨ (w_fs w !! path = None ∧ path ∈ w_protected w))).
Proof.
  unfold makedirs, set_fs. io_run.
  destruct (String.eqb_spec path "") as [->|Hne]; [right; right; auto|].
  destruct (w_fs w !! path) as [nd|] eqn:Hp.
  - destruct nd; first [ left; by eauto | right; right ];
      (split; [done|]); right; left; eexists; (split; [done|]); done.
  - case_bool_decide as Hprot.
    + right; right. split; [done|]. right; right. done.
    + right; left. done.
Qed.

(** [extract_archive] on a tar archive, the output directory being there
    or made. *)
Lemma extract_archive_steps archive out w members :
  w_fs w !! archive = Some (Archive members) →
  (makedirs out w).1.1 = true →
  ∃ w' tr,
    extract_archive archive out w = (forallb m_extracts members, w', tr)
    ∧ extractions tr = (λ m, (out, m_name m)) <$> extracted members
    ∧ progress tr
        = (if TQDM_AVAILABLE w then []
           else (λ j, (os_path_basename archive, j, Z.of_nat (length members)))
                  <$> filter (due (Z.of_nat (length members)))
                             (seqZ 1 (Z.of_nat (length (extracted members)))))
    ∧ observed tr = (if forallb m_extracts members then [] else [Failed archive])
    ∧ (∀ m, m ∈ extracted members →
            is_Some (w_fs w' !! os_path_join out (m_name m)))
    ∧ is_Some (w_fs w' !! out).
Proof.
  intros Harch Hmade.
  assert (∃ w1 t1, makedirs out w = (true, w1, t1)
                   ∧ w_fs w1 !! archive = Some (Archive members)
                   ∧ TQDM_AVAILABLE w1 = TQDM_AVAILABLE w
                   ∧ is_Some (w_fs w1 !! out)
                   ∧ extractions t1 = [] ∧ progress t1 = [] ∧ observed t1 = [])
    as (w1 & t1 & Hmk & Harch1 & Htq & Hout & Hex1 & Hpr1 & Hobs1).
  { destruct (makedirs_cases out w)
      as [(Hmk & _ & e & He)|[(Hmk & _ & Hnone & _)|(Hmk & _)]].
    - exists w, []. rewrite Hmk, He. eauto 10.
    - eexists _, _. split; [exact Hmk|]. cbn [w_fs TQDM_AVAILABLE].
      rewrite lookup_insert_eq. split; [|eauto 10].
      rewrite lookup_insert_ne; [done|]. intros ->. by rewrite Hnone in Harch.
    - by rewrite Hmk in Hmade. }
  unfold extract_archive, log. rewrite io_bind_emit. unfold io_bind at 1.
  rewrite Hmk. unfold io_bind at 1, get_world at 1. rewrite Harch1.
  unfold io_bind at 1.
  destruct (extract_members_steps (TQDM_AVAILABLE w1) (os_path_basename archive)
              out (Z.of_nat (length members)) members 1 w1)
    as (tr & -> & Hex & Hpr & Hobs).
  rewrite Htq in Hpr.
  assert (is_Some (unpacked out (w_fs w1) (extracted members) !! out)) as Hout'.
  { clear -Hout. revert Hout. generalize (w_fs w1).
    induction (extracted members) as [|m ms IH]; intros fs Hfs; [done|].
    apply IH. destruct (decide (os_path_join out (m_name m) = out)) as [->|Hne].
    - rewrite lookup_insert_eq. eauto.
    - by rewrite lookup_insert_ne. }
  destruct (forallb m_extracts members); io_run;
    eexists _, _; (split; [reflexivity|]);
    (split; [simpl; by rewrite !extractions_app, Hex1, Hex, app_nil_r|]);
    (split; [simpl; by rewrite !progress_app, Hpr1, Hpr, app_nil_r|]);
    (split; [simpl; by rewrite !observed_app, Hobs1, Hobs|]);
    (split; [intros m Hm; cbn [w_fs]; rewrite unpacked_lookup by done; eauto|]);
    done.
Qed.

(** X17. For a tar archive and an output directory that is there or can be
    made, [extract_archive] extracts the members in their order, each to the
    output directory, and stops at the first one whose extraction raises:
    the members before it are extracted, those after it are not tried.  It
    returns [True] exactly when every member was extracted; otherwise the
    archive is reported as failed, once. *)
Theorem extract_archive_members archive out w members :
  w_fs w !! archive = Some (Archive members) →
  (makedirs out w).1.1 = true →
  ∃ w' tr,
    extract_archive archive out w = (forallb m_extracts members, w', tr)
    ∧ extractions tr = (λ m, (out, m_name m)) <$> extracted members
    ∧ failures tr = (if forallb m_extracts members then [] else [archive]).
Proof.
  intros Harch Hmade.
  destruct (extract_archive_steps archive out w members Harch Hmade)
    as (w' & tr & Hrun & Hex & _ & Hobs & _).
  exists w', tr. split; [done|]. split; [done|].
  unfold failures. rewrite Hobs. by destruct (forallb m_extracts members).
Qed.

(** An archive of three members, the second of which cannot be
    extracted. *)
Lemma extract_archive_members_witness :
  let members :=
    [Member "a/x.npz" true; Member "a/y.npz" false; Member "a/z.npz" true] in
  let w := World {[ "in/a.tar.bz2" := Archive members ]} ∅ true in
  ∃ w' tr,
    extract_archive "in/a.tar.bz2" "out" w = (false, w', tr)
    ∧ extractions tr = [("out", "a/x.npz")]
    ∧ failures tr = ["in/a.tar.bz2"].
Proof.
  intros members w.
  apply (extract_archive_members "in/a.tar.bz2" "out" w members).
  - vm_compute. reflexivity.
  - vm_compute. reflexivity.
Defined.

Lemma length_extracted members :
  (length (extracted members) ≤ length members)%nat.
Proof.
  induction members as [|m members IH]; [done|]. simpl.
  destruct (m_extracts m); simpl; lia.
Qed.

(** X18. The progress lines of [extract_archive] on a tar archive.  With
    [tqdm] none is printed.  Without it, a line is printed after member
    number [j] for exactly the extracted members whose number is a multiple
    of 100 or the number of members; the numbers printed are between 1 and
    the number of members; and when every member of a non-empty archive is
    extracted, the last line is the one of the last member. *)
Theorem extract_archive_progress archive out w members :
  w_fs w !! archive = Some (Archive members) →
  (makedirs out w).1.1 = true →
  let n := Z.of_nat (length members) in
  let tr := (extract_archive archive out w).2 in
  (TQDM_AVAILABLE w = true → progress tr = [])
  ∧ (TQDM_AVAILABLE w = false →
       progress tr
         = (λ j, (os_path_basename archive, j, n))
             <$> filter (due n) (seqZ 1 (Z.of_nat (length (extracted members))))
       ∧ Forall (λ p, 1 ≤ p.1.2 ≤ p.2) (progress tr)
       ∧ (forallb m_extracts members = true → members ≠ [] →
            last (progress tr) = Some (os_path_basename archive, n, n))).
Proof.
  intros Harch Hmade n tr.
  destruct (extract_archive_steps archive out w members Harch Hmade)
    as (w' & t & Hrun & _ & Hpr & _).
  unfold tr. rewrite Hrun. cbn [snd]. fold n in Hpr. split.
  - intros Htq. by rewrite Htq in Hpr.
  - intros Htq. rewrite Htq in Hpr. split; [done|]. rewrite Hpr. split.
    + apply Forall_fmap, Forall_forall. intros j [_ Hj]%list_elem_of_filter.
      apply elem_of_seqZ in Hj. pose proof (length_extracted members).
      simpl. unfold n. lia.
    + intros Hall Hne. rewrite (extracted_all _ Hall).
      destruct members as [|m members _] using rev_ind; [done|].
      unfold n. rewrite length_app. cbn [length].
      replace (length members + 1)%nat with (S (length members)) by lia.
      rewrite seqZ_S, filter_app, fmap_app, filter_cons, filter_nil.
      rewrite decide_True by (right; lia).
      rewrite last_app. simpl. do 3 f_equal; lia.
Qed.

(** The third archive of the example batch, without [tqdm]. *)
Lemma extract_archive_progress_witness :
  let w := World (w_fs example_batch) ∅ false in
  let members := [Member "c/y.npz" true; Member "c/z.npz" true] in
  let tr := (extract_archive "in/c.tar.bz2" "out" w).2 in
  (TQDM_AVAILABLE w = true → progress tr = [])
  ∧ (TQDM_AVAILABLE w = false →
       progress tr
         = (λ j, ("c.tar.bz2", j, 2))
             <$> filter (due 2) (seqZ 1 (Z.of_nat (length (extracted members))))
       ∧ Forall (λ p, 1 ≤ p.1.2 ≤ p.2) (progress tr)
       ∧ (forallb m_extracts members = true → members ≠ [] →
            last (progress tr) = Some ("c.tar.bz2", 2, 2))).
Proof.
  intros w members.
  apply (extract_archive_progress "in/c.tar.bz2" "out" w members).
  - vm_compute. reflexivity.
  - vm_compute. reflexivity.
Defined.

(** X19. When the output directory cannot be made (its path is empty, holds
    something that is not a directory, or does not exist and may not be
    created), [extract_archive] returns [False] without opening the archive:
    it logs the start and the error, and the world is unchanged. *)
Theorem extract_archive_no_output_dir archive out w :
  out = ""
  ∨ (∃ nd, w_fs w !! out = Some nd ∧ ∀ entries, nd ≠ Directory entries)
  ∨ (w_fs w !! out = None ∧ out ∈ w_protected w) →
  extract_archive archive out w
    = (false, w, [EvLog Info (MsgExtractStart (os_path_basename archive));
                  EvLog Error (MsgExtractError archive)]).
Proof.
  intros Hout. unfold extract_archive, log. rewrite io_bind_emit.
  unfold io_bind at 1.
  destruct (makedirs_cases out w)
    as [(_ & Hne & e & He)|[(_ & Hne & Hnone & Hprot)|(-> & _)]].
  - destruct Hout as [->|[(nd & Hnd & Hndir)|[Hnone _]]]; [done| |].
    + rewrite He in Hnd. injection Hnd as <-. by destruct (Hndir e).
    + by rewrite He in Hnone.
  - destruct Hout as [->|[(nd & Hnd & _)|[_ Hin]]]; [done| |done].
    by rewrite Hnone in Hnd.
  - done.
Qed.

(** An empty output directory. *)
Lemma extract_archive_no_output_dir_witness :
  extract_archive "in/a.tar.bz2" "" example_batch
    = (false, example_batch,
       [EvLog Info (MsgExtractStart (os_path_basename "in/a.tar.bz2"));
        EvLog Error (MsgExtractError "in/a.tar.bz2")]).
Proof.
  apply (extract_archive_no_output_dir "in/a.tar.bz2" "" example_batch).
  left. reflexivity.
Defined.

(** X20. When the path of the archive does not hold a tar archive (it is
    missing, or is something else) and the output directory is there or can
    be made, [extract_archive] returns [False], extracts nothing and reports
    the archive as failed; the output directory exists afterwards, made
    before the archive was opened. *)
Theorem extract_archive_not_a_tar archive out w :
  (∀ members, w_fs w !! archive ≠ Some (Archive members)) →
  (makedirs out w).1.1 = true →
  ∃ w' tr,
    extract_archive archive out w = (false, w', tr)
    ∧ extractions tr = []
    ∧ failures tr = [archive]
    ∧ is_Some (w_fs w' !! out).
Proof.
  intros Hnot Hmade.
  assert (∃ w1 t1, makedirs out w = (true, w1, t1)
                   ∧ (∀ members, w_fs w1 !! archive ≠ Some (Archive members))
                   ∧ is_Some (w_fs w1 !! out)
                   ∧ extractions t1 = [] ∧ observed t1 = [])
    as (w1 & t1 & Hmk & Harch1 & Hout & Hex1 & Hobs1).
  { destruct (makedirs_cases out w)
      as [(Hmk & _ & e & He)|[(Hmk & _ & Hnone & _)|(Hmk & _)]].
    - exists w, []. rewrite Hmk, He. eauto 10.
    - eexists _, _. split; [exact Hmk|]. cbn [w_fs].
      rewrite lookup_insert_eq. split; [|eauto].
      intros members. destruct (decide (archive = out)) as [->|Hne].
      + by rewrite lookup_insert_eq.
      + rewrite lookup_insert_ne by done. apply Hnot.
    - by rewrite Hmk in Hmade. }
  unfold extract_archive, log. rewrite io_bind_emit. unfold io_bind at 1.
  rewrite Hmk. unfold io_bind at 1, get_world at 1.
  destruct (w_fs w1 !! archive) as [[| |members|]|] eqn:Harch;
    try (by destruct (Harch1 members));
    io_run; eexists _, _; (split; [reflexivity|]);
    (split; [simpl; by rewrite !extractions_app, Hex1|]);
    (split; [unfold failures; simpl; by rewrite !observed_app, Hobs1|]);
    done.
Qed.

(** The second archive of the example batch is not a tar archive. *)
Lemma extract_archive_not_a_tar_witness :
  ∃ w' tr,
    extract_archive "in/b.tar.bz2" "out" example_batch = (false, w', tr)
    ∧ extractions tr = []
    ∧ failures tr = ["in/b.tar.bz2"]
    ∧ is_Some (w_fs w' !! "out").
Proof.
  apply (extract_archive_not_a_tar "in/b.tar.bz2" "out" example_batch).
  - intros members. vm_compute. discriminate.
  - vm_compute. reflexivity.
Defined.

End extract_runs2.

Section extract_main.
Import Extractor ExtractTrace ExtractRun.

(** [find_archives] changes nothing and logs one line. *)
Lemma find_archives_trace input_dir w :
  ∃ archives,
    find_archives input_dir w
      = (archives, w,
         [if bool_decide (is_Some (w_fs w !! input_dir))
          then EvLog Info (MsgFound (length archives))
          else EvLog Error (MsgNoDirectory input_dir)]).
Proof.
  exists (pathlib.child input_dir <$> glob_tar_bz2 (w_fs w) input_dir).
  unfold find_archives, path_exists, log. io_run.
  case_bool_decide as Hex; simpl.
  - by rewrite length_fmap.
  - unfold glob_tar_bz2. by rewrite (proj2 (eq_None_not_Some _) Hex).
Qed.

(** X21. [find_archives] changes nothing and logs one line: the number of
    archives found when the input path exists, the error that the directory
    does not exist otherwise.  It returns, without repeats, exactly the
    paths [input_dir / name] of the entries [name] of the directory that end
    in [.tar.bz2]; so nothing when the path is not a directory. *)
Theorem find_archives_spec input_dir w :
  ∃ archives,
    find_archives input_dir w
      = (archives, w,
         [if bool_decide (is_Some (w_fs w !! input_dir))
          then EvLog Info (MsgFound (length archives))
          else EvLog Error (MsgNoDirectory input_dir)])
    ∧ NoDup archives
    ∧ ∀ p, p ∈ archives ↔
           ∃ entries name,
             w_fs w !! input_dir = Some (Directory entries)
             ∧ name ∈ entries
             ∧ pystr.endswith ".tar.bz2" name = true
             ∧ p = pathlib.child input_dir name.
Proof.
  exists (pathlib.child input_dir <$> glob_tar_bz2 (w_fs w) input_dir).
  split; [|split].
  - unfold find_archives, path_exists, log. io_run.
    case_bool_decide as Hex; simpl.
    + by rewrite length_fmap.
    + unfold glob_tar_bz2. by rewrite (proj2 (eq_None_not_Some _) Hex).
  - pose proof (find_archives_NoDup input_dir w) as Hnd.
    by rewrite find_archives_value in Hnd.
  - intros p. rewrite list_elem_of_fmap. unfold glob_tar_bz2. split.
    + intros (name & -> & Hin).
      destruct (w_fs w !! input_dir) as [[|entries| |]|];
        try by apply elem_of_nil in Hin.
      apply list_elem_of_In, List.filter_In in Hin as [Hin Hend].
      apply list_elem_of_In, elem_of_elements in Hin. eauto 10.
    + intros (entries & name & -> & Hin & Hend & ->). exists name.
      split; [done|]. apply list_elem_of_In, List.filter_In.
      split; [|done]. by apply list_elem_of_In, elem_of_elements.
Qed.

Lemma record_all_values visits :
  NoDup (v_archive <$> visits) →
  all_values (record ∅ visits) = true
  ↔ filter (λ v, v_success v = false) visits = [].
Proof.
  intros Hnd. unfold all_values. rewrite bool_decide_eq_true. split.
  - intros Hall.
    destruct (filter _ visits) as [|v l] eqn:Hf; [done|].
    assert (v ∈ filter (λ v, v_success v = false) visits) as Hin
      by (rewrite Hf; by left).
    apply list_elem_of_filter in Hin as [Hs Hin].
    pose proof (record_lookup_in visits ∅ v Hnd Hin) as Hl.
    specialize (Hall _ _ Hl). simpl in Hall. congruence.
  - intros Hnil a b Hab.
    apply record_lookup_Some in Hab as (v & Hv & <- & <-); [|done].
    destruct (v_success v) eqn:Hs; [done|].
    assert (v ∈ filter (λ v, v_success v = false) visits) as Hin
      by by apply list_elem_of_filter.
    rewrite Hnil in Hin. by apply elem_of_nil in Hin.
Qed.

(** X22. A batch run of the extractor (no [--file]) with a configuration
    that loads and a pool that can be made: the exit status is 0 exactly
    when no archive was reported as failed, and 1 exactly when one was. *)
Theorem main_exit_status a order w content cfg :
  w_fs w !! a_config a = Some (TextFile content (Some cfg)) →
  given (a_file a) = None →
  a_workers a = 1 ∨ 0 < a_workers a →
  completion_order
    (length (find_archives (default (output_dir cfg) (given (a_input a))) w).1.1)
    order →
  ((main a order w).1.1 = 0 ↔ failures (main a order w).2 = [])
  ∧ ((main a order w).1.1 = 1 ↔ failures (main a order w).2 ≠ []).
Proof.
  intros Hcfg Hfile Hworkers Horder.
  destruct (main_batch a order w content cfg Hcfg Hfile)
    as (t0 & t2 & Ht0 & Ht2 & -> & _).
  rewrite find_archives_value in Horder.
  destruct (extract_all_cases _
              (default (os_path_join (output_dir cfg) "extracted") (given (a_output a)))
              (a_workers a) (a_delete a) order w Horder)
    as (r & w' & tr & visits & -> & Hobs & _ & Hcases).
  cbn [fst snd]. unfold failures.
  rewrite !observed_app, Ht0, Ht2, app_nil_r, app_nil_l, Hobs, failures_visits.
  destruct Hcases as [(_ & -> & _ & ->)|[(_ & _ & Hneg & _)|(_ & _ & -> & Hperm)]].
  - done.
  - lia.
  - assert (NoDup (v_archive <$> visits)) as Hnd.
    { rewrite Hperm. pose proof (find_archives_NoDup
        (default (output_dir cfg) (given (a_input a))) w) as H.
      by rewrite find_archives_value in H. }
    pose proof (record_all_values visits Hnd) as Hall.
    destruct (all_values (record ∅ visits)).
    + rewrite (proj1 Hall eq_refl). done.
    + destruct (filter _ visits) as [|v l]; [discriminate (proj2 Hall eq_refl)|].
      split; (split; [done|]); [intros [=]|done].
Qed.

(** The example batch, whose second archive fails, with two workers. *)
Lemma main_exit_status_witness :
  let a := Args "config.json" None (Some "out") 2 false None in
  ((main a [2; 0; 1]%nat example_batch).1.1 = 0
     ↔ failures (main a [2; 0; 1]%nat example_batch).2 = [])
  ∧ ((main a [2; 0; 1]%nat example_batch).1.1 = 1
       ↔ failures (main a [2; 0; 1]%nat example_batch).2 ≠ []).
Proof.
  intros a.
  apply (main_exit_status a [2; 0; 1]%nat example_batch "{}"
           example_extract_config).
  - vm_compute. reflexivity.
  - reflexivity.
  - right. reflexivity.
  - exact example_completion_order.
Defined.

End extract_main.

Section extract_main2.
Import Extractor ExtractTrace ExtractRun.

Lemma removals_app t1 t2 : removals (t1 ++ t2) = removals t1 ++ removals t2.
Proof. unfold removals. by rewrite observed_app, omap_app. Qed.
Lemma failures_app t1 t2 : failures (t1 ++ t2) = failures t1 ++ failures t2.
Proof. unfold failures. by rewrite observed_app, omap_app. Qed.

(** X23. When the configuration file cannot be loaded the extractor exits
    with status 1 before anything else happens: the world is unchanged,
    nothing is extracted or reported, and the trace holds at most one line.
    A missing file is logged as missing, a file that is not JSON as
    malformed. *)
Theorem extractor_config_error a order w :
  (∀ content cfg, w_fs w !! a_config a ≠ Some (TextFile content (Some cfg))) →
  ∃ tr,
    main a order w = (1, w, tr)
    ∧ (length tr ≤ 1)%nat ∧ observed tr = [] ∧ extractions tr = []
    ∧ (w_fs w !! a_config a = None →
         tr = [EvLog Error (MsgConfigMissing (a_config a))])
    ∧ (∀ content, w_fs w !! a_config a = Some (TextFile content None) →
         tr = [EvLog Error MsgConfigMalformed]).
Proof.
  intros Hbad. unfold main, load_config, log. io_run.
  destruct (w_fs w !! a_config a) as [[content [cfg|]| | |]|] eqn:Hcfg.
  - by destruct (Hbad content cfg).
  - eexists. split; [reflexivity|]. split; [simpl; lia|].
    split; [done|]. split; [done|]. split; [done|]. by intros ? [= <-].
  - eexists. split; [reflexivity|]. split; [simpl; lia|]. done.
  - eexists. split; [reflexivity|]. split; [simpl; lia|]. done.
  - eexists. split; [reflexivity|]. split; [simpl; lia|]. done.
  - eexists. split; [reflexivity|]. split; [simpl; lia|]. done.
Qed.

(** A configuration file that does not exist. *)
Lemma extractor_config_error_witness :
  let a := Args "missing.json" None None 1 false None in
  ∃ tr,
    main a [] example_batch = (1, example_batch, tr)
    ∧ (length tr ≤ 1)%nat ∧ observed tr = [] ∧ extractions tr = []
    ∧ (w_fs example_batch !! a_config a = None →
         tr = [EvLog Error (MsgConfigMissing (a_config a))])
    ∧ (∀ content,
         w_fs example_batch !! a_config a = Some (TextFile content None) →
         tr = [EvLog Error MsgConfigMalformed]).
Proof.
  intros a. apply (extractor_config_error a [] example_batch).
  intros content cfg. vm_compute. discriminate.
Defined.

(** X24. With [--file] and a configuration that loads.  When the file does
    not exist, [main] exits with status 1, the world unchanged and nothing
    extracted, its last log line naming the missing file.  When it exists,
    [main] exits with status 0 if [extract_archive] succeeds on it and with
    status 1, the file reported as failed, if not; the removal of the file
    is attempted exactly when the extraction succeeded and [--delete] was
    given. *)
Theorem main_single_file a order w content cfg file :
  w_fs w !! a_config a = Some (TextFile content (Some cfg)) →
  given (a_file a) = Some file →
  let out :=
    default (os_path_join (output_dir cfg) "extracted") (given (a_output a)) in
  (w_fs w !! file = None →
     ∃ tr, main a order w = (1, w, tr)
           ∧ extractions tr = [] ∧ observed tr = []
           ∧ last tr = Some (EvLog Error (MsgFileMissing file)))
  ∧ (is_Some (w_fs w !! file) →
     let ok := (extract_archive file out w).1.1 in
     ∃ w' tr removed,
       main a order w = ((if ok then 0 else 1), w', tr)
       ∧ failures tr = (if ok then [] else [file])
       ∧ removals tr = (if ok && a_delete a then [(file, removed)] else [])).
Proof.
  intros Hcfg Hfile out.
  assert (main a order w
          = let '(code, w', tr) :=
              (present ←← path_exists file ;;
               if negb present then
                 log Error (MsgFileMissing file) ;;; io_ret 1
               else
                 success ←← extract_archive file out ;;
                 if success : bool then
                   log Info MsgSuccess ;;;
                   (if a_delete a then remove_source file else io_ret tt) ;;;
                   io_ret 0
                 else
                   log Error MsgFailure ;;; io_ret 1) w in
            (code, w',
             [EvLog Info (MsgConfigLoaded (a_config a));
              EvLog Info (MsgInputDir (default (output_dir cfg) (given (a_input a))));
              EvLog Info (MsgOutputDir out)] ++ tr)) as ->.
  { unfold main. unfold io_bind at 1. rewrite (load_config_ok _ _ _ _ Hcfg).
    unfold log. rewrite !io_bind_emit. rewrite Hfile. fold out.
    by destruct (io_bind (path_exists file) _ w) as [[code w'] tr]. }
  unfold path_exists, log. io_run. split.
  - intros Hnone. rewrite bool_decide_false by (rewrite Hnone; by intros []).
    simpl. eexists. split; [reflexivity|]. done.
  - intros Hsome. cbv zeta. rewrite bool_decide_true by done. simpl.
    destruct (extract_archive_run file out w) as (b & w1 & t1 & -> & Hobs1).
    cbn [fst snd]. destruct b.
    + destruct (a_delete a).
      * destruct (remove_source_run file w1) as (removed & w2 & t2 & -> & Hobs2).
        exists w2. eexists. exists removed. split; [reflexivity|].
        unfold failures, removals. simpl.
        rewrite !observed_app, Hobs1. simpl. rewrite !observed_app, Hobs2.
        by destruct removed.
      * exists w1. eexists. exists true. split; [reflexivity|].
        unfold failures, removals. simpl. by rewrite !observed_app, Hobs1.
    + exists w1. eexists. exists true. split; [reflexivity|].
      unfold failures, removals. simpl. by rewrite !observed_app, Hobs1.
Qed.

(** The first archive of the example batch, with [--delete]. *)
Lemma main_single_file_witness :
  let a := Args "config.json" None (Some "out") 1 true (Some "in/a.tar.bz2") in
  (w_fs example_batch !! "in/a.tar.bz2" = None →
     ∃ tr, main a [] example_batch = (1, example_batch, tr)
           ∧ extractions tr = [] ∧ observed tr = []
           ∧ last tr = Some (EvLog Error (MsgFileMissing "in/a.tar.bz2")))
  ∧ (is_Some (w_fs example_batch !! "in/a.tar.bz2") →
     let ok := (extract_archive "in/a.tar.bz2" "out" example_batch).1.1 in
     ∃ w' tr removed,
       main a [] example_batch = ((if ok then 0 else 1), w', tr)
       ∧ failures tr = (if ok then [] else ["in/a.tar.bz2"])
       ∧ removals tr
           = (if ok && a_delete a then [("in/a.tar.bz2", removed)] else [])).
Proof.
  intros a.
  apply (main_single_file a [] example_batch "{}" example_extract_config
           "in/a.tar.bz2").
  - vm_compute. reflexivity.
  - reflexivity.
Defined.

End extract_main2.

Section extract_main3.
Import Extractor ExtractTrace ExtractRun.

(** X25. A batch run with a number of workers that is zero or negative, an
    archive being found: the pool cannot be made, and [main] exits with
    status 1 with the world unchanged and nothing extracted or reported;
    its last log line is the one that announces the workers. *)
Theorem main_no_pool a order w content cfg :
  w_fs w !! a_config a = Some (TextFile content (Some cfg)) →
  given (a_file a) = None →
  a_workers a ≤ 0 →
  (find_archives (default (output_dir cfg) (given (a_input a))) w).1.1 ≠ [] →
  ∃ tr,
    main a order w = (1, w, tr)
    ∧ extractions tr = [] ∧ observed tr = []
    ∧ last tr = Some (EvLog Info (MsgWorkers (a_workers a))).
Proof.
  intros Hcfg Hfile Hneg Hfound.
  set (input_dir := default (output_dir cfg) (given (a_input a))) in *.
  set (out := default (os_path_join (output_dir cfg) "extracted") (given (a_output a))).
  assert (∃ t1, extract_all input_dir out (a_workers a) (a_delete a) order w
                  = (Raised ValueError, w, t1)
                ∧ extractions t1 = [] ∧ observed t1 = []
                ∧ last t1 = Some (EvLog Info (MsgWorkers (a_workers a))))
    as (t1 & Hrun & Hex1 & Hobs1 & Hlast1).
  { unfold extract_all. unfold io_bind at 1.
    destruct (find_archives_trace input_dir w) as (archives & Hfind).
    rewrite Hfind in Hfound |- *. cbn [fst] in Hfound.
    destruct archives as [|a0 archives]; [done|].
    rewrite (proj2 (Z.eqb_neq (a_workers a) 1)) by lia.
    rewrite (proj2 (Z.leb_le (a_workers a) 0)) by done.
    unfold log. io_run. eexists. split; [reflexivity|].
    split; [by destruct (bool_decide _)|].
    split; [by destruct (bool_decide _)|]. done. }
  unfold main. unfold io_bind at 1. rewrite (load_config_ok _ _ _ _ Hcfg).
  unfold log. rewrite !io_bind_emit. rewrite Hfile.
  fold input_dir. fold out. unfold io_bind at 1. rewrite Hrun. io_run.
  eexists. split; [reflexivity|]. rewrite !app_nil_r.
  split; [exact Hex1|]. split; [exact Hobs1|].
  destruct t1 as [|e t1]; [done|]. exact Hlast1.
Qed.

(** The example batch with [--workers 0]. *)
Lemma main_no_pool_witness :
  let a := Args "config.json" None (Some "out") 0 false None in
  ∃ tr,
    main a [] example_batch = (1, example_batch, tr)
    ∧ extractions tr = [] ∧ observed tr = []
    ∧ last tr = Some (EvLog Info (MsgWorkers 0)).
Proof.
  intros a.
  apply (main_no_pool a [] example_batch "{}" example_extract_config).
  - vm_compute. reflexivity.
  - reflexivity.
  - vm_compute. discriminate.
  - vm_compute. discriminate.
Defined.

End extract_main3.

(** ** A batch in which one archive fails to extract *)

Section one_failure.
Import Extractor ExtractTrace ExtractRun.


















End one_failure.
